(** * Debugger proxy of go-debugger-devtools: a shallow embedding

    The development follows [src/proxies/debugger/proxy.go].  Go packages
    become modules, Go structs become records, nullable pointers become
    [option], Go's [int]/[int64] are integers of [Z] with the 64-bit
    two's-complement wrap-around written out, Go strings are byte strings
    ([string] of the standard library), the two maps of the proxy are a
    [gmap] and a [gset], and handlers run in a small state-and-panic monad
    that records every observable effect (events, responses, debugger-client
    calls) in a trace. *)

From Stdlib Require Import ZArith Ascii String List DecimalString DecimalPos DecimalZ.
From stdpp Require Import gmap strings list fin_maps.

Local Open Scope Z_scope.
Local Open Scope string_scope.

(** ** Go integers *)

Module GoInt.

Definition min_int64 : Z := - 2 ^ 63.
Definition max_int64 : Z := 2 ^ 63 - 1.

(** Result of an [int64] (and, on 64-bit platforms, [int]) operation whose
    mathematical value is [z]. *)
Definition wrap64 (z : Z) : Z := (z + 2 ^ 63) mod 2 ^ 64 - 2 ^ 63.

Definition in_int64 (z : Z) : Prop := min_int64 <= z <= max_int64.

Definition add (a b : Z) : Z := wrap64 (a + b).
Definition sub (a b : Z) : Z := wrap64 (a - b).

(** [fmt.Sprintf("%d", z)] *)
Definition fmt_d (z : Z) : string := NilZero.string_of_int (Z.to_int z).

Definition is_digit (c : ascii) : bool :=
  ((48 <=? Z.of_N (N_of_ascii c))%Z && (Z.of_N (N_of_ascii c) <=? 57)%Z)%bool.

Definition digit_val (c : ascii) : Z := Z.of_N (N_of_ascii c) - 48.

(** The digit loop of [strconv.ParseUint] in base 10: [None] on a
    character that is not a decimal digit. *)
Fixpoint parse_digits (acc : Z) (s : string) : option Z :=
  match s with
  | EmptyString => Some acc
  | String c rest =>
      if is_digit c then parse_digits (acc * 10 + digit_val c) rest else None
  end.

(** [strconv.Atoi]: an optional sign, at least one decimal digit, and a
    value that fits [int]; [None] stands for the returned error. *)
Definition Atoi (s : string) : option Z :=
  let '(neg, body) :=
    match s with
    | String "-" rest => (true, rest)
    | String "+" rest => (false, rest)
    | _ => (false, s)
    end in
  match body with
  | EmptyString => None
  | _ =>
      match parse_digits 0 body with
      | None => None
      | Some n =>
          let v := if neg then - n else n in
          if ((min_int64 <=? v)%Z && (v <=? max_int64)%Z)%bool then Some v else None
      end
  end.

End GoInt.

(** ** Go strings helpers *)

Module GoStrings.

(** [strings.Split(s, sep)] for a one-byte separator: the segments between
    the occurrences of [sep]; never empty. *)
Fixpoint Split (s : string) (sep : ascii) : list string :=
  match s with
  | EmptyString => [EmptyString]
  | String c rest =>
      if Ascii.eqb c sep then EmptyString :: Split rest sep
      else match Split rest sep with
           | seg :: segs => String c seg :: segs
           | [] => [String c EmptyString]
           end
  end.

(** [parts[len(parts) - 1]] *)
Definition last_part (parts : list string) : string := List.last parts EmptyString.

(** [[]byte(s)] *)
Definition bytes_of (s : string) : list Z :=
  List.map (fun c => Z.of_N (N_of_ascii c)) (list_ascii_of_string s).

End GoStrings.

(** ** SHA-1 (FIPS 180-4), as computed by [crypto/sha1.Sum] *)

Module SHA1.

Definition w32 (x : Z) : Z := x mod 2 ^ 32.
Definition add32 (a b : Z) : Z := w32 (a + b).
Definition rotl (n x : Z) : Z := w32 (Z.lor (Z.shiftl x n) (Z.shiftr x (32 - n))).
Definition not32 (x : Z) : Z := Z.lxor x 4294967295.

Definition f (t : nat) (b c d : Z) : Z :=
  if (t <? 20)%nat then Z.lor (Z.land b c) (Z.land (not32 b) d)
  else if (t <? 40)%nat then Z.lxor (Z.lxor b c) d
  else if (t <? 60)%nat then Z.lor (Z.lor (Z.land b c) (Z.land b d)) (Z.land c d)
  else Z.lxor (Z.lxor b c) d.

Definition K (t : nat) : Z :=
  if (t <? 20)%nat then 1518500249
  else if (t <? 40)%nat then 1859775393
  else if (t <? 60)%nat then 2400959708
  else 3395469782.

(** Padding: the byte 0x80, zero bytes up to 56 modulo 64, then the bit
    length as a 64-bit big-endian integer. *)
Definition be_bytes (n : nat) (x : Z) : list Z :=
  List.map (fun i => (x / 2 ^ (8 * Z.of_nat i)) mod 256) (List.rev (List.seq 0 n)).

Definition pad (msg : list Z) : list Z :=
  let l := Z.of_nat (List.length msg) in
  let zeros := Z.to_nat ((55 - l) mod 64) in
  msg ++ [128] ++ List.repeat 0 zeros ++ be_bytes 8 (8 * l).

Fixpoint words (fuel : nat) (bs : list Z) : list Z :=
  match fuel, bs with
  | S k, b0 :: b1 :: b2 :: b3 :: rest =>
      (((b0 * 256 + b1) * 256 + b2) * 256 + b3) :: words k rest
  | _, _ => []
  end.

(** Message schedule; [recent] holds the words computed so far, latest
    first. *)
Fixpoint schedule (n : nat) (recent : list Z) : list Z :=
  match n with
  | O => recent
  | S k =>
      let w := rotl 1 (Z.lxor (Z.lxor (Z.lxor (List.nth 2 recent 0) (List.nth 7 recent 0))
                                      (List.nth 13 recent 0)) (List.nth 15 recent 0)) in
      schedule k (w :: recent)
  end.

Definition state : Type := Z * Z * Z * Z * Z.

Definition round (st : state) (tw : nat * Z) : state :=
  let '(a, b, c, d, e) := st in
  let '(t, w) := tw in
  let tmp := add32 (add32 (add32 (add32 (rotl 5 a) (f t b c d)) e) w) (K t) in
  (tmp, a, rotl 30 b, c, d).

Definition block (h : state) (blk : list Z) : state :=
  let ws := List.rev (schedule 64 (List.rev (words 16 blk))) in
  let '(a, b, c, d, e) := List.fold_left round (List.combine (List.seq 0 80) ws) h in
  let '(h0, h1, h2, h3, h4) := h in
  (add32 h0 a, add32 h1 b, add32 h2 c, add32 h3 d, add32 h4 e).

Fixpoint blocks (fuel : nat) (h : state) (bs : list Z) : state :=
  match fuel with
  | O => h
  | S k =>
      match bs with
      | [] => h
      | _ => blocks k (block h (List.firstn 64 bs)) (List.skipn 64 bs)
      end
  end.

Definition init : state :=
  (1732584193, 4023233417, 2562383102, 271733878, 3285377520).

Definition digest (st : state) : list Z :=
  let '(h0, h1, h2, h3, h4) := st in
  be_bytes 4 h0 ++ be_bytes 4 h1 ++ be_bytes 4 h2 ++ be_bytes 4 h3 ++ be_bytes 4 h4.

(** [sha1.Sum(data)]: the 20-byte digest. *)
Definition Sum (data : list Z) : list Z :=
  let p := pad data in
  digest (blocks (List.length p) init p).

End SHA1.

(** ** [fmt] verbs used by the proxy *)

Module GoFmt.

Definition hex_digit (n : Z) : ascii :=
  List.nth (Z.to_nat n) (list_ascii_of_string "0123456789abcdef") "0"%char.

(** [fmt.Sprintf("%x", bytes)]: two lowercase hex digits per byte. *)
Fixpoint hex (bs : list Z) : string :=
  match bs with
  | [] => EmptyString
  | b :: rest => String (hex_digit (b / 16)) (String (hex_digit (b mod 16)) (hex rest))
  end.

End GoFmt.

(** ** Protocol packages

    The packages [proxy.go] imports from the repository are not among the
    sources at hand.  Their types are declared here with the fields that
    [proxy.go] reads or writes.  A pointer field that may be [nil] is an
    [option]; an unset field of a struct literal holds Go's zero value. *)

(** Modelled from the spec: [protocol/shared], the error codes named in
    [proxy.go] (spec section 7). *)
Module shared.

Inductive ErrorCode : Set :=
| ErrorCodeMethodNotFound
| ErrorCodeInvalidParams
| ErrorCodeInternalError.

End shared.

(** Modelled from the spec: [dbgClient], the data the debugger client
    hands to the proxy and the methods the proxy calls (spec section 6,
    debugger client contract). *)
Module dbgClient.

Record Function : Set := { Name : string }.

Record Location : Set := {
  File : string;
  Line : Z;
  Function_ : option Function
}.

Record Stackframe : Set := { Location_ : Location }.

Record Goroutine : Set := {
  ID : Z;
  UserCurrentLoc : Location
}.

Record State : Set := { SelectedGoroutine : option Goroutine }.

Record LoadConfig : Set := {
  FollowPointers : bool;
  MaxVariableRecurse : Z;
  MaxStringLen : Z;
  MaxArrayValues : Z;
  MaxStructFields : Z
}.

Record EvalScope : Set := {
  GoroutineID : Z;
  Frame : Z
}.

(** [dbgClient.Variable]; the proxy only passes it on to the Runtime
    collaborator. *)
Record Var : Set := { VarName : string; VarValue : string }.

(** Go's [error], observed through [err.Error()]. *)
Definition error : Set := string.

(** The methods of [*dbgClient.Client] the proxy calls.  The client is a
    collaborator outside [proxy.go]: each method is a transition of an
    abstract client state and returns what the Go method returns, a
    [(value, err)] pair with [err = None] for [nil]. *)
Record Ops (C : Type) : Type := {
  GetState : C -> C * (option State * option error);
  ListGoroutines : C -> C * (list Goroutine * option error);
  Stacktrace : C -> Z -> Z -> LoadConfig -> C * (list Stackframe * option error);
  SwitchGoroutine : C -> Z -> C * (option State * option error);
  Next : C -> C * (option State * option error);
  Step : C -> C * (option State * option error);
  StepOut : C -> C * (option State * option error);
  (** [<-client.Continue()]: [None] when the channel is closed. *)
  Continue : C -> C * option (option State);
  CreateBreakpointAtLine : C -> string -> Z -> string -> C * option error;
  ClearBreakpointByName : C -> string -> C * option error;
  EvalVariable : C -> EvalScope -> string -> LoadConfig -> C * (option Var * option error)
}.

Arguments GetState {C}.
Arguments ListGoroutines {C}.
Arguments Stacktrace {C}.
Arguments SwitchGoroutine {C}.
Arguments Next {C}.
Arguments Step {C}.
Arguments StepOut {C}.
Arguments Continue {C}.
Arguments CreateBreakpointAtLine {C}.
Arguments ClearBreakpointByName {C}.
Arguments EvalVariable {C}.

End dbgClient.

(** Modelled from the spec: [protocol/runtime]. *)
Module runtimeAgent.

Record RemoteObject : Set := {
  Type_ : string;
  ObjectId : option string
}.

(** The zero value of the struct. *)
Definition RemoteObject_zero : RemoteObject := {| Type_ := EmptyString; ObjectId := None |}.

Definition RemoteObjectTypeObject : string := "object".

Record ExceptionDetails : Set := {
  ExceptionId : Z;
  Text : string;
  LineNumber : Z;
  ColumnNumber : Z
}.

End runtimeAgent.

(** Modelled from the spec: [protocol/target]. *)
Module targetAgent.

Record TargetInfo : Set := {
  TargetId : string;
  Type_ : string;
  Title : string;
  Url : string
}.

Record AttachedToTargetEvent : Set := {
  TargetInfo_ : TargetInfo;
  WaitingForDebugger : bool
}.

Record DetachedFromTargetEvent : Set := { DetachedTargetId : string }.

End targetAgent.

(** Modelled from the spec: [protocol/debugger].  [LineNumber] fields are
    [int64]: [proxy.go] converts them with [int(...)] and [int64(...)]. *)
Module debuggerAgent.

Record Location : Set := {
  ScriptId : string;
  LineNumber : Z
}.

Inductive ScopeType : Set := ScopeTypeLocal.

Record Scope : Set := {
  Type_ : ScopeType;
  Object : runtimeAgent.RemoteObject
}.

Record CallFrame : Set := {
  CallFrameId : string;
  FunctionName : string;
  Location_ : Location;
  ScopeChain : list Scope;
  This : runtimeAgent.RemoteObject;
  ReturnValue : option runtimeAgent.RemoteObject
}.

Record PausedEvent : Set := {
  Reason : string;
  CallFrames : list CallFrame
}.

Record ScriptParsedEvent : Set := {
  ParsedScriptId : string;
  Url : string;
  ExecutionContextId : Z
}.

Record SetBreakpointByUrlCommand : Set := {
  CmdLineNumber : Z;
  CmdUrl : option string;
  UrlRegex : option string;
  ColumnNumber : option Z;
  Condition : option string
}.

Record SetBreakpointByUrlReturn : Set := {
  BreakpointId : string;
  Locations : list Location
}.

Record RemoveBreakpointCommand : Set := { RemoveBreakpointId : string }.

(** [StepOverCommand], [StepIntoCommand], [StepOutCommand] and
    [ResumeCommand] carry the same field. *)
Record StepCommand : Set := { DestinationTargetID : string }.

Record EvaluateOnCallFrameCommand : Set := {
  EvalDestinationTargetID : string;
  EvalCallFrameId : string;
  Expression : string
}.

Record EvaluateOnCallFrameReturn : Set := {
  Result : runtimeAgent.RemoteObject;
  ExceptionDetails : option runtimeAgent.ExceptionDetails
}.

End debuggerAgent.

(** ** Observable effects

    Everything a handler does to the outside world, in program order: events
    fired on the agents, the answer to the command in hand, calls of the
    debugger client, lines printed, and the operations on the two locks. *)

Inductive reply : Set :=
| ReplyEmpty
| ReplySetBreakpointByUrl (r : debuggerAgent.SetBreakpointByUrlReturn)
| ReplyEvaluateOnCallFrame (r : debuggerAgent.EvaluateOnCallFrameReturn).

Inductive client_call : Set :=
| CallGetState
| CallListGoroutines
| CallStacktrace (routine depth : Z) (cfg : dbgClient.LoadConfig)
| CallSwitchGoroutine (routine : Z)
| CallNext
| CallStep
| CallStepOut
| CallContinue
| CallCreateBreakpointAtLine (file : string) (line : Z) (name : string)
| CallClearBreakpointByName (name : string)
| CallEvalVariable (scope : dbgClient.EvalScope) (expr : string) (cfg : dbgClient.LoadConfig).

(** The two locks of the proxy: [activeTargetsMux] and [breakpointsMux]. *)
Inductive mutex : Set := activeTargetsMux | breakpointsMux.

Inductive effect : Set :=
| FireAttachedToTarget (e : targetAgent.AttachedToTargetEvent)
| FireDetachedFromTarget (e : targetAgent.DetachedFromTargetEvent)
| FireScriptParsedOnTarget (target : string) (e : debuggerAgent.ScriptParsedEvent)
| FireResumed
| FireResumedOnTarget (target : string)
| FirePaused (e : debuggerAgent.PausedEvent)
| FirePausedOnTarget (target : string) (e : debuggerAgent.PausedEvent)
| Respond (r : reply)
| RespondWithError (code : shared.ErrorCode) (msg : string)
| ClientCall (c : client_call)
| Println (s : string)
| Lock (m : mutex)
| Unlock (m : mutex)
| RLock (m : mutex)
| RUnlock (m : mutex).

(** ** The proxy state *)

Record Target : Set := { ID : Z }.

Record proxy : Type := {
  activeTargets : gmap Z Target;
  fileList : list string;
  activeGoroutineID : Z;
  breakpoints : gset string
}.

Definition set_activeTargets (f : gmap Z Target -> gmap Z Target) (p : proxy) : proxy :=
  {| activeTargets := f (activeTargets p); fileList := fileList p;
     activeGoroutineID := activeGoroutineID p; breakpoints := breakpoints p |}.

Definition set_activeGoroutineID (id : Z) (p : proxy) : proxy :=
  {| activeTargets := activeTargets p; fileList := fileList p;
     activeGoroutineID := id; breakpoints := breakpoints p |}.

Definition set_breakpoints (f : gset string -> gset string) (p : proxy) : proxy :=
  {| activeTargets := activeTargets p; fileList := fileList p;
     activeGoroutineID := activeGoroutineID p; breakpoints := f (breakpoints p) |}.

(** [NewProxy] *)
Definition NewProxy : proxy :=
  {| activeTargets := ∅; fileList := []; activeGoroutineID := 0; breakpoints := ∅ |}.

(** ** The handler monad

    A handler transforms a world (proxy state, debugger-client state, the
    trace of effects so far, and the number of map iterations started) and
    either returns or panics.  A panic in a handler goroutine is not
    recovered anywhere in the proxy, so it ends the process. *)

Record World (C : Type) : Type := mkWorld {
  px : proxy;
  client : C;
  trace : list effect;
  ranges : nat
}.

Arguments mkWorld {C}.
Arguments px {C}.
Arguments client {C}.
Arguments trace {C}.
Arguments ranges {C}.

Inductive panic_value : Set :=
| PanicError (e : dbgClient.error)
| PanicString (s : string)
| PanicAtoi (input : string).

Inductive Outcome (C A : Type) : Type :=
| Done (a : A) (w : World C)
| Panicked (v : panic_value) (w : World C).

Arguments Done {C A}.
Arguments Panicked {C A}.

Definition M (C A : Type) : Type := World C -> Outcome C A.

Definition ret {C A} (a : A) : M C A := fun w => Done a w.

Definition bind {C A B} (m : M C A) (k : A -> M C B) : M C B :=
  fun w => match m w with
           | Done a w' => k a w'
           | Panicked v w' => Panicked v w'
           end.

Definition panic {C A} (v : panic_value) : M C A := fun w => Panicked v w.

Declare Scope go_scope.
Delimit Scope go_scope with go.
Notation "x <- m ;; k" := (bind m (fun x => k))
  (at level 100, m at next level, right associativity) : go_scope.
Notation "m ;; k" := (bind m (fun _ => k))
  (at level 100, right associativity) : go_scope.
Local Open Scope go_scope.

Definition emit {C} (e : effect) : M C unit :=
  fun w => Done tt (mkWorld (px w) (client w) (trace w ++ [e]) (ranges w)).

Definition get_proxy {C} : M C proxy := fun w => Done (px w) w.

Definition modify_proxy {C} (f : proxy -> proxy) : M C unit :=
  fun w => Done tt (mkWorld (f (px w)) (client w) (trace w) (ranges w)).

(** A call of the debugger client: logged, then answered by the client. *)
Definition call {C A} (c : client_call) (method : C -> C * A) : M C A :=
  fun w => let '(c', r) := method (client w) in
           Done r (mkWorld (px w) c' (trace w ++ [ClientCall c]) (ranges w)).

(** [for _, x := range xs { body }] over a slice. *)
Fixpoint for_each {C A} (xs : list A) (body : A -> M C unit) : M C unit :=
  match xs with
  | [] => ret tt
  | x :: rest => body x ;; for_each rest body
  end.

(** A loop that threads local variables [acc] through its iterations. *)
Fixpoint fold_each {C A S} (xs : list A) (acc : S) (body : S -> A -> M C S) : M C S :=
  match xs with
  | [] => ret acc
  | x :: rest => acc' <- body acc x ;; fold_each rest acc' body
  end.

(** [defer deferred(); body]: the deferred call runs when the body returns
    and also when it panics; a panic of the body goes on after it. *)
Definition with_defer {C A} (deferred : M C unit) (body : M C A) : M C A :=
  fun w => match body w with
           | Done a w' =>
               match deferred w' with
               | Done _ w'' => Done a w''
               | Panicked v w'' => Panicked v w''
               end
           | Panicked v w' =>
               match deferred w' with
               | Done _ w'' => Panicked v w''
               | Panicked v' w'' => Panicked v' w''
               end
           end.

(** Outcome of a handler: the proxy survives exactly when no panic
    escaped. *)
Definition proxy_lives {C A} (o : Outcome C A) : Prop :=
  match o with Done _ _ => True | Panicked _ _ => False end.

Definition final_world {C A} (o : Outcome C A) : World C :=
  match o with Done _ w => w | Panicked _ w => w end.

(** ** The proxy ([proxy.go]) *)

Section Proxy.

Context {C : Type}.

(** [p.client] *)
Variable client_ops : dbgClient.Ops C.

(** [p.runtime.MakeRemoteObject] of the Runtime collaborator. *)
Variable MakeRemoteObject : dbgClient.Var -> runtimeAgent.RemoteObject.

(** Go visits the entries of a map in an unspecified order, which may
    change from one loop to the next: the [n]-th map iteration of a run
    visits the entries in the order [range_order n]. *)
Variable range_order : nat -> forall A : Type, list A -> list A.

Definition range_entries {A : Type} (entries : list A) : M C (list A) :=
  fun w => Done (range_order (ranges w) A entries)
                (mkWorld (px w) (client w) (trace w) (S (ranges w))).

(** [for routineID, target := range p.activeTargets] *)
Definition range_activeTargets : M C (list (Z * Target)) :=
  p <- get_proxy ;; range_entries (map_to_list (activeTargets p)).

(** *** Target *)

(** The name computed at the top of [Attach] (lines 25-29). *)
Definition attach_name (routine : dbgClient.Goroutine) : string :=
  match dbgClient.Function_ (dbgClient.UserCurrentLoc routine) with
  | Some fn =>
      let parts := GoStrings.Split (dbgClient.Name fn) "."%char in
      " " ++ GoStrings.last_part parts
  | None => EmptyString
  end.

Definition Attach (t : Target) (routine : dbgClient.Goroutine) : M C unit :=
  let name := attach_name routine in
  emit (FireAttachedToTarget
          {| targetAgent.TargetInfo_ :=
               {| targetAgent.TargetId := GoInt.fmt_d (ID t);
                  targetAgent.Type_ := "node";
                  targetAgent.Title := "tt";
                  targetAgent.Url := GoInt.fmt_d (ID t) ++ ":" ++ name |};
             targetAgent.WaitingForDebugger := false |}) ;;
  p <- get_proxy ;;
  for_each (fileList p) (fun file =>
    emit (FireScriptParsedOnTarget (GoInt.fmt_d (ID t))
            {| debuggerAgent.ParsedScriptId := file;
               debuggerAgent.Url := file;
               debuggerAgent.ExecutionContextId := 1 |})).

Definition Destroy (t : Target) : M C unit :=
  emit (FireDetachedFromTarget
          {| targetAgent.DetachedTargetId := GoInt.fmt_d (ID t) |}).

Definition Target_FireResumed (t : Target) : M C unit :=
  emit (FireResumedOnTarget (GoInt.fmt_d (ID t))).

Definition buildScopeChain (frameId : Z) : list debuggerAgent.Scope :=
  let objectId := "local:" ++ GoInt.fmt_d frameId in
  [ {| debuggerAgent.Type_ := debuggerAgent.ScopeTypeLocal;
       debuggerAgent.Object :=
         {| runtimeAgent.Type_ := runtimeAgent.RemoteObjectTypeObject;
            runtimeAgent.ObjectId := Some objectId |} |} ].

(** The frame translation loop, written out twice in the source: in
    [Target.FirePaused] (lines 60-79) and in [sendPauseState] (lines
    408-427).  [index] is the loop index of the first frame of
    [callframes]. *)
Fixpoint sendFrames_from (index : Z) (callframes : list dbgClient.Stackframe)
  : list debuggerAgent.CallFrame :=
  match callframes with
  | [] => []
  | frame :: rest =>
      let functionName :=
        match dbgClient.Function_ (dbgClient.Location_ frame) with
        | Some fn => dbgClient.Name fn
        | None => "<Unknown>"
        end in
      {| debuggerAgent.CallFrameId := GoInt.fmt_d index;
         debuggerAgent.FunctionName := functionName;
         debuggerAgent.Location_ :=
           {| debuggerAgent.ScriptId := dbgClient.File (dbgClient.Location_ frame);
              debuggerAgent.LineNumber :=
                GoInt.sub (dbgClient.Line (dbgClient.Location_ frame)) 1 |};
         debuggerAgent.ScopeChain := buildScopeChain index;
         debuggerAgent.This :=
           {| runtimeAgent.Type_ := "undefined"; runtimeAgent.ObjectId := None |};
         debuggerAgent.ReturnValue := None |}
      :: sendFrames_from (index + 1) rest
  end.

Definition sendFrames (callframes : list dbgClient.Stackframe) : list debuggerAgent.CallFrame :=
  sendFrames_from 0 callframes.

Definition Target_FirePaused (t : Target) (callframes : list dbgClient.Stackframe) : M C unit :=
  emit (FirePausedOnTarget (GoInt.fmt_d (ID t))
          {| debuggerAgent.Reason := "other";
             debuggerAgent.CallFrames := sendFrames callframes |}).

(** *** Routine sync *)

Definition syncGoroutines : M C unit :=
  emit (Lock activeTargetsMux) ;;
  with_defer (emit (Unlock activeTargetsMux))
   (r <- call CallListGoroutines (dbgClient.ListGoroutines client_ops) ;;
    match r with
    | (_, Some err) => panic (PanicError err)
    | (routines, None) =>
        foundTargets <-
          fold_each routines (∅ : gset Z) (fun foundTargets routine =>
            let id := dbgClient.ID routine in
            p <- get_proxy ;;
            match activeTargets p !! id with
            | Some _ => ret ({[ id ]} ∪ foundTargets)
            | None =>
                let target := {| ID := id |} in
                Attach target routine ;;
                modify_proxy (set_activeTargets (fun m => <[ id := target ]> m)) ;;
                ret ({[ id ]} ∪ foundTargets)
            end) ;;
        entries <- range_activeTargets ;;
        for_each entries (fun entry =>
          let '(routineID, target) := entry in
          if decide (routineID ∈ foundTargets) then ret tt
          else
            Destroy target ;;
            modify_proxy (set_activeTargets (fun m => delete routineID m))) ;;
        p <- get_proxy ;;
        match activeTargets p !! activeGoroutineID p with
        | Some _ => ret tt
        | None =>
            (* Grab first item in activeTargets since one was not found. *)
            entries <- range_activeTargets ;;
            match entries with
            | (index, _) :: _ => modify_proxy (set_activeGoroutineID index)
            | [] => ret tt
            end
        end
    end).

(** *** Resume and pause fan-out *)

Definition sendResumeState : M C unit :=
  emit (RLock activeTargetsMux) ;;
  with_defer (emit (RUnlock activeTargetsMux))
   (entries <- range_activeTargets ;;
    for_each entries (fun entry => Target_FireResumed (snd entry)) ;;
    emit FireResumed).

Definition stack_LoadConfig : dbgClient.LoadConfig :=
  {| dbgClient.FollowPointers := true;
     dbgClient.MaxVariableRecurse := 1;
     dbgClient.MaxStringLen := 1;
     dbgClient.MaxArrayValues := 1;
     dbgClient.MaxStructFields := 1 |}.

(** The part of [sendPauseState] under the read lock (lines 381-404),
  which is released by hand and so stays held if a panic cuts the loop:
  one [Stacktrace] per active target; the stack of the active routine is
  set aside, the others are kept per target. *)
Definition collectStacks
  : M C (option (list dbgClient.Stackframe) * list (Target * list dbgClient.Stackframe)) :=
  emit (RLock activeTargetsMux) ;;
  entries <- range_activeTargets ;;
  locals <-
    fold_each entries
      (None : option (list dbgClient.Stackframe),
       [] : list (Target * list dbgClient.Stackframe))
      (fun locals entry =>
         let '(activeStack, targetsStacks) := locals in
         let '(routineID, target) := entry in
         r <- call (CallStacktrace routineID 50 stack_LoadConfig)
                (fun c => dbgClient.Stacktrace client_ops c routineID 50 stack_LoadConfig) ;;
         match r with
         | (_, Some err) => panic (PanicError err)
         | (stacks, None) =>
             p <- get_proxy ;;
             if decide (routineID = activeGoroutineID p)
             then ret (Some stacks, targetsStacks)
             else ret (activeStack, (targetsStacks ++ [(target, stacks)])%list)
         end) ;;
  emit (RUnlock activeTargetsMux) ;;
  ret locals.

(** The end of [sendPauseState], after the lock is released (lines
  406-436). *)
Definition firePausedEvents
  (locals : option (list dbgClient.Stackframe) * list (Target * list dbgClient.Stackframe))
  : M C unit :=
  let '(activeStack, targetsStacks) := locals in
  match activeStack with
  | Some stack =>
      emit (FirePaused {| debuggerAgent.Reason := "other";
                          debuggerAgent.CallFrames := sendFrames stack |})
  | None => ret tt
  end ;;
  others <- range_entries targetsStacks ;;
  for_each others (fun entry => Target_FirePaused (fst entry) (snd entry)).

Definition sendPauseState : M C unit :=
  r <- call CallGetState (dbgClient.GetState client_ops) ;;
  match r with
  | (_, Some err) => panic (PanicError err)
  | (state, None) =>
      syncGoroutines ;;
      (* TODO Need some checks here on state. *)
      match state with
      | None => panic (PanicString "Called sendPauseState() but not paused.")
      | Some _ =>
          locals <- collectStacks ;;
          firePausedEvents locals
      end
  end.

(** *** Step / resume handlers *)

(** The opening block shared verbatim by the four step/resume handlers:
    the test of [command.DestinationTargetID] against the empty string. *)
Definition selectDestination (command : debuggerAgent.StepCommand) : M C unit :=
  if decide (debuggerAgent.DestinationTargetID command = EmptyString) then ret tt
  else
    match GoInt.Atoi (debuggerAgent.DestinationTargetID command) with
    | Some targetID => modify_proxy (set_activeGoroutineID targetID)
    | None =>
        emit (RespondWithError shared.ErrorCodeInternalError
                "Could not convert targetID to int") ;;
        panic (PanicAtoi (debuggerAgent.DestinationTargetID command))
    end.

(** [p.client.SwitchGoroutine(int(p.activeGoroutineID))] with its error
    branch, as written in each of the four handlers. *)
Definition switchToActive : M C unit :=
  p <- get_proxy ;;
  r <- call (CallSwitchGoroutine (activeGoroutineID p))
         (fun c => dbgClient.SwitchGoroutine client_ops c (activeGoroutineID p)) ;;
  match snd r with
  | Some err =>
      emit (RespondWithError shared.ErrorCodeInternalError err) ;;
      panic (PanicError err)
  | None => ret tt
  end.

(** The body common to [stepOverAndRespond], [stepIntoAndRespond] and
    [stepOutAndRespond], which differ in the client primitive only. *)
Definition stepAndRespond (prim : client_call)
    (method : C -> C * (option dbgClient.State * option dbgClient.error))
    (command : debuggerAgent.StepCommand) : M C unit :=
  selectDestination command ;;
  switchToActive ;;
  sendResumeState ;;
  r <- call prim method ;;
  match snd r with
  | Some err =>
      emit (RespondWithError shared.ErrorCodeInternalError err) ;;
      panic (PanicError err)
  | None =>
      emit (Respond ReplyEmpty) ;;
      sendPauseState
  end.

Definition stepOverAndRespond : debuggerAgent.StepCommand -> M C unit :=
  stepAndRespond CallNext (dbgClient.Next client_ops).

Definition stepIntoAndRespond : debuggerAgent.StepCommand -> M C unit :=
  stepAndRespond CallStep (dbgClient.Step client_ops).

Definition stepOutAndRespond : debuggerAgent.StepCommand -> M C unit :=
  stepAndRespond CallStepOut (dbgClient.StepOut client_ops).

Definition continueAndRespond (command : debuggerAgent.StepCommand) : M C unit :=
  selectDestination command ;;
  switchToActive ;;
  emit (Respond ReplyEmpty) ;;
  sendResumeState ;;
  r <- call CallContinue (dbgClient.Continue client_ops) ;;
  match r with
  | None => panic (PanicString "It appears program has exited")
  | Some state =>
      match state with
      | Some st =>
          match dbgClient.SelectedGoroutine st with
          | Some g => modify_proxy (set_activeGoroutineID (dbgClient.ID g))
          | None => ret tt
          end
      | None => ret tt
      end ;;
      sendPauseState
  end.

(** *** Breakpoints *)

Definition buildLocation (file : string) (line : Z) : debuggerAgent.Location :=
  {| debuggerAgent.ScriptId := file; debuggerAgent.LineNumber := line |}.

(** [fmt.Sprintf("a%x", sha1.Sum([]byte(fmt.Sprintf("%s:%d", url, line))))] *)
Definition breakpointKey (url : string) (lineNumber : Z) : string :=
  "a" ++ GoFmt.hex (SHA1.Sum (GoStrings.bytes_of (url ++ ":" ++ GoInt.fmt_d lineNumber))).

Definition sendBreakpointSet (command : debuggerAgent.SetBreakpointByUrlCommand)
    (breakpointId : string) : M C unit :=
  match debuggerAgent.CmdUrl command with
  | None => panic (PanicString "invalid memory address or nil pointer dereference")
  | Some url =>
      emit (Respond (ReplySetBreakpointByUrl
              {| debuggerAgent.BreakpointId := breakpointId;
                 debuggerAgent.Locations :=
                   [buildLocation url (debuggerAgent.CmdLineNumber command)] |}))
  end.

Definition setBreakpointAndRespond (command : debuggerAgent.SetBreakpointByUrlCommand)
  : M C unit :=
  match debuggerAgent.UrlRegex command with
  | Some _ => emit (RespondWithError shared.ErrorCodeInvalidParams "urlRegex not available")
  | None =>
  if match debuggerAgent.ColumnNumber command with
     | Some col => negb (col =? 0)%Z
     | None => false
     end
  then emit (RespondWithError shared.ErrorCodeInvalidParams "columnNumber not available")
  else
  if match debuggerAgent.Condition command with
     | Some cond => negb (String.eqb cond EmptyString)
     | None => false
     end
  then emit (RespondWithError shared.ErrorCodeInvalidParams "condition not available")
  else
  match debuggerAgent.CmdUrl command with
  | None => emit (RespondWithError shared.ErrorCodeInvalidParams "url must be set")
  | Some url =>
      (* Start with "a" because cannot start just be a number. *)
      let key := breakpointKey url (debuggerAgent.CmdLineNumber command) in
      emit (Lock breakpointsMux) ;;
      with_defer (emit (Unlock breakpointsMux))
       (p <- get_proxy ;;
        if decide (key ∈ breakpoints p) then
          (* Breakpoint already set. *)
          sendBreakpointSet command key
        else
          (* Always +1 from what devtools says. *)
          let line := GoInt.add (debuggerAgent.CmdLineNumber command) 1 in
          err <- call (CallCreateBreakpointAtLine url line key)
                   (fun c => dbgClient.CreateBreakpointAtLine client_ops c url line key) ;;
          match err with
          | Some e =>
              modify_proxy (set_breakpoints (fun s => s ∖ {[ key ]})) ;;
              emit (RespondWithError shared.ErrorCodeInternalError e)
          | None =>
              modify_proxy (set_breakpoints (fun s => {[ key ]} ∪ s)) ;;
              sendBreakpointSet command key
          end)
  end
  end.

Definition removeBreakpointAndRespond (command : debuggerAgent.RemoveBreakpointCommand)
  : M C unit :=
  let breakpointId := debuggerAgent.RemoveBreakpointId command in
  emit (Lock breakpointsMux) ;;
  modify_proxy (set_breakpoints (fun s => s ∖ {[ breakpointId ]})) ;;
  emit (Unlock breakpointsMux) ;;
  err <- call (CallClearBreakpointByName breakpointId)
           (fun c => dbgClient.ClearBreakpointByName client_ops c breakpointId) ;;
  match err with
  | Some e => emit (RespondWithError shared.ErrorCodeInternalError e)
  | None => emit (Respond ReplyEmpty)
  end.

(** *** Evaluation *)

Definition eval_LoadConfig : dbgClient.LoadConfig :=
  {| dbgClient.FollowPointers := true;
     dbgClient.MaxVariableRecurse := 1;
     dbgClient.MaxStringLen := 500;
     dbgClient.MaxArrayValues := 1;
     dbgClient.MaxStructFields := 1 |}.

Definition evaluateOnGoroutineAndRespond
    (command : debuggerAgent.EvaluateOnCallFrameCommand) : M C unit :=
  p <- get_proxy ;;
  goroutineID <-
    (if decide (debuggerAgent.EvalDestinationTargetID command = EmptyString)
     then ret (activeGoroutineID p)
     else match GoInt.Atoi (debuggerAgent.EvalDestinationTargetID command) with
          | Some targetID => ret targetID
          | None =>
              emit (RespondWithError shared.ErrorCodeInternalError
                      "Could not convert targetID to int") ;;
              panic (PanicAtoi (debuggerAgent.EvalDestinationTargetID command))
          end) ;;
  match GoInt.Atoi (debuggerAgent.EvalCallFrameId command) with
  | None => panic (PanicAtoi (debuggerAgent.EvalCallFrameId command))
  | Some frameId =>
      let scope := {| dbgClient.GoroutineID := goroutineID; dbgClient.Frame := frameId |} in
      r <- call (CallEvalVariable scope (debuggerAgent.Expression command) eval_LoadConfig)
             (fun c => dbgClient.EvalVariable client_ops c scope
                         (debuggerAgent.Expression command) eval_LoadConfig) ;;
      match r with
      | (_, Some err) =>
          emit (Println ("Error: " ++ err)) ;;
          emit (Respond (ReplyEvaluateOnCallFrame
                  {| debuggerAgent.Result := runtimeAgent.RemoteObject_zero;
                     debuggerAgent.ExceptionDetails :=
                       Some {| runtimeAgent.ExceptionId := 1;
                               runtimeAgent.Text := err;
                               runtimeAgent.LineNumber := -1;
                               runtimeAgent.ColumnNumber := -1 |} |}))
      | (Some variable, None) =>
          emit (Respond (ReplyEvaluateOnCallFrame
                  {| debuggerAgent.Result := MakeRemoteObject variable;
                     debuggerAgent.ExceptionDetails := None |}))
      | (None, None) =>
          panic (PanicString "invalid memory address or nil pointer dereference")
      end
  end.

End Proxy.

Arguments GoInt.fmt_d : simpl never.
Arguments GoInt.Atoi : simpl never.
Arguments GoInt.add : simpl never.
Arguments GoInt.sub : simpl never.
Arguments SHA1.Sum : simpl never.
Arguments GoFmt.hex : simpl never.
Arguments breakpointKey : simpl never.

(** ** Vocabulary of the statements *)

Local Open Scope list_scope.

(** The effects a computation added to the trace of the world it started
    from. *)
Definition emitted {C A} (w : World C) (o : Outcome C A) : list effect :=
  drop (length (trace w)) (trace (final_world o)).

(** A world whose trace is extended by [es]. *)
Definition add_trace {C} (es : list effect) (w : World C) : World C :=
  mkWorld (px w) (client w) (trace w ++ es) (ranges w).

(** A [SetBreakpointByUrl] command that passes the four parameter checks:
    no urlRegex, columnNumber absent or zero, condition absent or empty,
    url present. *)
Definition accepted (command : debuggerAgent.SetBreakpointByUrlCommand) (url : string) : Prop :=
  debuggerAgent.UrlRegex command = None
  /\ (debuggerAgent.ColumnNumber command = None \/ debuggerAgent.ColumnNumber command = Some 0)
  /\ (debuggerAgent.Condition command = None \/ debuggerAgent.Condition command = Some EmptyString)
  /\ debuggerAgent.CmdUrl command = Some url.

(** The success response of [SetBreakpointByUrl]. *)
Definition breakpoint_set_reply (id url : string) (line : Z) : effect :=
  Respond (ReplySetBreakpointByUrl
             {| debuggerAgent.BreakpointId := id;
                debuggerAgent.Locations := [ {| debuggerAgent.ScriptId := url;
                                                debuggerAgent.LineNumber := line |} ] |}).

(** Decoding of lowercase hex: the value of a digit, and the bytes of a
    string of digit pairs. *)
Definition hex_value (c : ascii) : option Z :=
  let n := Z.of_N (N_of_ascii c) in
  if ((48 <=? n)%Z && (n <=? 57)%Z)%bool then Some (n - 48)%Z
  else if ((97 <=? n)%Z && (n <=? 102)%Z)%bool then Some (n - 87)%Z
  else None.

Fixpoint unhex (s : string) : option (list Z) :=
  match s with
  | EmptyString => Some []
  | String hi (String lo rest) =>
      match hex_value hi, hex_value lo, unhex rest with
      | Some h, Some l, Some bs => Some ((h * 16 + l)%Z :: bs)
      | _, _, _ => None
      end
  | String _ EmptyString => None
  end.

(** The regular expression [^a[0-9a-f]{40}$]. *)
Definition is_lower_hex (c : ascii) : bool :=
  let n := N_of_ascii c in
  ((48 <=? n)%N && (n <=? 57)%N) || ((97 <=? n)%N && (n <=? 102)%N).

Definition matches_a_hex40 (s : string) : bool :=
  match s with
  | String "a" rest =>
      (String.length rest =? 40)%nat && forallb is_lower_hex (list_ascii_of_string rest)
  | _ => false
  end.

(** Number of [CreateBreakpointAtLine] calls in a list of effects. *)
Definition is_create_call (e : effect) : bool :=
  match e with
  | ClientCall (CallCreateBreakpointAtLine _ _ _) => true
  | _ => false
  end.

Definition create_calls (es : list effect) : nat :=
  length (List.filter is_create_call es).

(** Stage of an effect within a pause snapshot: the default-agent Paused
    event, a per-target Paused event, or anything else. *)
Definition stage (e : effect) : nat :=
  match e with
  | FirePaused _ => 1
  | FirePausedOnTarget _ _ => 2
  | _ => 0
  end.

(** The scope an [EvaluateOnCallFrame] command is evaluated in, when both
    of its decimal fields parse. *)
Definition eval_scope (p : proxy) (command : debuggerAgent.EvaluateOnCallFrameCommand)
  : option dbgClient.EvalScope :=
  let routine :=
    if decide (debuggerAgent.EvalDestinationTargetID command = EmptyString) then Some (activeGoroutineID p)
    else GoInt.Atoi (debuggerAgent.EvalDestinationTargetID command) in
  match routine, GoInt.Atoi (debuggerAgent.EvalCallFrameId command) with
  | Some g, Some f => Some {| dbgClient.GoroutineID := g; dbgClient.Frame := f |}
  | _, _ => None
  end.

(** [produces T Q m]: from any world, [m] extends the trace by some effects
    [es] with [T es], and if it returns, its result satisfies [Q]. *)
Definition produces {C A} (T : list effect -> Prop) (Q : A -> Prop) (m : M C A) : Prop :=
  forall w, exists es,
    trace (final_world (m w)) = trace w ++ es
    /\ T es
    /\ match m w with Done a _ => Q a | Panicked _ _ => True end.

(** A trace predicate that can be composed sequentially with itself. *)
Record monoidal (T : list effect -> Prop) : Prop := {
  monoidal_nil : T [];
  monoidal_app : forall es1 es2, T es1 -> T es2 -> T (es1 ++ es2)
}.

(** [staged lo hi es]: the stages of [es] never decrease, start at [lo] or
    above and end at [hi] or below. *)
Fixpoint staged (lo hi : nat) (es : list effect) : Prop :=
  match es with
  | [] => (lo <= hi)%nat
  | e :: rest => (lo <= stage e)%nat /\ staged (stage e) hi rest
  end.

(** An effect that is not a Paused event. *)
Definition housekeeping (e : effect) : Prop := stage e = 0%nat.

(** A stack that the debugger client returned for [Stacktrace] with the
    arguments [sendPauseState] passes. *)
Definition backend_stack {C} (client_ops : dbgClient.Ops C)
    (stack : list dbgClient.Stackframe) : Prop :=
  exists c routine,
    stack = fst (snd (dbgClient.Stacktrace client_ops c routine 50 stack_LoadConfig)).

(** A Paused event, on the default agent or on a target, carries the
    translation of a stack returned by the debugger client. *)
Definition paused_from_backend {C} (client_ops : dbgClient.Ops C) (e : effect) : Prop :=
  match e with
  | FirePaused ev | FirePausedOnTarget _ ev =>
      exists stack,
        backend_stack client_ops stack
        /\ ev = {| debuggerAgent.Reason := "other";
                   debuggerAgent.CallFrames := sendFrames stack |}
  | _ => True
  end.

(** The stacks collected by a pause snapshot all come from the debugger
    client. *)
Definition stacks_from_backend {C} (client_ops : dbgClient.Ops C)
    (locals : option (list dbgClient.Stackframe) * list (Target * list dbgClient.Stackframe))
  : Prop :=
  (forall stack, fst locals = Some stack -> backend_stack client_ops stack)
  /\ Forall (fun entry => backend_stack client_ops (snd entry)) (snd locals).

(** The trace of a pause snapshot: staged, and every Paused event comes
    from the backend. *)
Definition snapshot_trace {C} (client_ops : dbgClient.Ops C) (es : list effect) : Prop :=
  staged 0 2 es /\ Forall (paused_from_backend client_ops) es.

(** [keeps_active m]: [m] always returns and leaves [activeGoroutineID]
    as it found it. *)
Definition keeps_active {C A} (m : M C A) : Prop :=
  forall w, exists a w',
    m w = Done a w' /\ activeGoroutineID (px w') = activeGoroutineID (px w).

(** The last dot-segment of a function name, as [Attach] computes it. *)
Definition short_name (name : string) : string :=
  GoStrings.last_part (GoStrings.Split name "."%char).

Fixpoint has_dot (s : string) : bool :=
  match s with
  | EmptyString => false
  | String c rest => Ascii.eqb c "."%char || has_dot rest
  end.

(** The per-target ScriptParsed event [Attach] fires for a file. *)
Definition script_parsed_on (target file : string) : effect :=
  FireScriptParsedOnTarget target
    {| debuggerAgent.ParsedScriptId := file;
       debuggerAgent.Url := file;
       debuggerAgent.ExecutionContextId := 1 |}.

(** ** A scripted debugger client

    A client whose answers are fixed by a script; used to run the handlers
    on concrete inputs. *)

Module Scripted.

Record script : Set := {
  state_answer : option dbgClient.State * option dbgClient.error;
  routines_answer : list dbgClient.Goroutine * option dbgClient.error;
  stack_answer : Z -> list dbgClient.Stackframe * option dbgClient.error;
  switch_error : option dbgClient.error;
  step_error : option dbgClient.error;
  continue_answer : option (option dbgClient.State);
  create_error : option dbgClient.error;
  clear_error : option dbgClient.error;
  eval_answer : option dbgClient.Var * option dbgClient.error
}.

Definition ops : dbgClient.Ops script :=
  {| dbgClient.GetState := fun c => (c, state_answer c);
     dbgClient.ListGoroutines := fun c => (c, routines_answer c);
     dbgClient.Stacktrace := fun c routine _ _ => (c, stack_answer c routine);
     dbgClient.SwitchGoroutine := fun c _ => (c, (None, switch_error c));
     dbgClient.Next := fun c => (c, (None, step_error c));
     dbgClient.Step := fun c => (c, (None, step_error c));
     dbgClient.StepOut := fun c => (c, (None, step_error c));
     dbgClient.Continue := fun c => (c, continue_answer c);
     dbgClient.CreateBreakpointAtLine := fun c _ _ _ => (c, create_error c);
     dbgClient.ClearBreakpointByName := fun c _ => (c, clear_error c);
     dbgClient.EvalVariable := fun c _ _ _ => (c, eval_answer c) |}.

Definition loc (file : string) (line : Z) (fn : string) : dbgClient.Location :=
  {| dbgClient.File := file; dbgClient.Line := line;
     dbgClient.Function_ := Some {| dbgClient.Name := fn |} |}.

Definition routine (id : Z) (file : string) (line : Z) (fn : string) : dbgClient.Goroutine :=
  {| dbgClient.ID := id; dbgClient.UserCurrentLoc := loc file line fn |}.

Definition frame (file : string) (line : Z) (fn : string) : dbgClient.Stackframe :=
  {| dbgClient.Location_ := loc file line fn |}.

Definition main_routine : dbgClient.Goroutine := routine 1 "/a/b.src" 11 "main.main".
Definition worker_routine : dbgClient.Goroutine := routine 7 "/a/w.src" 4 "main.worker".

(** A debuggee paused with two routines; every call succeeds. *)
Definition healthy : script :=
  {| state_answer := (Some {| dbgClient.SelectedGoroutine := Some main_routine |}, None);
     routines_answer := ([main_routine; worker_routine], None);
     stack_answer := fun id =>
       (if (id =? 1)%Z then [frame "/a/b.src" 11 "main.main"]
        else [frame "/a/w.src" 4 "main.worker"; frame "/a/b.src" 20 "main.main"], None);
     switch_error := None;
     step_error := None;
     continue_answer := Some (Some {| dbgClient.SelectedGoroutine := Some worker_routine |});
     create_error := None;
     clear_error := None;
     eval_answer := (Some {| dbgClient.VarName := "x"; dbgClient.VarValue := "1" |}, None) |}.

(** The same debuggee behind a client whose calls fail. *)
Definition failing (cause : string) : script :=
  {| state_answer := state_answer healthy;
     routines_answer := routines_answer healthy;
     stack_answer := stack_answer healthy;
     switch_error := Some cause;
     step_error := Some cause;
     continue_answer := continue_answer healthy;
     create_error := Some cause;
     clear_error := Some cause;
     eval_answer := (None, Some cause) |}.

(** A client that answers [GetState] with a nil state and no error. *)
Definition not_paused : script :=
  {| state_answer := (None, None);
     routines_answer := routines_answer healthy;
     stack_answer := stack_answer healthy;
     switch_error := None;
     step_error := None;
     continue_answer := continue_answer healthy;
     create_error := None;
     clear_error := None;
     eval_answer := eval_answer healthy |}.

(** A debuggee with no routine left. *)
Definition idle : script :=
  {| state_answer := (Some {| dbgClient.SelectedGoroutine := None |}, None);
     routines_answer := ([], None);
     stack_answer := fun _ => ([], None);
     switch_error := None;
     step_error := None;
     continue_answer := None;
     create_error := None;
     clear_error := None;
     eval_answer := eval_answer healthy |}.

(** A proxy that knows routine 5 and has it as its active routine. *)
Definition watching_5 (c : script) : World script :=
  mkWorld (set_activeGoroutineID 5
             (set_activeTargets (fun m => <[ 5 := {| ID := 5 |} ]> m) NewProxy))
          c [] 0.

Definition MakeRemoteObject (v : dbgClient.Var) : runtimeAgent.RemoteObject :=
  {| runtimeAgent.Type_ := "number"; runtimeAgent.ObjectId := Some (dbgClient.VarName v) |}.

(** Map iteration in the order of the underlying list. *)
Definition in_order (n : nat) (A : Type) (entries : list A) : list A := entries.

(** The world right after [NewProxy]. *)
Definition fresh (c : script) : World script := mkWorld NewProxy c [] 0.

Definition set_b_10 : debuggerAgent.SetBreakpointByUrlCommand :=
  {| debuggerAgent.CmdLineNumber := 10;
     debuggerAgent.CmdUrl := Some "/a/b.src";
     debuggerAgent.UrlRegex := None;
     debuggerAgent.ColumnNumber := None;
     debuggerAgent.Condition := None |}.

End Scripted.

(** ** Startup ([Start], [proxy.go] lines 117-156)

    [Start] runs on its own goroutine and starts three more with [go]; the
    embedding follows the goroutine of [Start] itself, from the moment the
    Enable command has arrived, and records each [go] statement as an
    effect.  Besides the effects of the handlers it answers the Enable
    command, waits for the debugger, lists the sources and fires
    ScriptParsed on the default agent. *)

Inductive goroutine : Set :=
| GoHandleNotifications
| GoCreateContext
| GoSendPauseState.

Inductive start_effect : Set :=
| FromProxy (e : effect)
| Go (g : goroutine)
| CallBlockUntilReady
| CallListSources
| FireScriptParsed (e : debuggerAgent.ScriptParsedEvent).

Inductive start_outcome (C : Type) : Type :=
| Started (p : proxy) (c : C) (es : list start_effect)
| StartPanicked (v : panic_value) (p : proxy) (c : C) (es : list start_effect).

Arguments Started {C}.
Arguments StartPanicked {C}.

Definition set_fileList (f : list string -> list string) (p : proxy) : proxy :=
  {| activeTargets := activeTargets p; fileList := f (fileList p);
     activeGoroutineID := activeGoroutineID p; breakpoints := breakpoints p |}.

Section Startup.

Context {C : Type}.

Variable client_ops : dbgClient.Ops C.

(** [p.client.BlockUntilReady()] and [p.client.ListSources()], the two
    client methods only [Start] calls. *)
Variable BlockUntilReady : C -> C.
Variable ListSources : C -> C * (list string * option dbgClient.error).

(** The loop over the sources (lines 145-155). *)
Fixpoint announceSources (sources : list string) (p : proxy) : proxy * list start_effect :=
  match sources with
  | [] => (p, [])
  | source :: rest =>
      if decide (source = "<autogenerated>") then announceSources rest p
      else
        let '(p', es) :=
          announceSources rest (set_fileList (fun files => files ++ [source]) p) in
        (p', FireScriptParsed {| debuggerAgent.ParsedScriptId := source;
                                 debuggerAgent.Url := source;
                                 debuggerAgent.ExecutionContextId := 1 |} :: es)
  end.

Definition Start (p : proxy) (c : C) : start_outcome C :=
  let enabled := [FromProxy (Respond ReplyEmpty);
                  Go GoHandleNotifications;
                  Go GoCreateContext;
                  CallBlockUntilReady;
                  FromProxy (ClientCall CallGetState)] in
  let '(c1, (state, err)) := dbgClient.GetState client_ops (BlockUntilReady c) in
  match err with
  | Some e => StartPanicked (PanicError e) p c1 enabled
  | None =>
      match state with
      | None =>
          StartPanicked (PanicString "invalid memory address or nil pointer dereference")
            p c1 enabled
      | Some st =>
          let p1 := match dbgClient.SelectedGoroutine st with
                    | Some g => set_activeGoroutineID (dbgClient.ID g) p
                    | None => p
                    end in
          let listed := enabled ++ [Go GoSendPauseState; CallListSources] in
          let '(c2, (sources, err)) := ListSources c1 in
          match err with
          | Some e => StartPanicked (PanicError e) p1 c2 listed
          | None =>
              let '(p2, es) := announceSources sources p1 in
              Started p2 c2 (listed ++ es)
          end
      end
  end.

End Startup.

(** ** The SystemInfo agent ([protocol/systeminfo/agent.go])

    The agent dispatches the commands of the SystemInfo domain.  The
    connection, the command type and the handler registered by the
    application are outside the file: a call of one of them is an effect,
    and the environment decides, from the effects so far, whether the call
    returns or panics, and with which kind of value. *)

Module systeminfo.

(** The dynamic type of a value passed to [panic], as the type switch of
    the deferred function tells them apart: [shared.Warning],
    [shared.Error], any other [error], anything else.  The value is not
    [nil]: [recover()] returns [nil] when there was no panic. *)
Inductive panic_data : Set :=
| Warning (msg : string)
| Error (msg : string)
| GoError (msg : string)
| Other (msg : string).

Section Agent.

(** [func(GetInfoCommand)], [GetInfoCommand] and [*json.RawMessage]. *)
Context {Handler Command Raw : Type}.

Inductive agent_effect : Type :=
| Println (line : string)
| PrintlnData (data : panic_data)
| Printf (text : string)
| ConnClose
| ConnSetupCommand (id : Z) (targetId : string) (data : Raw)
| ConnSendErrorResult (id : Z) (targetId : string) (code : shared.ErrorCode) (msg : string)
| OutRespondWithError (out : Command) (code : shared.ErrorCode) (msg : string)
| CallHandler (fn : Handler) (out : Command)
| MuxRLock
| MuxRUnlock
| MuxLock
| MuxUnlock.

(** [SystemInfoAgent]: the handler cell, [None] for a [nil] function. *)
Record SystemInfoAgent : Type := { GetInfo : option Handler }.

(** The command [conn.SetupCommand] leaves in [out]. *)
Variable SetupCommand : Z -> string -> Raw -> Command.

(** Whether a call outside the file panics, given the effects so far. *)
Variable panics : list agent_effect -> agent_effect -> option panic_data.

(** A computation of the agent: from the effects so far to the effects
    after it, with its result or the value it panicked with. *)
Definition A (X : Type) : Type := list agent_effect -> list agent_effect * (X + panic_data).

Definition a_ret {X} (x : X) : A X := fun log => (log, inl x).

Definition a_bind {X Y} (m : A X) (k : X -> A Y) : A Y :=
  fun log => match m log with
             | (log', inl x) => k x log'
             | (log', inr data) => (log', inr data)
             end.

(** An effect of the file itself: printing, locking. *)
Definition note (e : agent_effect) : A unit := fun log => (log ++ [e], inl tt).

(** A call outside the file. *)
Definition external (e : agent_effect) : A unit :=
  fun log => (log ++ [e], match panics log e with
                          | Some data => inr data
                          | None => inl tt
                          end).

Definition NewAgent : SystemInfoAgent := {| GetInfo := None |}.

Definition Name : string := "SystemInfo".

(** [GetInfoCommandFn.Load] *)
Definition Load (agent : SystemInfoAgent) : A (option Handler) :=
  a_bind (note MuxRLock) (fun _ =>
  a_bind (note MuxRUnlock) (fun _ =>
  a_ret (GetInfo agent))).

(** [GetInfoCommandFn.Store] *)
Definition Store (agent : SystemInfoAgent) (fn : option Handler)
  : A SystemInfoAgent :=
  a_bind (note MuxLock) (fun _ =>
  a_bind (note MuxUnlock) (fun _ =>
  a_ret {| GetInfo := fn |})).

(** [SetGetInfoHandler] *)
Definition SetGetInfoHandler (agent : SystemInfoAgent) (handler : option Handler)
  : A SystemInfoAgent :=
  Store agent handler.

(** The [switch] of [ProcessCommand]. *)
Definition dispatch (agent : SystemInfoAgent) (id : Z) (targetId funcName : string)
    (data : Raw) : A unit :=
  if String.eqb funcName "getInfo" then
    a_bind (external (ConnSetupCommand id targetId data)) (fun _ =>
    let out := SetupCommand id targetId data in
    a_bind (Load agent) (fun fn =>
    match fn with
    | None => external (OutRespondWithError out shared.ErrorCodeMethodNotFound EmptyString)
    | Some fn => external (CallHandler fn out)
    end))
  else
    a_bind (note (Printf ("Command " ++ funcName ++ " unknown" ++ String "010" EmptyString)))
      (fun _ =>
    external (ConnSendErrorResult id targetId shared.ErrorCodeMethodNotFound EmptyString)).

(** The deferred function of [ProcessCommand], applied to what
    [recover()] returns. *)
Definition recovered (data : option panic_data) : A unit :=
  match data with
  | None => a_ret tt
  | Some (Warning msg) => note (PrintlnData (Warning msg))
  | Some (Error msg) =>
      a_bind (note (Println "Closing websocket because of following Error:")) (fun _ =>
      a_bind (note (PrintlnData (Error msg))) (fun _ =>
      external ConnClose))
  | Some (GoError msg) =>
      a_bind (note (Println "Closing websocket because of following Error:")) (fun _ =>
      a_bind (note (PrintlnData (GoError msg))) (fun _ =>
      external ConnClose))
  | Some (Other msg) =>
      a_bind (note (Println
                "Should probably use shared.Warning or shared.Error instead to panic()"))
        (fun _ log => (log, inr (Other msg)))
  end.

Definition ProcessCommand (agent : SystemInfoAgent) (id : Z) (targetId funcName : string)
    (data : Raw) : A unit :=
  fun log => match dispatch agent id targetId funcName data log with
             | (log', inl _) => recovered None log'
             | (log', inr value) => recovered (Some value) log'
             end.

End Agent.

End systeminfo.

(** ** Vocabulary of the further properties *)

(** The value of a run of decimal digits read after [acc]. *)
Fixpoint uint_value (acc : Z) (u : Decimal.uint) : Z :=
  match u with
  | Decimal.Nil => acc
  | Decimal.D0 d => uint_value (acc * 10 + 0) d
  | Decimal.D1 d => uint_value (acc * 10 + 1) d
  | Decimal.D2 d => uint_value (acc * 10 + 2) d
  | Decimal.D3 d => uint_value (acc * 10 + 3) d
  | Decimal.D4 d => uint_value (acc * 10 + 4) d
  | Decimal.D5 d => uint_value (acc * 10 + 5) d
  | Decimal.D6 d => uint_value (acc * 10 + 6) d
  | Decimal.D7 d => uint_value (acc * 10 + 7) d
  | Decimal.D8 d => uint_value (acc * 10 + 8) d
  | Decimal.D9 d => uint_value (acc * 10 + 9) d
  end.

Fixpoint has_colon (s : string) : bool :=
  match s with
  | EmptyString => false
  | String c rest => Ascii.eqb c ":"%char || has_colon rest
  end.

(** The string that [setBreakpointAndRespond] hashes. *)
Definition fingerprint_input (url : string) (line : Z) : string :=
  (url ++ ":" ++ GoInt.fmt_d line)%string.

(** Every target sits under the key that is its own routine id, as
    [syncGoroutines] stores it ([p.activeTargets[id] = &Target{ID: id}]). *)
Definition keys_match (m : gmap Z Target) : Prop :=
  forall k t, m !! k = Some t -> ID t = k.

(** The TargetIds of the AttachedToTarget events of a trace, in order. *)
Definition attached_ids (es : list effect) : list string :=
  omap (fun e => match e with
                 | FireAttachedToTarget ev =>
                     Some (targetAgent.TargetId (targetAgent.TargetInfo_ ev))
                 | _ => None
                 end) es.

(** The TargetIds of the DetachedFromTarget events of a trace, in order. *)
Definition detached_ids (es : list effect) : list string :=
  omap (fun e => match e with
                 | FireDetachedFromTarget ev => Some (targetAgent.DetachedTargetId ev)
                 | _ => None
                 end) es.

(** The targets on which a trace fires Resumed, in order. *)
Definition resumed_ids (es : list effect) : list string :=
  omap (fun e => match e with FireResumedOnTarget id => Some id | _ => None end) es.

(** The targets on which a trace fires Paused, in order. *)
Definition paused_ids (es : list effect) : list string :=
  omap (fun e => match e with FirePausedOnTarget id _ => Some id | _ => None end) es.

(** The Paused events a trace fires on the default agent, in order. *)
Definition default_paused (es : list effect) : list debuggerAgent.PausedEvent :=
  omap (fun e => match e with FirePaused ev => Some ev | _ => None end) es.

(** The [Stacktrace] calls of a trace, in order. *)
Definition stack_calls (es : list effect) : list (Z * Z * dbgClient.LoadConfig) :=
  omap (fun e => match e with
                 | ClientCall (CallStacktrace routine depth cfg) => Some (routine, depth, cfg)
                 | _ => None
                 end) es.

(** The event [Destroy] fires for a target. *)
Definition detached_event (t : Target) : effect :=
  FireDetachedFromTarget {| targetAgent.DetachedTargetId := GoInt.fmt_d (ID t) |}.

(** The effects of announcing a target: AttachedToTarget and per-target
    ScriptParsed events. *)
Definition announcement (e : effect) : Prop :=
  match e with
  | FireAttachedToTarget _ | FireScriptParsedOnTarget _ _ => True
  | _ => False
  end.

(** [preserves f m]: [m] leaves the part [f] of the proxy state as it
    found it, whether it returns or panics. *)
Definition preserves {C A X} (f : proxy -> X) (m : M C A) : Prop :=
  forall w, f (px (final_world (m w))) = f (px w).

(** The effects a pause snapshot may have. *)
Definition snapshot_effect (e : effect) : Prop :=
  match e with
  | FireAttachedToTarget _ | FireDetachedFromTarget _ | FireScriptParsedOnTarget _ _
  | FirePaused _ | FirePausedOnTarget _ _ => True
  | ClientCall CallGetState | ClientCall CallListGoroutines
  | ClientCall (CallStacktrace _ _ _) => True
  | Lock activeTargetsMux | Unlock activeTargetsMux
  | RLock activeTargetsMux | RUnlock activeTargetsMux => True
  | _ => False
  end.

(** The effects a routine sync may have. *)
Definition sync_effect (e : effect) : Prop :=
  match e with
  | FireAttachedToTarget _ | FireDetachedFromTarget _ | FireScriptParsedOnTarget _ _ => True
  | ClientCall CallListGoroutines => True
  | Lock activeTargetsMux | Unlock activeTargetsMux => True
  | _ => False
  end.

(** The Paused event fired for a stack. *)
Definition paused_event (stack : list dbgClient.Stackframe) : debuggerAgent.PausedEvent :=
  {| debuggerAgent.Reason := "other"; debuggerAgent.CallFrames := sendFrames stack |}.

(** The effects of telling every target that the debuggee resumed. *)
Definition resume_effect (e : effect) : Prop :=
  match e with
  | RLock activeTargetsMux | RUnlock activeTargetsMux
  | FireResumed | FireResumedOnTarget _ => True
  | _ => False
  end.

(** What a step handler does from the call of its primitive on: the call
    fails and is answered with an internal-error, or it succeeds, is
    answered with an empty success, and a pause snapshot follows. *)
Definition step_tail (prim : client_call) (es : list effect) : Prop :=
  (exists cause,
      es = [ClientCall prim; RespondWithError shared.ErrorCodeInternalError cause])
  \/ (exists snapshot,
        es = ClientCall prim :: Respond ReplyEmpty :: snapshot
        /\ Forall snapshot_effect snapshot).

(** The routine a step or resume command addresses: the active routine
    when the DestinationTargetID is empty, the routine it names when it is
    a decimal number, none otherwise. *)
Definition destination_routine (p : proxy) (destination : string) : option Z :=
  if decide (destination = EmptyString) then Some (activeGoroutineID p)
  else GoInt.Atoi destination.

(** The ways a step handler can run.  If the destination does not parse,
    the command is answered with an internal-error.  Otherwise the
    debugger is switched to the routine addressed; if that fails the
    command is answered with the cause; if it succeeds every target is
    told that it resumed and the primitive is called. *)
Definition step_shape (prim : client_call) (routine : option Z) (es : list effect) : Prop :=
  match routine with
  | None =>
      es = [RespondWithError shared.ErrorCodeInternalError "Could not convert targetID to int"]
  | Some g =>
      (exists cause,
          es = [ClientCall (CallSwitchGoroutine g);
                RespondWithError shared.ErrorCodeInternalError cause])
      \/ (exists resume rest,
            es = ClientCall (CallSwitchGoroutine g) :: resume ++ rest
            /\ Forall resume_effect resume
            /\ step_tail prim rest)
  end.

(** The ways the resume handler can run: as a step handler up to the
    switch; then the command is answered at once, every target is told
    that it resumed, [Continue] is called, and a pause snapshot follows
    unless the debuggee has exited. *)
Definition continue_shape (routine : option Z) (es : list effect) : Prop :=
  match routine with
  | None =>
      es = [RespondWithError shared.ErrorCodeInternalError "Could not convert targetID to int"]
  | Some g =>
      (exists cause,
          es = [ClientCall (CallSwitchGoroutine g);
                RespondWithError shared.ErrorCodeInternalError cause])
      \/ (exists resume snapshot,
            es = ClientCall (CallSwitchGoroutine g) :: Respond ReplyEmpty
                 :: resume ++ ClientCall CallContinue :: snapshot
            /\ Forall resume_effect resume
            /\ Forall snapshot_effect snapshot)
  end.

(** The answers to the command in hand among the effects of a trace. *)
Definition answers (es : list effect) : list effect :=
  omap (fun e => match e with
                 | Respond _ | RespondWithError _ _ => Some e
                 | _ => None
                 end) es.

(** The ScriptParsed event of a source file. *)
Definition source_event (source : string) : debuggerAgent.ScriptParsedEvent :=
  {| debuggerAgent.ParsedScriptId := source;
     debuggerAgent.Url := source;
     debuggerAgent.ExecutionContextId := 1 |}.

(** The ScriptParsed events [Start] fires on the default agent, in order. *)
Definition scripts_parsed (es : list start_effect) : list debuggerAgent.ScriptParsedEvent :=
  omap (fun e => match e with FireScriptParsed ev => Some ev | _ => None end) es.

(** The ScriptParsed events a trace fires on targets, in order. *)
Definition scripts_parsed_on (es : list effect)
  : list (string * debuggerAgent.ScriptParsedEvent) :=
  omap (fun e => match e with
                 | FireScriptParsedOnTarget target ev => Some (target, ev)
                 | _ => None
                 end) es.

(** The sources [Start] keeps: all but the synthetic entry. *)
Definition kept_sources (sources : list string) : list string :=
  filter (fun source => source <> "<autogenerated>") sources.

(** The effects of [Start] up to its [GetState] call. *)
Definition start_prefix : list start_effect :=
  [FromProxy (Respond ReplyEmpty);
   Go GoHandleNotifications;
   Go GoCreateContext;
   CallBlockUntilReady;
   FromProxy (ClientCall CallGetState)].

(** The effects of the deferred function of [ProcessCommand]. *)
Definition recovery_effect {Handler Command Raw : Type}
    (e : @systeminfo.agent_effect Handler Command Raw) : Prop :=
  match e with
  | systeminfo.Println _ | systeminfo.PrintlnData _ | systeminfo.ConnClose => True
  | _ => False
  end.

(** A panic value that the deferred function of [ProcessCommand] does not
    pass on. *)
Definition contained (data : systeminfo.panic_data) : Prop :=
  match data with
  | systeminfo.Other _ => False
  | _ => True
  end.

(** In a trace, every success response comes after every call of [prim]. *)
Definition answered_after (prim : client_call) (es : list effect) : Prop :=
  forall i j,
    es !! i = Some (ClientCall prim) -> es !! j = Some (Respond ReplyEmpty) -> (i < j)%nat.

(** In a trace, every Paused event comes after every success response. *)
Definition paused_after_answer (es : list effect) : Prop :=
  forall j k e,
    es !! j = Some (Respond ReplyEmpty) -> es !! k = Some e -> stage e <> 0%nat -> (j < k)%nat.

(** * Facts *)

(** ** Integers, digests and hex *)

Lemma wrap64_in_range (z : Z) : GoInt.in_int64 z -> GoInt.wrap64 z = z.
Proof.
  unfold GoInt.in_int64, GoInt.min_int64, GoInt.max_int64, GoInt.wrap64.
  intros Hz. rewrite Z.mod_small; lia.
Qed.

Lemma add_one_exact (line : Z) :
  GoInt.in_int64 line -> line < GoInt.max_int64 -> GoInt.add line 1 = line + 1.
Proof.
  intros Hr Hlt. unfold GoInt.add. apply wrap64_in_range.
  unfold GoInt.in_int64, GoInt.min_int64, GoInt.max_int64 in *. lia.
Qed.

Lemma sub_one_exact (line : Z) :
  GoInt.in_int64 line -> GoInt.min_int64 < line -> GoInt.sub line 1 = line - 1.
Proof.
  intros Hr Hlt. unfold GoInt.sub. apply wrap64_in_range.
  unfold GoInt.in_int64, GoInt.min_int64, GoInt.max_int64 in *. lia.
Qed.

Lemma be_bytes_length (n : nat) (x : Z) : length (SHA1.be_bytes n x) = n.
Proof.
  unfold SHA1.be_bytes.
  rewrite List.length_map, List.length_rev, List.length_seq. reflexivity.
Qed.

Lemma be_bytes_range (n : nat) (x : Z) :
  Forall (fun b => 0 <= b < 256) (SHA1.be_bytes n x).
Proof.
  unfold SHA1.be_bytes. apply Forall_forall. intros b Hb.
  apply list_elem_of_In, List.in_map_iff in Hb. destruct Hb as [i [<- _]].
  apply Z.mod_pos_bound. lia.
Qed.

Lemma digest_length (st : SHA1.state) : length (SHA1.digest st) = 20%nat.
Proof.
  destruct st as [[[[h0 h1] h2] h3] h4]. unfold SHA1.digest.
  rewrite !length_app, !be_bytes_length. reflexivity.
Qed.

Lemma digest_range (st : SHA1.state) :
  Forall (fun b => 0 <= b < 256) (SHA1.digest st).
Proof.
  destruct st as [[[[h0 h1] h2] h3] h4]. unfold SHA1.digest.
  repeat (apply Forall_app; split); apply be_bytes_range.
Qed.

Lemma Sum_length (data : list Z) : length (SHA1.Sum data) = 20%nat.
Proof. unfold SHA1.Sum. apply digest_length. Qed.

Lemma Sum_range (data : list Z) : Forall (fun b => 0 <= b < 256) (SHA1.Sum data).
Proof. unfold SHA1.Sum. apply digest_range. Qed.

Lemma hex_digit_lower (n : Z) :
  0 <= n < 16 -> is_lower_hex (GoFmt.hex_digit n) = true.
Proof.
intros Hn. unfold GoFmt.hex_digit.
assert (Hk : (Z.to_nat n < 16)%nat) by lia.
revert Hk. generalize (Z.to_nat n) as k. intros k Hk.
do 16 (destruct k as [| k]; [reflexivity |]).
lia.
Qed.

Lemma hex_length (bs : list Z) : String.length (GoFmt.hex bs) = (2 * length bs)%nat.
Proof.
  induction bs as [| b bs IH]; [reflexivity |].
  change (GoFmt.hex (b :: bs))
    with (String (GoFmt.hex_digit (b / 16)) (String (GoFmt.hex_digit (b mod 16)) (GoFmt.hex bs))).
  cbn [String.length length]. rewrite IH. lia.
Qed.

Lemma hex_lower (bs : list Z) :
  Forall (fun b => 0 <= b < 256) bs ->
  forallb is_lower_hex (list_ascii_of_string (GoFmt.hex bs)) = true.
Proof.
  induction 1 as [| b bs Hb _ IH]; [reflexivity |].
  change (GoFmt.hex (b :: bs))
    with (String (GoFmt.hex_digit (b / 16)) (String (GoFmt.hex_digit (b mod 16)) (GoFmt.hex bs))).
  cbn [list_ascii_of_string forallb].
  rewrite IH, !hex_digit_lower; [reflexivity | |].
  - apply Z.mod_pos_bound. lia.
  - split; [apply Z.div_pos; lia | apply Z.div_lt_upper_bound; lia].
Qed.

Lemma hex_value_digit (n : Z) : 0 <= n < 16 -> hex_value (GoFmt.hex_digit n) = Some n.
Proof.
intros Hn. rewrite <- (Z2Nat.id n) at 2 by lia. unfold GoFmt.hex_digit.
assert (Hk : (Z.to_nat n < 16)%nat) by lia.
revert Hk. generalize (Z.to_nat n) as k. intros k Hk.
do 16 (destruct k as [| k]; [reflexivity |]).
lia.
Qed.

(** [%x] is invertible: the digits decode to the bytes they were made
    from. *)
Lemma unhex_hex (bs : list Z) :
  Forall (fun b => 0 <= b < 256) bs -> unhex (GoFmt.hex bs) = Some bs.
Proof.
induction 1 as [| b bs Hb _ IH]; [reflexivity |].
change (GoFmt.hex (b :: bs))
  with (String (GoFmt.hex_digit (b / 16)) (String (GoFmt.hex_digit (b mod 16)) (GoFmt.hex bs))).
cbn [unhex]. rewrite IH, !hex_value_digit.
- f_equal. f_equal. pose proof (Z.div_mod b 16). lia.
- apply Z.mod_pos_bound. lia.
- split; [apply Z.div_pos; lia | apply Z.div_lt_upper_bound; lia].
Qed.

Lemma breakpointKey_form (url : string) (line : Z) :
  matches_a_hex40 (breakpointKey url line) = true.
Proof.
  unfold breakpointKey.
  change ("a" ++ ?s)%string with (String "a" s).
  unfold matches_a_hex40.
  rewrite hex_length, Sum_length, hex_lower by apply Sum_range.
  reflexivity.
Qed.

(** ** Running the monad *)

Lemma emitted_extend {C A} (w w' : World C) (a : A) (es : list effect) :
  trace w' = trace w ++ es -> emitted w (Done a w') = es.
Proof. intros H. unfold emitted. simpl. rewrite H. apply drop_app_length. Qed.

Lemma emitted_extend_panic {C A} (w w' : World C) (v : panic_value) (es : list effect) :
  trace w' = trace w ++ es -> emitted w (@Panicked C A v w') = es.
Proof. intros H. unfold emitted. simpl. rewrite H. apply drop_app_length. Qed.

Lemma emitted_mk {C A} (w : World C) (a : A) (p : proxy) (c : C) (es : list effect) (n : nat) :
  emitted w (Done a (mkWorld p c (trace w ++ es) n)) = es.
Proof. apply emitted_extend. reflexivity. Qed.

Lemma emitted_mk_panic {C A} (w : World C) (v : panic_value) (p : proxy) (c : C)
    (es : list effect) (n : nat) :
  emitted w (@Panicked C A v (mkWorld p c (trace w ++ es) n)) = es.
Proof. apply emitted_extend_panic. reflexivity. Qed.

Lemma bind_Done {C A B} (m : M C A) (k : A -> M C B) (w w' : World C) (a : A) :
  m w = Done a w' -> bind m k w = k a w'.
Proof. intros H. unfold bind. rewrite H. reflexivity. Qed.

Lemma bind_Panicked {C A B} (m : M C A) (k : A -> M C B) (w w' : World C) (v : panic_value) :
  m w = Panicked v w' -> bind m k w = Panicked v w'.
Proof. intros H. unfold bind. rewrite H. reflexivity. Qed.

Ltac run_monad :=
  unfold bind, ret, panic, emit, call, get_proxy, modify_proxy, with_defer; simpl.

(** ** Breakpoints *)

Section BreakpointFacts.

Context {C : Type}.
Variable client_ops : dbgClient.Ops C.

(** What [setBreakpointAndRespond] does with an accepted command, case by
    case. *)
Lemma setBreakpoint_accepted (command : debuggerAgent.SetBreakpointByUrlCommand)
    (url : string) (w : World C) :
  accepted command url ->
  let line := debuggerAgent.CmdLineNumber command in
  let key := breakpointKey url line in
  let create := CallCreateBreakpointAtLine url (GoInt.add line 1) key in
  setBreakpointAndRespond client_ops command w =
    if decide (key ∈ breakpoints (px w)) then
      Done tt (add_trace [Lock breakpointsMux;
                          breakpoint_set_reply key url line;
                          Unlock breakpointsMux] w)
    else
      let '(c', err) :=
        dbgClient.CreateBreakpointAtLine client_ops (client w) url (GoInt.add line 1) key in
      match err with
      | Some e =>
          Done tt (mkWorld (set_breakpoints (fun s => s ∖ {[ key ]}) (px w)) c'
                     (trace w ++ [Lock breakpointsMux;
                                  ClientCall create;
                                  RespondWithError shared.ErrorCodeInternalError e;
                                  Unlock breakpointsMux])
                     (ranges w))
      | None =>
          Done tt (mkWorld (set_breakpoints (fun s => {[ key ]} ∪ s) (px w)) c'
                     (trace w ++ [Lock breakpointsMux;
                                  ClientCall create;
                                  breakpoint_set_reply key url line;
                                  Unlock breakpointsMux])
                     (ranges w))
      end.
Proof.
intros (Hre & Hcol & Hcond & Hurl). simpl.
unfold setBreakpointAndRespond. rewrite Hre, Hurl.
assert (Hc : match debuggerAgent.ColumnNumber command with
             | Some col => negb (col =? 0)%Z | None => false end = false)
  by (destruct Hcol as [-> | ->]; reflexivity).
assert (Hd : match debuggerAgent.Condition command with
             | Some cond => negb (String.eqb cond EmptyString) | None => false end = false)
  by (destruct Hcond as [-> | ->]; reflexivity).
rewrite Hc, Hd. run_monad.
destruct (decide (breakpointKey url (debuggerAgent.CmdLineNumber command)
                    ∈ breakpoints (px w))) as [Hin | Hout].
- unfold sendBreakpointSet. rewrite Hurl. run_monad.
  unfold add_trace. rewrite <- !app_assoc. reflexivity.
- cbn [px client trace ranges].
  destruct (dbgClient.CreateBreakpointAtLine client_ops (client w) url
              (GoInt.add (debuggerAgent.CmdLineNumber command) 1)
              (breakpointKey url (debuggerAgent.CmdLineNumber command)))
    as [c' [e |]]; simpl.
  + rewrite <- !app_assoc. reflexivity.
  + unfold sendBreakpointSet. rewrite Hurl. run_monad.
    rewrite <- !app_assoc. reflexivity.
Qed.

(** A rejected command is answered with invalid-params and nothing else
    happens. *)
Lemma setBreakpoint_rejected (command : debuggerAgent.SetBreakpointByUrlCommand)
    (w : World C) :
  (forall url, ~ accepted command url) ->
  exists msg,
    setBreakpointAndRespond client_ops command w =
      Done tt (add_trace [RespondWithError shared.ErrorCodeInvalidParams msg] w).
Proof.
intros Hrej. unfold setBreakpointAndRespond.
destruct (debuggerAgent.UrlRegex command) as [re |] eqn:Hre; [eauto |].
destruct (debuggerAgent.ColumnNumber command) as [col |] eqn:Hcol.
- destruct (Z.eqb_spec col 0) as [-> | Hne]; simpl; [| eauto].
  destruct (debuggerAgent.Condition command) as [cond |] eqn:Hcond.
  + destruct (String.eqb_spec cond EmptyString) as [-> | Hne]; simpl; [| eauto].
    destruct (debuggerAgent.CmdUrl command) as [url |] eqn:Hurl; [| eauto].
    exfalso. apply (Hrej url). unfold accepted. auto.
  + destruct (debuggerAgent.CmdUrl command) as [url |] eqn:Hurl; [| eauto].
    exfalso. apply (Hrej url). unfold accepted. auto.
- destruct (debuggerAgent.Condition command) as [cond |] eqn:Hcond.
  + destruct (String.eqb_spec cond EmptyString) as [-> | Hne]; simpl; [| eauto].
    destruct (debuggerAgent.CmdUrl command) as [url |] eqn:Hurl; [| eauto].
    exfalso. apply (Hrej url). unfold accepted. auto.
  + destruct (debuggerAgent.CmdUrl command) as [url |] eqn:Hurl; [| eauto].
    exfalso. apply (Hrej url). unfold accepted. auto.
Qed.

Lemma accepted_or_rejected (command : debuggerAgent.SetBreakpointByUrlCommand) :
  (exists url, accepted command url) \/ (forall url, ~ accepted command url).
Proof.
unfold accepted.
destruct (debuggerAgent.UrlRegex command) as [re |];
  [right; intros url (H & _); discriminate |].
destruct (debuggerAgent.CmdUrl command) as [url |];
  [| right; intros url (_ & _ & _ & H); discriminate].
destruct (debuggerAgent.ColumnNumber command) as [col |].
- destruct (decide (col = 0)) as [-> | Hne].
  + destruct (debuggerAgent.Condition command) as [cond |].
    * destruct (decide (cond = EmptyString)) as [-> | Hc].
      -- left. exists url. auto.
      -- right. intros u (_ & _ & [H | H] & _); congruence.
    * left. exists url. auto.
  + right. intros u (_ & [H | H] & _); congruence.
- destruct (debuggerAgent.Condition command) as [cond |].
  + destruct (decide (cond = EmptyString)) as [-> | Hc].
    * left. exists url. auto.
    * right. intros u (_ & _ & [H | H] & _); congruence.
  + left. exists url. auto.
Qed.

(** The success replies among the effects of one [setBreakpointAndRespond]
    carry the key of the command. *)
Lemma setBreakpoint_reply_key (command : debuggerAgent.SetBreakpointByUrlCommand)
    (url : string) (w : World C) (r : debuggerAgent.SetBreakpointByUrlReturn) :
  accepted command url ->
  In (Respond (ReplySetBreakpointByUrl r))
     (emitted w (setBreakpointAndRespond client_ops command w)) ->
  debuggerAgent.BreakpointId r = breakpointKey url (debuggerAgent.CmdLineNumber command).
Proof.
intros Hacc Hin.
rewrite (setBreakpoint_accepted command url w Hacc) in Hin. simpl in Hin.
destruct (decide _) as [Hmem | Hmem].
- unfold add_trace in Hin. rewrite emitted_mk in Hin.
  destruct Hin as [Heq | [Heq | [Heq | []]]]; try discriminate.
  inversion Heq. reflexivity.
- destruct (dbgClient.CreateBreakpointAtLine _ _ _ _ _) as [c' [e |]];
    rewrite emitted_mk in Hin;
    destruct Hin as [Heq | [Heq | [Heq | [Heq | []]]]]; try discriminate.
  inversion Heq. reflexivity.
Qed.

(** The [CreateBreakpointAtLine] calls among the effects of one
    [setBreakpointAndRespond] carry the url and the incremented line of the
    command. *)
Lemma setBreakpoint_call_line (command : debuggerAgent.SetBreakpointByUrlCommand)
    (w : World C) (file : string) (line : Z) (name : string) :
  In (ClientCall (CallCreateBreakpointAtLine file line name))
     (emitted w (setBreakpointAndRespond client_ops command w)) ->
  debuggerAgent.CmdUrl command = Some file
  /\ line = GoInt.add (debuggerAgent.CmdLineNumber command) 1.
Proof.
intros Hin.
destruct (accepted_or_rejected command) as [[url Hacc] | Hrej].
- rewrite (setBreakpoint_accepted command url w Hacc) in Hin. simpl in Hin.
  destruct (decide _) as [Hmem | Hmem].
  + unfold add_trace in Hin. rewrite emitted_mk in Hin.
    destruct Hin as [Heq | [Heq | [Heq | []]]]; discriminate.
  + destruct (dbgClient.CreateBreakpointAtLine _ _ _ _ _) as [c' [e |]];
      rewrite emitted_mk in Hin;
      (destruct Hin as [Heq | [Heq | [Heq | [Heq | []]]]]; try discriminate);
      injection Heq as <- <- <-; (split; [apply Hacc | reflexivity]).
- destruct (setBreakpoint_rejected command w Hrej) as [msg Hrun].
  rewrite Hrun in Hin. unfold add_trace in Hin. rewrite emitted_mk in Hin.
  destruct Hin as [Heq | []]. discriminate.
Qed.

(** C3. Fingerprint form: every BreakpointId that [SetBreakpointByUrl]
    returns is the character "a" followed by the lowercase hex encoding of
    SHA1(url ++ ":" ++ decimal lineNumber) (digits that decode back to the
    digest), and therefore matches [^a[0-9a-f]{40}$]. *)
Theorem fingerprint_form (command : debuggerAgent.SetBreakpointByUrlCommand)
    (w : World C) (r : debuggerAgent.SetBreakpointByUrlReturn) :
  In (Respond (ReplySetBreakpointByUrl r))
     (emitted w (setBreakpointAndRespond client_ops command w)) ->
  exists url digits,
    debuggerAgent.CmdUrl command = Some url
    /\ debuggerAgent.BreakpointId r = String "a" digits
    /\ digits = GoFmt.hex (SHA1.Sum (GoStrings.bytes_of
                   (url ++ ":" ++ GoInt.fmt_d (debuggerAgent.CmdLineNumber command))%string))
    /\ unhex digits = Some (SHA1.Sum (GoStrings.bytes_of
                   (url ++ ":" ++ GoInt.fmt_d (debuggerAgent.CmdLineNumber command))%string))
    /\ matches_a_hex40 (debuggerAgent.BreakpointId r) = true.
Proof.
intros Hin.
destruct (accepted_or_rejected command) as [[url Hacc] | Hrej].
- exists url. eexists. split; [apply Hacc |].
  rewrite (setBreakpoint_reply_key command url w r Hacc Hin).
  split; [reflexivity |]. split; [reflexivity |].
  split; [apply unhex_hex, Sum_range | apply breakpointKey_form].
- destruct (setBreakpoint_rejected command w Hrej) as [msg Hrun].
  rewrite Hrun in Hin. unfold add_trace in Hin. rewrite emitted_mk in Hin.
  destruct Hin as [Heq | []]. discriminate.
Qed.

(** C6. Breakpoint-set atomicity: for an accepted command whose
    fingerprint is not yet recorded, a failing [CreateBreakpointAtLine]
    is answered with InternalError and leaves the breakpoint set exactly
    as it was, without the fingerprint; a successful one records the
    fingerprint and is answered with it and the location
    [buildLocation url line].  So the fingerprint is a member afterwards
    exactly when the debugger acknowledged the breakpoint.  All of it
    happens with [breakpointsMux] held. *)
Theorem breakpoint_set_atomicity (command : debuggerAgent.SetBreakpointByUrlCommand)
    (url : string) (w : World C) :
  let line := debuggerAgent.CmdLineNumber command in
  let key := breakpointKey url line in
  let o := setBreakpointAndRespond client_ops command w in
  let err := snd (dbgClient.CreateBreakpointAtLine client_ops (client w) url
                    (GoInt.add line 1) key) in
  accepted command url ->
  key ∉ breakpoints (px w) ->
  proxy_lives o
  /\ match err with
     | Some cause =>
         emitted w o =
           [Lock breakpointsMux;
            ClientCall (CallCreateBreakpointAtLine url (GoInt.add line 1) key);
            RespondWithError shared.ErrorCodeInternalError cause;
            Unlock breakpointsMux]
         /\ breakpoints (px (final_world o)) = breakpoints (px w)
         /\ key ∉ breakpoints (px (final_world o))
     | None =>
         emitted w o =
           [Lock breakpointsMux;
            ClientCall (CallCreateBreakpointAtLine url (GoInt.add line 1) key);
            Respond (ReplySetBreakpointByUrl
                       {| debuggerAgent.BreakpointId := key;
                          debuggerAgent.Locations := [buildLocation url line] |});
            Unlock breakpointsMux]
         /\ breakpoints (px (final_world o)) = {[ key ]} ∪ breakpoints (px w)
         /\ key ∈ breakpoints (px (final_world o))
     end
  /\ (key ∈ breakpoints (px (final_world o)) <-> err = None).
Proof.
intros line key o err Hacc Hfresh. subst o err.
rewrite (setBreakpoint_accepted command url w Hacc). simpl.
fold line. fold key.
destruct (decide (key ∈ breakpoints (px w))) as [Hmem | _]; [contradiction |].
destruct (dbgClient.CreateBreakpointAtLine client_ops (client w) url
            (GoInt.add line 1) key) as [c' [cause |]]; simpl.
- split; [exact I |].
  assert (Hsame : breakpoints (px w) ∖ {[ key ]} = breakpoints (px w)).
  { apply set_eq. intros x. rewrite elem_of_difference, elem_of_singleton.
    split; [tauto |]. intros Hx. split; [exact Hx | intros ->; contradiction]. }
  rewrite Hsame.
  split; [split; [apply emitted_mk | split; [reflexivity | exact Hfresh]] |].
  split; [intros Hmem; contradiction | discriminate].
- split; [exact I |].
  assert (Hmem : key ∈ {[ key ]} ∪ breakpoints (px w)) by set_solver.
  split; [split; [apply emitted_mk | split; [reflexivity | exact Hmem]] |].
  split; [reflexivity | intros _; exact Hmem].
Qed.

(** C2. Breakpoint idempotence: setting the same accepted (url, line)
    twice in a row, starting without that breakpoint and with a debugger
    that acknowledges the creation, yields two success responses with the
    same BreakpointId and the same single location, and exactly one
    [CreateBreakpointAtLine] call over the two invocations. *)
Theorem breakpoint_idempotence (command : debuggerAgent.SetBreakpointByUrlCommand)
    (url : string) (w : World C) :
  let line := debuggerAgent.CmdLineNumber command in
  let key := breakpointKey url line in
  let success :=
    Respond (ReplySetBreakpointByUrl
               {| debuggerAgent.BreakpointId := key;
                  debuggerAgent.Locations := [buildLocation url line] |}) in
  accepted command url ->
  key ∉ breakpoints (px w) ->
  snd (dbgClient.CreateBreakpointAtLine client_ops (client w) url (GoInt.add line 1) key)
    = None ->
  exists w1 w2,
    setBreakpointAndRespond client_ops command w = Done tt w1
    /\ setBreakpointAndRespond client_ops command w1 = Done tt w2
    /\ emitted w (Done tt w1) =
         [Lock breakpointsMux;
          ClientCall (CallCreateBreakpointAtLine url (GoInt.add line 1) key);
          success;
          Unlock breakpointsMux]
    /\ emitted w1 (Done tt w2) =
         [Lock breakpointsMux; success; Unlock breakpointsMux]
    /\ create_calls (emitted w (Done tt w2)) = 1%nat.
Proof.
intros line key success Hacc Hfresh Hok.
pose proof (setBreakpoint_accepted command url w Hacc) as Hfirst.
simpl in Hfirst. fold line in Hfirst. fold key in Hfirst.
destruct (decide (key ∈ breakpoints (px w))) as [Hmem | _]; [contradiction |].
destruct (dbgClient.CreateBreakpointAtLine client_ops (client w) url
            (GoInt.add line 1) key) as [c' err].
simpl in Hok. subst err.
eexists. eexists.
split; [exact Hfirst |].
match type of Hfirst with
| _ = Done tt ?w1 =>
    pose proof (setBreakpoint_accepted command url w1 Hacc) as Hsecond
end.
simpl in Hsecond. fold line in Hsecond. fold key in Hsecond.
destruct (decide (key ∈ {[ key ]} ∪ breakpoints (px w))) as [_ | Hno];
  [| exfalso; apply Hno; set_solver].
split; [exact Hsecond |].
split; [apply emitted_mk |].
split; [unfold add_trace; apply emitted_extend; reflexivity |].
unfold add_trace. simpl. rewrite <- app_assoc, emitted_mk.
reflexivity.
Qed.

End BreakpointFacts.

(** ** Step, resume, clear and evaluate handlers *)

Section HandlerFacts.

Context {C : Type}.
Variable client_ops : dbgClient.Ops C.
Variable MakeRemoteObject : dbgClient.Var -> runtimeAgent.RemoteObject.
Variable range_order : nat -> forall A : Type, list A -> list A.

(** When [selectDestination] returns it has touched neither the trace nor
    the client. *)
Lemma selectDestination_Done (command : debuggerAgent.StepCommand) (w w1 : World C) :
  selectDestination command w = Done tt w1 ->
  trace w1 = trace w /\ client w1 = client w /\ ranges w1 = ranges w.
Proof.
  unfold selectDestination.
  destruct (decide (debuggerAgent.DestinationTargetID command = EmptyString)) as [_ | _].
  - intros [= <-]. auto.
  - destruct (GoInt.Atoi (debuggerAgent.DestinationTargetID command)) as [targetID |].
    + intros [= <-]. auto.
    + run_monad. discriminate.
Qed.

Lemma switchToActive_fails (w : World C) (cause : dbgClient.error) :
  snd (snd (dbgClient.SwitchGoroutine client_ops (client w) (activeGoroutineID (px w))))
    = Some cause ->
  exists c',
    switchToActive client_ops w =
      Panicked (PanicError cause)
        (mkWorld (px w) c'
           (trace w ++ [ClientCall (CallSwitchGoroutine (activeGoroutineID (px w)));
                        RespondWithError shared.ErrorCodeInternalError cause])
           (ranges w)).
Proof.
  intros Hfail. unfold switchToActive. run_monad.
  destruct (dbgClient.SwitchGoroutine client_ops (client w) (activeGoroutineID (px w)))
    as [c' [st err]].
  simpl in *. subst err. exists c'. simpl. rewrite <- app_assoc. reflexivity.
Qed.

(** A failing [SwitchGoroutine] in a step handler: internal-error, then
    panic. *)
Lemma step_switch_failure prim method (command : debuggerAgent.StepCommand)
    (w w1 : World C) (cause : dbgClient.error) :
  selectDestination command w = Done tt w1 ->
  snd (snd (dbgClient.SwitchGoroutine client_ops (client w1) (activeGoroutineID (px w1))))
    = Some cause ->
  let o := stepAndRespond client_ops range_order prim method command w in
  emitted w o = [ClientCall (CallSwitchGoroutine (activeGoroutineID (px w1)));
                 RespondWithError shared.ErrorCodeInternalError cause]
  /\ ~ proxy_lives o.
Proof.
  intros Hsel Hfail. simpl.
  destruct (switchToActive_fails w1 cause Hfail) as [c' Hsw].
  destruct (selectDestination_Done command w w1 Hsel) as (Htr & _ & _).
  unfold stepAndRespond.
  rewrite (bind_Done _ _ _ _ _ Hsel), (bind_Panicked _ _ _ _ _ Hsw), Htr.
  split; [apply emitted_mk_panic | simpl; tauto].
Qed.

Lemma continue_switch_failure (command : debuggerAgent.StepCommand)
    (w w1 : World C) (cause : dbgClient.error) :
  selectDestination command w = Done tt w1 ->
  snd (snd (dbgClient.SwitchGoroutine client_ops (client w1) (activeGoroutineID (px w1))))
    = Some cause ->
  let o := continueAndRespond client_ops range_order command w in
  emitted w o = [ClientCall (CallSwitchGoroutine (activeGoroutineID (px w1)));
                 RespondWithError shared.ErrorCodeInternalError cause]
  /\ ~ proxy_lives o.
Proof.
  intros Hsel Hfail. simpl.
  destruct (switchToActive_fails w1 cause Hfail) as [c' Hsw].
  destruct (selectDestination_Done command w w1 Hsel) as (Htr & _ & _).
  unfold continueAndRespond.
  rewrite (bind_Done _ _ _ _ _ Hsel), (bind_Panicked _ _ _ _ _ Hsw), Htr.
  split; [apply emitted_mk_panic | simpl; tauto].
Qed.

(** A failing step primitive: internal-error, then panic. *)
Lemma step_primitive_failure prim method (command : debuggerAgent.StepCommand)
    (w w1 w2 w3 : World C) (cause : dbgClient.error) :
  selectDestination command w = Done tt w1 ->
  switchToActive client_ops w1 = Done tt w2 ->
  sendResumeState range_order w2 = Done tt w3 ->
  snd (snd (method (client w3))) = Some cause ->
  let o := stepAndRespond client_ops range_order prim method command w in
  trace (final_world o) =
    trace w3 ++ [ClientCall prim; RespondWithError shared.ErrorCodeInternalError cause]
  /\ ~ proxy_lives o.
Proof.
  intros Hsel Hsw Hres Hfail. simpl.
  unfold stepAndRespond.
  rewrite (bind_Done _ _ _ _ _ Hsel), (bind_Done _ _ _ _ _ Hsw),
          (bind_Done _ _ _ _ _ Hres).
  run_monad. destruct (method (client w3)) as [c' [st err]].
  simpl in *. subst err. simpl. rewrite <- app_assoc.
  split; [reflexivity | tauto].
Qed.

Lemma removeBreakpoint_run (command : debuggerAgent.RemoveBreakpointCommand) (w : World C) :
  let id := debuggerAgent.RemoveBreakpointId command in
  let o := removeBreakpointAndRespond client_ops command w in
  proxy_lives o
  /\ breakpoints (px (final_world o)) = breakpoints (px w) ∖ {[ id ]}
  /\ emitted w o =
       [Lock breakpointsMux;
        Unlock breakpointsMux;
        ClientCall (CallClearBreakpointByName id);
        match snd (dbgClient.ClearBreakpointByName client_ops (client w) id) with
        | Some cause => RespondWithError shared.ErrorCodeInternalError cause
        | None => Respond ReplyEmpty
        end].
Proof.
  simpl. unfold removeBreakpointAndRespond. run_monad.
  destruct (dbgClient.ClearBreakpointByName client_ops (client w)
              (debuggerAgent.RemoveBreakpointId command)) as [c' [cause |]]; simpl;
    (split; [exact I |]); (split; [reflexivity |]);
    rewrite <- !app_assoc; apply emitted_mk.
Qed.

(** C5. Evaluator failure becomes data: when [EvalVariable] fails, the
    command is answered with a success response carrying ExceptionDetails
    with ExceptionId 1, the error's text, LineNumber -1 and ColumnNumber
    -1, and a Result that is left unset; when it succeeds with a variable,
    the response carries the Runtime collaborator's RemoteObject as Result.
    (A nil variable with a nil error is outside the evaluator's contract:
    dereferencing it panics.) *)
Theorem evaluator_failure_is_data (command : debuggerAgent.EvaluateOnCallFrameCommand)
    (w : World C) (scope : dbgClient.EvalScope) :
  let expr := debuggerAgent.Expression command in
  let o := evaluateOnGoroutineAndRespond client_ops MakeRemoteObject command w in
  eval_scope (px w) command = Some scope ->
  match snd (dbgClient.EvalVariable client_ops (client w) scope expr eval_LoadConfig) with
  | (_, Some cause) =>
      proxy_lives o
      /\ emitted w o =
           [ClientCall (CallEvalVariable scope expr eval_LoadConfig);
            Println ("Error: " ++ cause)%string;
            Respond (ReplyEvaluateOnCallFrame
                       {| debuggerAgent.Result := runtimeAgent.RemoteObject_zero;
                          debuggerAgent.ExceptionDetails :=
                            Some {| runtimeAgent.ExceptionId := 1;
                                    runtimeAgent.Text := cause;
                                    runtimeAgent.LineNumber := -1;
                                    runtimeAgent.ColumnNumber := -1 |} |})]
  | (Some variable, None) =>
      proxy_lives o
      /\ emitted w o =
           [ClientCall (CallEvalVariable scope expr eval_LoadConfig);
            Respond (ReplyEvaluateOnCallFrame
                       {| debuggerAgent.Result := MakeRemoteObject variable;
                          debuggerAgent.ExceptionDetails := None |})]
  | (None, None) => ~ proxy_lives o
  end.
Proof.
  intros expr o Hscope. subst o expr.
  unfold eval_scope in Hscope. unfold evaluateOnGoroutineAndRespond.
  destruct (decide (debuggerAgent.EvalDestinationTargetID command = EmptyString)) as [Hd | Hd].
  - destruct (GoInt.Atoi (debuggerAgent.EvalCallFrameId command)) as [frameId |];
      [| discriminate].
    injection Hscope as <-. run_monad.
    destruct (dbgClient.EvalVariable client_ops (client w) _ _ _)
      as [c' [[variable |] [cause |]]]; simpl;
      try (split; [exact I |]); rewrite <- ?app_assoc; try apply emitted_mk; tauto.
  - destruct (GoInt.Atoi (debuggerAgent.EvalDestinationTargetID command)) as [targetID |];
      [| discriminate].
    destruct (GoInt.Atoi (debuggerAgent.EvalCallFrameId command)) as [frameId |];
      [| discriminate].
    injection Hscope as <-. run_monad.
    destruct (dbgClient.EvalVariable client_ops (client w) _ _ _)
      as [c' [[variable |] [cause |]]]; simpl;
      try (split; [exact I |]); rewrite <- ?app_assoc; try apply emitted_mk; tauto.
Qed.

(** C4 (as amended). A failing debugger-client call is always answered
    with an internal-error carrying the cause text.  After a failing
    [CreateBreakpointAtLine] or [ClearBreakpointByName] the handler
    returns and the proxy lives; after a failing [SwitchGoroutine] (in
    the three step handlers and in resume) or a failing
    [Next]/[Step]/[StepOut] the handler panics right after responding,
    which ends the proxy. *)
Theorem client_failure_disposition (cause : dbgClient.error) :
  (forall handler command (w w1 : World C),
      In handler [stepOverAndRespond client_ops range_order;
                  stepIntoAndRespond client_ops range_order;
                  stepOutAndRespond client_ops range_order;
                  continueAndRespond client_ops range_order] ->
      selectDestination command w = Done tt w1 ->
      snd (snd (dbgClient.SwitchGoroutine client_ops (client w1)
                  (activeGoroutineID (px w1)))) = Some cause ->
      emitted w (handler command w) =
        [ClientCall (CallSwitchGoroutine (activeGoroutineID (px w1)));
         RespondWithError shared.ErrorCodeInternalError cause]
      /\ ~ proxy_lives (handler command w))
  /\ (forall handler prim method command (w w1 w2 w3 : World C),
        In (handler, prim, method)
           [(stepOverAndRespond client_ops range_order, CallNext, dbgClient.Next client_ops);
            (stepIntoAndRespond client_ops range_order, CallStep, dbgClient.Step client_ops);
            (stepOutAndRespond client_ops range_order, CallStepOut,
             dbgClient.StepOut client_ops)] ->
        selectDestination command w = Done tt w1 ->
        switchToActive client_ops w1 = Done tt w2 ->
        sendResumeState range_order w2 = Done tt w3 ->
        snd (snd (method (client w3))) = Some cause ->
        trace (final_world (handler command w)) =
          trace w3 ++ [ClientCall prim;
                       RespondWithError shared.ErrorCodeInternalError cause]
        /\ ~ proxy_lives (handler command w))
  /\ (forall command url (w : World C),
        let line := debuggerAgent.CmdLineNumber command in
        let key := breakpointKey url line in
        accepted command url ->
        key ∉ breakpoints (px w) ->
        snd (dbgClient.CreateBreakpointAtLine client_ops (client w) url
               (GoInt.add line 1) key) = Some cause ->
        emitted w (setBreakpointAndRespond client_ops command w) =
          [Lock breakpointsMux;
           ClientCall (CallCreateBreakpointAtLine url (GoInt.add line 1) key);
           RespondWithError shared.ErrorCodeInternalError cause;
           Unlock breakpointsMux]
        /\ proxy_lives (setBreakpointAndRespond client_ops command w))
  /\ (forall command (w : World C),
        let id := debuggerAgent.RemoveBreakpointId command in
        snd (dbgClient.ClearBreakpointByName client_ops (client w) id) = Some cause ->
        emitted w (removeBreakpointAndRespond client_ops command w) =
          [Lock breakpointsMux;
           Unlock breakpointsMux;
           ClientCall (CallClearBreakpointByName id);
           RespondWithError shared.ErrorCodeInternalError cause]
        /\ proxy_lives (removeBreakpointAndRespond client_ops command w)).
Proof.
  split; [| split; [| split]].
  - intros handler command w w1 Hh Hsel Hfail.
    destruct Hh as [<- | [<- | [<- | [<- | []]]]].
    + apply (step_switch_failure _ _ command w w1 cause Hsel Hfail).
    + apply (step_switch_failure _ _ command w w1 cause Hsel Hfail).
    + apply (step_switch_failure _ _ command w w1 cause Hsel Hfail).
    + apply (continue_switch_failure command w w1 cause Hsel Hfail).
  - intros handler prim method command w w1 w2 w3 Hh Hsel Hsw Hres Hfail.
    destruct Hh as [Heq | [Heq | [Heq | []]]]; injection Heq as <- <- <-;
      apply (step_primitive_failure _ _ command w w1 w2 w3 cause Hsel Hsw Hres Hfail).
  - intros command url w line key Hacc Hfresh Hfail.
    rewrite (setBreakpoint_accepted client_ops command url w Hacc). simpl.
    fold line. fold key.
    destruct (decide (key ∈ breakpoints (px w))) as [Hmem | _]; [contradiction |].
    destruct (dbgClient.CreateBreakpointAtLine client_ops (client w) url
                (GoInt.add line 1) key) as [c' err].
    simpl in Hfail. subst err. split; [apply emitted_mk | exact I].
  - intros command w id Hfail.
    destruct (removeBreakpoint_run command w) as (Hlive & _ & Hem).
    fold id in Hem. rewrite Hfail in Hem. split; assumption.
Qed.

End HandlerFacts.

(** ** A small program logic for traces *)

Section ProgramLogic.

Context {C : Type}.

Lemma produces_ret {A} (T : list effect -> Prop) (Q : A -> Prop) (a : A) :
    T [] -> Q a -> produces (C := C) T Q (ret a).
  Proof. intros HT HQ w. exists []. simpl. rewrite app_nil_r. auto. Qed.

Lemma produces_panic {A} (T : list effect -> Prop) (Q : A -> Prop) (v : panic_value) :
    T [] -> produces (C := C) T Q (panic v).
  Proof. intros HT w. exists []. simpl. rewrite app_nil_r. auto. Qed.

Lemma produces_emit (T : list effect -> Prop) (Q : unit -> Prop) (e : effect) :
    T [e] -> Q tt -> produces (C := C) T Q (emit e).
  Proof. intros HT HQ w. exists [e]. simpl. auto. Qed.

Lemma produces_call {A} (T : list effect -> Prop) (Q : A -> Prop)
      (c : client_call) (method : C -> C * A) :
    T [ClientCall c] -> (forall c0, Q (snd (method c0))) -> produces T Q (call c method).
  Proof.
    intros HT HQ w. exists [ClientCall c]. unfold call.
    specialize (HQ (client w)). destruct (method (client w)) as [c' r]. simpl. auto.
  Qed.

Lemma produces_get_proxy (T : list effect -> Prop) (Q : proxy -> Prop) :
    T [] -> (forall p, Q p) -> produces (C := C) T Q get_proxy.
  Proof. intros HT HQ w. exists []. simpl. rewrite app_nil_r. auto. Qed.

Lemma produces_modify_proxy (T : list effect -> Prop) (Q : unit -> Prop) (f : proxy -> proxy) :
    T [] -> Q tt -> produces (C := C) T Q (modify_proxy f).
  Proof. intros HT HQ w. exists []. simpl. rewrite app_nil_r. auto. Qed.

Lemma produces_range_entries {A} (range_order : nat -> forall A : Type, list A -> list A)
      (T : list effect -> Prop) (Q : list A -> Prop) (entries : list A) :
    T [] -> (forall n, Q (range_order n A entries)) ->
    produces (C := C) T Q (range_entries range_order entries).
  Proof. intros HT HQ w. exists []. simpl. rewrite app_nil_r. auto. Qed.

Lemma produces_bind {A B} (T1 T2 T : list effect -> Prop) (Q : A -> Prop) (R : B -> Prop)
      (m : M C A) (k : A -> M C B) :
    produces T1 Q m ->
    (forall a, Q a -> produces T2 R (k a)) ->
    (forall es1, T1 es1 -> T es1) ->
    (forall es1 es2, T1 es1 -> T2 es2 -> T (es1 ++ es2)) ->
    produces T R (bind m k).
  Proof.
    intros Hm Hk Hleft Happ w. unfold bind.
    destruct (Hm w) as (es1 & Htr1 & HT1 & HQ).
    destruct (m w) as [a w1 | v w1]; simpl in *.
    - destruct (Hk a HQ w1) as (es2 & Htr2 & HT2 & HR).
      exists (es1 ++ es2). rewrite Htr2, Htr1, app_assoc. auto.
    - exists es1. auto.
  Qed.

  (** Sequencing under one monoidal trace predicate. *)
Lemma produces_seq {A B} (T : list effect -> Prop) (Q : A -> Prop) (R : B -> Prop)
      (m : M C A) (k : A -> M C B) :
    monoidal T ->
    produces T Q m ->
    (forall a, Q a -> produces T R (k a)) ->
    produces T R (bind m k).
  Proof.
    intros [Hnil Happ] Hm Hk.
    apply (produces_bind T T T Q R); auto.
  Qed.

Lemma produces_weaken {A} (T T' : list effect -> Prop) (Q Q' : A -> Prop) (m : M C A) :
    (forall es, T es -> T' es) -> (forall a, Q a -> Q' a) ->
    produces T Q m -> produces T' Q' m.
  Proof.
    intros HT HQ Hm w. destruct (Hm w) as (es & Htr & Hes & Hres).
    exists es. split; [exact Htr |]. split; [auto |].
    destruct (m w); auto.
  Qed.

Lemma produces_for_each {A} (T : list effect -> Prop) (Inv : A -> Prop)
      (xs : list A) (body : A -> M C unit) :
    monoidal T ->
    Forall Inv xs ->
    (forall x, Inv x -> produces T (fun _ => True) (body x)) ->
    produces T (fun _ => True) (for_each xs body).
  Proof.
    intros HT Hxs Hbody. induction Hxs as [| x xs Hx _ IH]; simpl.
    - apply produces_ret; [apply HT | exact I].
    - apply (produces_seq T (fun _ => True)); auto.
  Qed.

Lemma produces_fold_each {A S} (T : list effect -> Prop) (Inv : A -> Prop) (J : S -> Prop)
      (xs : list A) (acc : S) (body : S -> A -> M C S) :
    monoidal T ->
    Forall Inv xs ->
    J acc ->
    (forall s x, J s -> Inv x -> produces T J (body s x)) ->
    produces T J (fold_each xs acc body).
  Proof.
    intros HT Hxs Hacc Hbody. revert acc Hacc.
    induction Hxs as [| x xs Hx _ IH]; intros acc Hacc; simpl.
    - apply produces_ret; [apply HT | exact Hacc].
    - apply (produces_seq T J); auto.
  Qed.

(** An effect followed by a computation. *)
Lemma produces_emit_then {B} (T2 T : list effect -> Prop) (R : B -> Prop)
    (e : effect) (k : M C B) :
  produces T2 R k ->
  (forall es, T2 es -> T (e :: es)) ->
  produces T R (bind (emit e) (fun _ => k)).
Proof.
intros Hk Hcons w. unfold bind, emit.
destruct (Hk (mkWorld (px w) (client w) (trace w ++ [e]) (ranges w)))
  as (es & Htr & HT & HR).
exists (e :: es). simpl in Htr. rewrite Htr, <- app_assoc. auto.
Qed.

Lemma produces_with_defer {A} (T : list effect -> Prop) (Q : A -> Prop)
    (e : effect) (body : M C A) :
  produces T Q body ->
  produces (fun es => exists es0, T es0 /\ es = es0 ++ [e]) Q (with_defer (emit e) body).
Proof.
intros Hbody w. destruct (Hbody w) as (es0 & Htr & HT & HQ).
exists (es0 ++ [e]). unfold with_defer.
destruct (body w) as [a w1 | v w1]; simpl in *;
  rewrite Htr, app_assoc; eauto.
Qed.

Lemma produces_with_defer_monoidal {A} (T : list effect -> Prop) (Q : A -> Prop)
    (e : effect) (body : M C A) :
  monoidal T -> T [e] ->
  produces T Q body ->
  produces T Q (with_defer (emit e) body).
Proof.
intros [_ Happ] He Hbody.
eapply produces_weaken; [| | apply produces_with_defer, Hbody]; simpl; [| auto].
intros es (es0 & H0 & ->). auto.
Qed.

End ProgramLogic.

Lemma monoidal_Forall (P : effect -> Prop) : monoidal (Forall P).
Proof.
  split; [constructor |]. intros es1 es2 H1 H2. apply Forall_app. auto.
Qed.

(** ** Stages of a pause snapshot *)

Lemma staged_lower (lo lo' hi : nat) (es : list effect) :
  (lo' <= lo)%nat -> staged lo hi es -> staged lo' hi es.
Proof. destruct es as [| e rest]; simpl; intros; [lia | intuition lia]. Qed.

Lemma staged_upper (lo hi hi' : nat) (es : list effect) :
  (hi <= hi')%nat -> staged lo hi es -> staged lo hi' es.
Proof.
  intros Hle. revert lo. induction es as [| e rest IH]; simpl; intros lo H; [lia |].
  destruct H as [H1 H2]. auto.
Qed.

Lemma staged_app (lo mid hi : nat) (es1 es2 : list effect) :
  staged lo mid es1 -> staged mid hi es2 -> staged lo hi (es1 ++ es2).
Proof.
  revert lo. induction es1 as [| e rest IH]; simpl; intros lo H1 H2.
  - apply (staged_lower mid); assumption.
  - destruct H1 as [Hlo Hrest]. auto.
Qed.

Lemma staged_bounds (lo hi : nat) (es : list effect) :
  staged lo hi es -> Forall (fun e => (lo <= stage e <= hi)%nat) es.
Proof.
  revert lo. induction es as [| e rest IH]; simpl; intros lo H; [constructor |].
  destruct H as [Hlo Hrest]. specialize (IH _ Hrest).
  assert (Hhi : (stage e <= hi)%nat).
  { clear IH. revert Hrest. generalize (stage e). induction rest as [| e' r IHr]; simpl.
    - auto.
    - intros n [Hn Hr]. specialize (IHr _ Hr). lia. }
  constructor; [lia |].
  eapply Forall_impl; [exact IH |]. simpl. intros. lia.
Qed.

Lemma staged_later (lo hi : nat) (l1 l2 : list effect) (x y : effect) :
  staged lo hi (l1 ++ x :: l2) -> In y l2 -> (stage x <= stage y)%nat.
Proof.
  revert lo. induction l1 as [| e rest IH]; simpl; intros lo H Hy.
  - destruct H as [_ Hrest]. apply staged_bounds in Hrest.
    rewrite Forall_forall in Hrest. apply list_elem_of_In in Hy.
    apply Hrest in Hy. lia.
  - destruct H as [_ Hrest]. eauto.
Qed.

Lemma monoidal_staged (k : nat) : monoidal (staged k k).
Proof.
  split; [simpl; lia |]. intros es1 es2 H1 H2. apply (staged_app k k k); assumption.
Qed.

Lemma housekeeping_staged (es : list effect) : Forall housekeeping es -> staged 0 0 es.
Proof.
induction 1 as [| e rest He _ IH]; simpl; [lia |].
unfold housekeeping in He. rewrite He. split; [lia | exact IH].
Qed.

(** ** The pause pipeline *)

Ltac housekeeping_effect :=
  repeat constructor.

Section PauseFacts.

Context {C : Type}.
Variable client_ops : dbgClient.Ops C.
Variable range_order : nat -> forall A : Type, list A -> list A.

Abbreviation quiet := (Forall housekeeping).

Lemma quiet_monoidal : monoidal quiet.
Proof. apply monoidal_Forall. Qed.

Lemma Attach_quiet (t : Target) (routine : dbgClient.Goroutine) :
  produces (C := C) quiet (fun _ => True) (Attach t routine).
Proof.
unfold Attach.
apply (produces_seq quiet (fun _ => True)); [apply quiet_monoidal | |].
- apply produces_emit; [housekeeping_effect | exact I].
- intros _ _. apply (produces_seq quiet (fun _ => True)); [apply quiet_monoidal | |].
  + apply produces_get_proxy; [constructor | auto].
  + intros p _. apply (produces_for_each quiet (fun _ => True)).
    * apply quiet_monoidal.
    * apply Forall_forall. auto.
    * intros file _. apply produces_emit; [housekeeping_effect | exact I].
Qed.

Lemma range_activeTargets_quiet :
  produces (C := C) quiet (fun _ => True) (range_activeTargets range_order).
Proof.
unfold range_activeTargets.
apply (produces_seq quiet (fun _ => True)); [apply quiet_monoidal | |].
- apply produces_get_proxy; [constructor | auto].
- intros p _. apply produces_range_entries; [constructor | auto].
Qed.

(** A routine sync fires no Paused event; it takes the write lock, calls
    [ListGoroutines] first, and releases the lock last, also when it
    panics. *)
Lemma syncGoroutines_trace :
  produces (fun es => quiet es
                      /\ exists mid, es = Lock activeTargetsMux
                                          :: ClientCall CallListGoroutines
                                          :: mid ++ [Unlock activeTargetsMux])
           (fun _ => True) (syncGoroutines client_ops range_order).
Proof.
unfold syncGoroutines.
apply (produces_emit_then
         (fun es => exists es0,
                      (quiet es0 /\ exists rest, es0 = ClientCall CallListGoroutines :: rest)
                      /\ es = es0 ++ [Unlock activeTargetsMux])).
2: { intros es (es0 & [Hq [rest ->]] & ->). split.
     - constructor; [reflexivity |].
       apply Forall_app. split; [exact Hq | housekeeping_effect].
     - exists rest. reflexivity. }
apply produces_with_defer.
apply (produces_bind (fun es => es = [ClientCall CallListGoroutines]) quiet _
         (fun _ => True) (fun _ => True)).
{ apply produces_call; [reflexivity | auto]. }
2: { intros es ->. split; [housekeeping_effect | eauto]. }
2: { intros es1 es2 -> Hq. split; [| simpl; eauto].
     apply Forall_app. split; [housekeeping_effect | exact Hq]. }
intros [routines [err |]] _; [apply produces_panic; constructor |].
apply (produces_seq quiet (fun _ => True)); [apply quiet_monoidal | |].
{ apply (produces_fold_each quiet (fun _ => True) (fun _ => True));
    [apply quiet_monoidal | apply Forall_forall; auto | exact I |].
  intros found routine _ _.
  apply (produces_seq quiet (fun _ => True)); [apply quiet_monoidal | |].
  { apply produces_get_proxy; [constructor | auto]. }
  intros p _. destruct (activeTargets p !! dbgClient.ID routine).
  - apply produces_ret; [constructor | exact I].
  - apply (produces_seq quiet (fun _ => True)); [apply quiet_monoidal | |].
    { apply Attach_quiet. }
    intros _ _. apply (produces_seq quiet (fun _ => True)); [apply quiet_monoidal | |].
    { apply produces_modify_proxy; [constructor | exact I]. }
    intros _ _. apply produces_ret; [constructor | exact I]. }
intros found _.
apply (produces_seq quiet (fun _ => True)); [apply quiet_monoidal | |].
{ apply range_activeTargets_quiet. }
intros entries _.
apply (produces_seq quiet (fun _ => True)); [apply quiet_monoidal | |].
{ apply (produces_for_each quiet (fun _ => True));
    [apply quiet_monoidal | apply Forall_forall; auto |].
  intros [routineID target] _. destruct (decide (routineID ∈ found)).
  - apply produces_ret; [constructor | exact I].
  - apply (produces_seq quiet (fun _ => True)); [apply quiet_monoidal | |].
    { apply produces_emit; [housekeeping_effect | exact I]. }
    intros _ _. apply produces_modify_proxy; [constructor | exact I]. }
intros _ _.
apply (produces_seq quiet (fun _ => True)); [apply quiet_monoidal | |].
{ apply produces_get_proxy; [constructor | auto]. }
intros p _. destruct (activeTargets p !! activeGoroutineID p).
- apply produces_ret; [constructor | exact I].
- apply (produces_seq quiet (fun _ => True)); [apply quiet_monoidal | |].
  { apply range_activeTargets_quiet. }
  intros [| [index target] rest] _.
  + apply produces_ret; [constructor | exact I].
  + apply produces_modify_proxy; [constructor | exact I].
Qed.

Lemma syncGoroutines_quiet :
  produces quiet (fun _ => True) (syncGoroutines client_ops range_order).
Proof.
eapply produces_weaken; [| | apply syncGoroutines_trace]; simpl; [tauto | auto].
Qed.

Lemma housekeeping_from_backend (e : effect) :
  housekeeping e -> paused_from_backend client_ops e.
Proof. destruct e; simpl; trivial; unfold housekeeping; simpl; discriminate. Qed.

Lemma snapshot_quiet (es : list effect) : quiet es -> snapshot_trace client_ops es.
Proof.
intros Hq. split.
- apply (staged_upper 0 0 2); [lia | apply housekeeping_staged, Hq].
- eapply Forall_impl; [exact Hq | apply housekeeping_from_backend].
Qed.

Lemma snapshot_after_quiet (es1 es2 : list effect) :
  quiet es1 -> snapshot_trace client_ops es2 -> snapshot_trace client_ops (es1 ++ es2).
Proof.
intros Hq [Hst Hfrom]. split.
- apply (staged_app 0 0 2); [apply housekeeping_staged, Hq | exact Hst].
- apply Forall_app. split; [| exact Hfrom].
  eapply Forall_impl; [exact Hq | apply housekeeping_from_backend].
Qed.

Lemma produces_after_quiet {A B} (Q : A -> Prop) (R : B -> Prop)
    (m : M C A) (k : A -> M C B) :
  produces quiet Q m ->
  (forall a, Q a -> produces (snapshot_trace client_ops) R (k a)) ->
  produces (snapshot_trace client_ops) R (bind m k).
Proof.
intros Hm Hk.
apply (produces_bind quiet (snapshot_trace client_ops) (snapshot_trace client_ops) Q R);
  [exact Hm | exact Hk | apply snapshot_quiet | apply snapshot_after_quiet].
Qed.

(** Go's map iteration visits every entry exactly once. *)
Hypothesis range_order_perm :
  forall (n : nat) (A : Type) (entries : list A), Permutation (range_order n A entries) entries.

Lemma collectStacks_quiet :
  produces quiet (stacks_from_backend client_ops) (collectStacks client_ops range_order).
Proof.
unfold collectStacks.
apply (produces_seq quiet (fun _ => True)); [apply quiet_monoidal | |].
{ apply produces_emit; [housekeeping_effect | exact I]. }
intros _ _.
apply (produces_seq quiet (fun _ => True)); [apply quiet_monoidal | |].
{ apply range_activeTargets_quiet. }
intros entries _.
apply (produces_seq quiet (stacks_from_backend client_ops)); [apply quiet_monoidal | |].
2: { intros locals Hlocals.
     apply (produces_seq quiet (fun _ => True)); [apply quiet_monoidal | |].
     - apply produces_emit; [housekeeping_effect | exact I].
     - intros _ _. apply produces_ret; [constructor | exact Hlocals]. }
apply (produces_fold_each quiet (fun _ => True));
  [apply quiet_monoidal | apply Forall_forall; auto | |].
{ split; simpl; [discriminate | constructor]. }
intros [activeStack targetsStacks] [routineID target] [Hact Hts] _. simpl in Hact, Hts.
apply (produces_seq quiet
         (fun r : list dbgClient.Stackframe * option dbgClient.error =>
            backend_stack client_ops (fst r))); [apply quiet_monoidal | |].
{ apply produces_call; [housekeeping_effect |].
  intros c0. exists c0, routineID. reflexivity. }
intros [stacks [err |]] Hstacks; [apply produces_panic; constructor |].
simpl in Hstacks.
apply (produces_seq quiet (fun _ => True)); [apply quiet_monoidal | |].
{ apply produces_get_proxy; [constructor | auto]. }
intros p _. destruct (decide (routineID = activeGoroutineID p)).
- apply produces_ret; [constructor |]. split; simpl; [| exact Hts].
  intros stack [= <-]. exact Hstacks.
- apply produces_ret; [constructor |]. split; simpl; [exact Hact |].
  apply Forall_app. split; [exact Hts | repeat constructor; exact Hstacks].
Qed.

Lemma firePausedEvents_snapshot locals :
  stacks_from_backend client_ops locals ->
  produces (C := C) (snapshot_trace client_ops) (fun _ => True)
    (firePausedEvents range_order locals).
Proof.
destruct locals as [activeStack targetsStacks]. intros [Hact Hts]. simpl in Hact, Hts.
unfold firePausedEvents.
apply (produces_bind
         (fun es => staged 1 1 es /\ Forall (paused_from_backend client_ops) es)
         (fun es => staged 2 2 es /\ Forall (paused_from_backend client_ops) es)
         (snapshot_trace client_ops) (fun _ => True) (fun _ => True)).
- destruct activeStack as [stack |].
  + apply produces_emit; [| exact I]. split; [simpl; lia |].
    repeat constructor. exists stack. split; [apply Hact |]; reflexivity.
  + apply produces_ret; [| exact I]. split; [simpl; lia | constructor].
- intros _ _.
  assert (Hmon : monoidal (fun es => staged 2 2 es
                                     /\ Forall (paused_from_backend client_ops) es)).
  { split; [split; [simpl; lia | constructor] |].
    intros es1 es2 [Hs1 Hf1] [Hs2 Hf2]. split.
    - apply (staged_app 2 2 2); assumption.
    - apply Forall_app. auto. }
  apply (produces_seq _ (Forall (fun entry : Target * list dbgClient.Stackframe =>
                                   backend_stack client_ops (snd entry))));
    [exact Hmon | |].
  + apply produces_range_entries; [apply Hmon |].
    intros n. eapply Permutation_Forall; [| exact Hts].
    symmetry. apply range_order_perm.
  + intros others Hothers.
    apply (produces_for_each _ (fun entry : Target * list dbgClient.Stackframe =>
                                  backend_stack client_ops (snd entry)));
      [exact Hmon | exact Hothers |].
    intros [target stacks] Hstack. simpl in Hstack.
    unfold Target_FirePaused. apply produces_emit; [| exact I].
    split; [simpl; lia |]. repeat constructor.
    exists stacks. split; [exact Hstack | reflexivity].
- intros es [Hs Hf]. split; [| exact Hf].
  apply (staged_lower 1); [lia |]. apply (staged_upper 1 1); [lia | exact Hs].
- intros es1 es2 [Hs1 Hf1] [Hs2 Hf2]. split.
  + apply (staged_lower 1); [lia |]. apply (staged_app 1 1 2).
    * exact Hs1.
    * apply (staged_lower 2); [lia | exact Hs2].
  + apply Forall_app. auto.
Qed.

(** What follows the not-paused check. *)
Lemma collect_and_fire_snapshot :
  produces (snapshot_trace client_ops) (fun _ => True)
    (bind (collectStacks client_ops range_order) (firePausedEvents range_order)).
Proof.
apply (produces_after_quiet (stacks_from_backend client_ops));
  [apply collectStacks_quiet | apply firePausedEvents_snapshot].
Qed.

(** The shape of every pause snapshot. *)
Lemma sendPauseState_snapshot :
  produces (snapshot_trace client_ops) (fun _ => True) (sendPauseState client_ops range_order).
Proof.
unfold sendPauseState.
apply (produces_after_quiet (fun _ => True)).
{ apply produces_call; [housekeeping_effect | auto]. }
intros [state [err |]] _.
{ apply produces_panic. apply snapshot_quiet. constructor. }
apply (produces_after_quiet (fun _ => True)); [apply syncGoroutines_quiet |].
intros _ _. destruct state as [st |];
  [| apply produces_panic; apply snapshot_quiet; constructor].
apply collect_and_fire_snapshot.
Qed.

Lemma emitted_of_trace {A} (w : World C) (o : Outcome C A) (es : list effect) :
  trace (final_world o) = trace w ++ es -> emitted w o = es.
Proof. intros H. unfold emitted. rewrite H. apply drop_app_length. Qed.

Lemma staged_lookup (lo hi : nat) (es : list effect) (i j : nat) (x y : effect) :
  staged lo hi es -> es !! i = Some x -> es !! j = Some y -> (i < j)%nat ->
  (stage x <= stage y)%nat.
Proof.
intros Hst Hi Hj Hlt.
rewrite <- (take_drop_middle es i x Hi) in Hst.
apply (staged_later _ _ _ _ _ y) in Hst; [exact Hst |].
apply list_elem_of_In, list_elem_of_lookup. exists (j - S i)%nat.
rewrite lookup_drop. replace (S i + (j - S i))%nat with j by lia. exact Hj.
Qed.

Lemma sendFrames_from_lines (index : Z) (stack : list dbgClient.Stackframe) :
  map (fun cf => debuggerAgent.LineNumber (debuggerAgent.Location_ cf))
      (sendFrames_from index stack)
  = map (fun frame => GoInt.sub (dbgClient.Line (dbgClient.Location_ frame)) 1) stack.
Proof.
revert index. induction stack as [| frame rest IH]; intros index; simpl; [reflexivity |].
rewrite IH. reflexivity.
Qed.

(** C8. Active-before-others ordering: in the effects of one pause
    snapshot, the Paused event of the default Debugger agent comes before
    every per-target Paused event. *)
Theorem active_before_others (w : World C) (i j : nat)
    (active other : debuggerAgent.PausedEvent) (target : string) :
  let es := emitted w (sendPauseState client_ops range_order w) in
  es !! i = Some (FirePaused active) ->
  es !! j = Some (FirePausedOnTarget target other) ->
  (i < j)%nat.
Proof.
intros es Hi Hj. subst es.
destruct (sendPauseState_snapshot w) as (es & Htr & [Hst _] & _).
rewrite (emitted_of_trace w _ es Htr) in Hi, Hj.
destruct (Nat.lt_trichotomy i j) as [Hlt | [-> | Hgt]]; [exact Hlt | congruence |].
pose proof (staged_lookup 0 2 es j i _ _ Hst Hj Hi Hgt) as Hle.
simpl in Hle. lia.
Qed.

(** C1. Line-number round trip.  Inbound: whenever [SetBreakpointByUrl]
    calls [CreateBreakpointAtLine], it passes the command's url and
    line + 1, and it does call it for every accepted (url, line) that is
    not yet set.  Outbound: every Paused event of a pause snapshot, on the
    default agent or on a target, carries the frames of a stack returned
    by the debugger client, in order, each with line L - 1 for backend
    line L.  Both are Go integer operations; they are the exact line + 1
    and L - 1 everywhere except at the ends of the 64-bit range. *)
Theorem line_number_round_trip :
  (forall command (w : World C) file line name,
      In (ClientCall (CallCreateBreakpointAtLine file line name))
         (emitted w (setBreakpointAndRespond client_ops command w)) ->
      debuggerAgent.CmdUrl command = Some file
      /\ line = GoInt.add (debuggerAgent.CmdLineNumber command) 1)
  /\ (forall command url (w : World C),
        accepted command url ->
        breakpointKey url (debuggerAgent.CmdLineNumber command) ∉ breakpoints (px w) ->
        In (ClientCall (CallCreateBreakpointAtLine url
                          (GoInt.add (debuggerAgent.CmdLineNumber command) 1)
                          (breakpointKey url (debuggerAgent.CmdLineNumber command))))
           (emitted w (setBreakpointAndRespond client_ops command w)))
  /\ (forall (w : World C) e,
        In e (emitted w (sendPauseState client_ops range_order w)) ->
        match e with
        | FirePaused ev | FirePausedOnTarget _ ev =>
            exists stack,
              backend_stack client_ops stack
              /\ map (fun cf => debuggerAgent.LineNumber (debuggerAgent.Location_ cf))
                     (debuggerAgent.CallFrames ev)
                 = map (fun frame => GoInt.sub (dbgClient.Line (dbgClient.Location_ frame)) 1)
                       stack
        | _ => True
        end)
  /\ (forall line, GoInt.in_int64 line -> line < GoInt.max_int64 ->
                   GoInt.add line 1 = line + 1)
  /\ (forall L, GoInt.in_int64 L -> GoInt.min_int64 < L -> GoInt.sub L 1 = L - 1).
Proof.
split; [| split; [| split; [| split]]].
- intros command w file line name. apply setBreakpoint_call_line.
- intros command url w Hacc Hfresh.
  rewrite (setBreakpoint_accepted client_ops command url w Hacc). simpl.
  destruct (decide _) as [Hmem | _]; [contradiction |].
  destruct (dbgClient.CreateBreakpointAtLine _ _ _ _ _) as [c' [e |]];
    rewrite emitted_mk; right; left; reflexivity.
- intros w e Hin.
  destruct (sendPauseState_snapshot w) as (es & Htr & [_ Hfrom] & _).
  rewrite (emitted_of_trace w _ es Htr) in Hin.
  rewrite Forall_forall in Hfrom. apply list_elem_of_In, Hfrom in Hin.
  destruct e; try exact I; simpl in Hin;
    destruct Hin as (stack & Hback & ->); exists stack;
    (split; [exact Hback | apply sendFrames_from_lines]).
- apply add_one_exact.
- apply sub_one_exact.
Qed.

Lemma sendPauseState_unfold (w : World C) :
  sendPauseState client_ops range_order w =
    let answer := dbgClient.GetState client_ops (client w) in
    let w1 := mkWorld (px w) (fst answer) (trace w ++ [ClientCall CallGetState]) (ranges w) in
    match snd (snd answer) with
    | Some cause => Panicked (PanicError cause) w1
    | None =>
        match syncGoroutines client_ops range_order w1 with
        | Done _ w2 =>
            match fst (snd answer) with
            | Some _ =>
                bind (collectStacks client_ops range_order) (firePausedEvents range_order) w2
            | None => Panicked (PanicString "Called sendPauseState() but not paused.") w2
            end
        | Panicked v w2 => Panicked v w2
        end
    end.
Proof.
unfold sendPauseState. unfold bind at 1. unfold call at 1.
destruct (dbgClient.GetState client_ops (client w)) as [c1 [state [cause |]]]; simpl;
  [reflexivity |].
unfold bind at 1.
destruct (syncGoroutines client_ops range_order _) as [[] w2 | v w2]; [| reflexivity].
destruct state; reflexivity.
Qed.

(** C7 (as amended). Step order of a pause snapshot: the pipeline first
    queries the state and panics at once if the query fails.  Otherwise it
    next runs the routine sync, whatever the state is, with the
    ActiveTargets write lock held from before [ListGoroutines] until the
    sync is over; only after the sync does it panic when the reported
    state is nil. *)
Theorem pause_snapshot_step_order (w : World C) :
  let answer := dbgClient.GetState client_ops (client w) in
  let w1 := mkWorld (px w) (fst answer) (trace w ++ [ClientCall CallGetState]) (ranges w) in
  let o := sendPauseState client_ops range_order w in
  match snd (snd answer), fst (snd answer) with
  | Some cause, _ => o = Panicked (PanicError cause) w1
  | None, None =>
      o = match syncGoroutines client_ops range_order w1 with
          | Done _ w2 => Panicked (PanicString "Called sendPauseState() but not paused.") w2
          | Panicked v w2 => Panicked v w2
          end
      /\ exists sync,
           emitted w o = ClientCall CallGetState
                         :: Lock activeTargetsMux
                         :: ClientCall CallListGoroutines
                         :: sync ++ [Unlock activeTargetsMux]
  | None, Some _ =>
      exists sync rest,
        emitted w o = ClientCall CallGetState
                      :: Lock activeTargetsMux
                      :: ClientCall CallListGoroutines
                      :: sync ++ Unlock activeTargetsMux :: rest
  end.
Proof.
intros answer w1 o. subst o. rewrite sendPauseState_unfold.
fold answer. destruct answer as [c1 [state [cause |]]]; simpl; [reflexivity |].
simpl in w1. fold w1.
assert (Hw1 : trace w1 = trace w ++ [ClientCall CallGetState]) by reflexivity.
clearbody w1.
destruct (syncGoroutines_trace w1) as (es & Htr & [_ [sync ->]] & _).
destruct (syncGoroutines client_ops range_order w1) as [[] w2 | v w2] eqn:Hsync;
  simpl in Htr; destruct state as [st |].
- destruct (collect_and_fire_snapshot w2) as (es2 & Htr2 & _).
  exists sync, es2. apply emitted_of_trace.
  rewrite Htr2, Htr, Hw1. repeat first [rewrite <- app_assoc | progress simpl]. reflexivity.
- split; [reflexivity |]. exists sync. apply emitted_of_trace. simpl.
  rewrite Htr, Hw1, <- app_assoc. reflexivity.
- exists sync, []. apply emitted_of_trace. simpl.
  rewrite Htr, Hw1, <- app_assoc. reflexivity.
- split; [reflexivity |]. exists sync. apply emitted_of_trace. simpl.
  rewrite Htr, Hw1, <- app_assoc. reflexivity.
Qed.

End PauseFacts.

(** ** Targets and the routine sync *)

Lemma Split_segments (s : string) :
  exists seg segs,
    GoStrings.Split s "."%char = seg :: segs
    /\ has_dot seg = false
    /\ (segs = [] -> s = seg)
    /\ (segs <> [] ->
        exists p, s = ((p ++ ".") ++ List.last segs EmptyString)%string)
    /\ has_dot (List.last segs EmptyString) = false.
Proof.
induction s as [| c rest IH].
- exists EmptyString, []. simpl. repeat split; congruence.
- destruct IH as (seg & segs & Hsplit & Hseg & Hone & Hmore & Hlast).
  simpl. rewrite Hsplit. destruct (Ascii.eqb_spec c "."%char) as [-> | Hc].
  + exists EmptyString, (seg :: segs). repeat split; [discriminate | |].
    * intros _. destruct segs as [| seg' segs'].
      -- exists EmptyString. simpl. rewrite Hone; reflexivity.
      -- destruct Hmore as [p Hp]; [discriminate |].
         exists (String "." p). rewrite Hp. reflexivity.
    * destruct segs as [| seg' segs']; [exact Hseg | exact Hlast].
  + exists (String c seg), segs. repeat split.
    * simpl. rewrite Hseg. destruct (Ascii.eqb_spec c "."%char); [contradiction | reflexivity].
    * intros Hnil. rewrite (Hone Hnil). reflexivity.
    * intros Hne. destruct (Hmore Hne) as [p Hp].
      exists (String c p). rewrite Hp. reflexivity.
    * exact Hlast.
Qed.

(** [short_name] is the part of the name after its last dot (the whole
    name when it has no dot). *)
Lemma short_name_spec (name : string) :
  has_dot (short_name name) = false
  /\ (name = short_name name
      \/ exists p, name = ((p ++ ".") ++ short_name name)%string).
Proof.
unfold short_name, GoStrings.last_part.
destruct (Split_segments name) as (seg & segs & -> & Hseg & Hone & Hmore & Hlast).
destruct segs as [| seg' segs'].
- simpl. split; [exact Hseg | left; auto].
- change (List.last (seg :: seg' :: segs') EmptyString)
    with (List.last (seg' :: segs') EmptyString).
  split; [exact Hlast | right; apply Hmore; discriminate].
Qed.

Section SyncFacts.

Context {C : Type}.
Variable client_ops : dbgClient.Ops C.
Variable range_order : nat -> forall A : Type, list A -> list A.

Lemma for_each_emit {A} (g : A -> effect) (xs : list A) (w : World C) :
  for_each xs (fun x => emit (g x)) w = Done tt (add_trace (map g xs) w).
Proof.
revert w. induction xs as [| x rest IH]; intros w; simpl.
- unfold ret, add_trace. rewrite app_nil_r. destruct w; reflexivity.
- unfold bind, emit. rewrite IH. unfold add_trace. simpl.
  rewrite <- app_assoc. reflexivity.
Qed.

Lemma Attach_run (t : Target) (routine : dbgClient.Goroutine) (w : World C) :
  Attach t routine w =
    Done tt (add_trace
               (FireAttachedToTarget
                  {| targetAgent.TargetInfo_ :=
                       {| targetAgent.TargetId := GoInt.fmt_d (ID t);
                          targetAgent.Type_ := "node";
                          targetAgent.Title := "tt";
                          targetAgent.Url :=
                            (GoInt.fmt_d (ID t) ++ ":" ++ attach_name routine)%string |};
                     targetAgent.WaitingForDebugger := false |}
                :: map (script_parsed_on (GoInt.fmt_d (ID t))) (fileList (px w)))
               w).
Proof.
unfold Attach. unfold bind at 1. unfold emit at 1.
unfold bind at 1. unfold get_proxy at 1. cbn [px].
rewrite (for_each_emit (script_parsed_on (GoInt.fmt_d (ID t)))).
unfold add_trace. simpl. rewrite <- app_assoc. reflexivity.
Qed.

(** C9 (as amended). Target display: the AttachedToTarget event fired for
    a routine has the constant Title "tt".  The short name of the
    routine's current function (the last dot-segment of its name) is
    carried by the Url, which is the decimal routine id, a colon, and then
    a space and the short name, or nothing when the routine has no
    function. *)
Theorem attached_target_title (t : Target) (routine : dbgClient.Goroutine) (w : World C) :
  exists info,
    emitted w (Attach t routine w) =
      FireAttachedToTarget {| targetAgent.TargetInfo_ := info;
                              targetAgent.WaitingForDebugger := false |}
      :: map (script_parsed_on (GoInt.fmt_d (ID t))) (fileList (px w))
    /\ targetAgent.Title info = "tt"
    /\ targetAgent.TargetId info = GoInt.fmt_d (ID t)
    /\ targetAgent.Url info =
         (GoInt.fmt_d (ID t) ++ ":" ++
          match dbgClient.Function_ (dbgClient.UserCurrentLoc routine) with
          | Some fn => " " ++ short_name (dbgClient.Name fn)
          | None => EmptyString
          end)%string
    /\ (forall fn,
          dbgClient.Function_ (dbgClient.UserCurrentLoc routine) = Some fn ->
          has_dot (short_name (dbgClient.Name fn)) = false
          /\ (dbgClient.Name fn = short_name (dbgClient.Name fn)
              \/ exists p, dbgClient.Name fn
                           = ((p ++ ".") ++ short_name (dbgClient.Name fn))%string)).
Proof.
eexists. rewrite Attach_run. unfold add_trace. rewrite emitted_mk.
split; [reflexivity |]. split; [reflexivity |]. split; [reflexivity |].
split; [reflexivity |]. intros fn _. apply short_name_spec.
Qed.

Lemma keeps_active_ret {A} (a : A) : keeps_active (C := C) (ret a).
Proof. intros w. exists a, w. auto. Qed.

Lemma keeps_active_bind {A B} (m : M C A) (k : A -> M C B) :
  keeps_active m -> (forall a, keeps_active (k a)) -> keeps_active (bind m k).
Proof.
intros Hm Hk w. destruct (Hm w) as (a & w1 & Hrun & Hact).
destruct (Hk a w1) as (b & w2 & Hrun2 & Hact2).
exists b, w2. rewrite (bind_Done _ _ _ _ _ Hrun). split; [exact Hrun2 | congruence].
Qed.

Lemma keeps_active_emit (e : effect) : keeps_active (C := C) (emit e).
Proof. intros w. eexists. eexists. split; reflexivity. Qed.

Lemma keeps_active_get_proxy : keeps_active (C := C) get_proxy.
Proof. intros w. exists (px w), w. auto. Qed.

Lemma keeps_active_set_activeTargets (f : gmap Z Target -> gmap Z Target) :
  keeps_active (C := C) (modify_proxy (set_activeTargets f)).
Proof. intros w. eexists. eexists. split; reflexivity. Qed.

Lemma keeps_active_range_entries {A} (entries : list A) :
  keeps_active (C := C) (range_entries range_order entries).
Proof. intros w. eexists. eexists. split; reflexivity. Qed.

Lemma keeps_active_for_each {A} (xs : list A) (body : A -> M C unit) :
  (forall x, keeps_active (body x)) -> keeps_active (for_each xs body).
Proof.
intros Hbody. induction xs as [| x rest IH]; simpl.
- apply keeps_active_ret.
- apply keeps_active_bind; auto.
Qed.

Lemma keeps_active_fold_each {A S} (xs : list A) (acc : S) (body : S -> A -> M C S) :
  (forall s x, keeps_active (body s x)) -> keeps_active (fold_each xs acc body).
Proof.
intros Hbody. revert acc. induction xs as [| x rest IH]; intros acc; simpl.
- apply keeps_active_ret.
- apply keeps_active_bind; auto.
Qed.

Lemma keeps_active_Attach (t : Target) (routine : dbgClient.Goroutine) :
  keeps_active (C := C) (Attach t routine).
Proof.
intros w. rewrite Attach_run. eexists. eexists. split; reflexivity.
Qed.

Lemma keeps_active_range_activeTargets :
  keeps_active (C := C) (range_activeTargets range_order).
Proof.
unfold range_activeTargets. apply keeps_active_bind; [apply keeps_active_get_proxy |].
intros p. apply keeps_active_range_entries.
Qed.

(** Go's map iteration visits every entry exactly once. *)
Hypothesis range_order_perm :
  forall (n : nat) (A : Type) (entries : list A), Permutation (range_order n A entries) entries.

(** A sync whose [ListGoroutines] call succeeds returns, with the active
    routine among the targets unless there is none. *)
Lemma syncGoroutines_completes (w : World C) :
  snd (snd (dbgClient.ListGoroutines client_ops (client w))) = None ->
  exists w',
    syncGoroutines client_ops range_order w = Done tt w'
    /\ (activeTargets (px w') <> ∅ ->
        is_Some (activeTargets (px w') !! activeGoroutineID (px w')))
    /\ (activeTargets (px w') = ∅ ->
        activeGoroutineID (px w') = activeGoroutineID (px w)).
Proof.
intros Hok. unfold syncGoroutines.
unfold bind at 1. unfold emit at 1.
set (w0 := mkWorld (px w) (client w) (trace w ++ [Lock activeTargetsMux]) (ranges w)).
match goal with
| |- exists w', with_defer _ ?body w0 = _ /\ _ =>
    assert (Hbody : exists w',
               body w0 = Done tt w'
               /\ (activeTargets (px w') <> ∅ ->
                   is_Some (activeTargets (px w') !! activeGoroutineID (px w')))
               /\ (activeTargets (px w') = ∅ ->
                   activeGoroutineID (px w') = activeGoroutineID (px w)))
end.
2: { destruct Hbody as (w' & Hrun & Hkey & Hsame).
     unfold with_defer. rewrite Hrun. unfold emit.
     eexists. split; [reflexivity |]. simpl. auto. }
unfold bind at 1. unfold call at 1. cbn [client w0].
destruct (dbgClient.ListGoroutines client_ops (client w)) as [c1 [routines err]].
simpl in Hok. subst err. cbn [px trace ranges w0]. clear w0.
set (w1 := mkWorld (px w) c1
             ((trace w ++ [Lock activeTargetsMux]) ++ [ClientCall CallListGoroutines])
             (ranges w)).
assert (Hact1 : activeGoroutineID (px w1) = activeGoroutineID (px w)) by reflexivity.
clearbody w1.
match goal with
| |- exists w', bind ?m ?k w1 = _ /\ _ =>
    assert (Hloop : keeps_active m)
end.
{ apply keeps_active_fold_each. intros found routine.
  apply keeps_active_bind; [apply keeps_active_get_proxy |].
  intros p. destruct (activeTargets p !! dbgClient.ID routine).
  - apply keeps_active_ret.
  - apply keeps_active_bind; [apply keeps_active_Attach |].
    intros _. apply keeps_active_bind; [apply keeps_active_set_activeTargets |].
    intros _. apply keeps_active_ret. }
destruct (Hloop w1) as (found & w2 & Hrun2 & Hact2).
rewrite (bind_Done _ _ _ _ _ Hrun2).
destruct (keeps_active_range_activeTargets w2) as (entries & w3 & Hrun3 & Hact3).
rewrite (bind_Done _ _ _ _ _ Hrun3).
match goal with
| |- exists w', bind ?m ?k w3 = _ /\ _ =>
    assert (Hsweep : keeps_active m)
end.
{ apply keeps_active_for_each. intros [routineID target].
  destruct (decide (routineID ∈ found)).
  - apply keeps_active_ret.
  - apply keeps_active_bind; [apply keeps_active_emit |].
    intros _. apply keeps_active_set_activeTargets. }
destruct (Hsweep w3) as ([] & w4 & Hrun4 & Hact4).
rewrite (bind_Done _ _ _ _ _ Hrun4).
assert (Hact : activeGoroutineID (px w4) = activeGoroutineID (px w)) by congruence.
clear Hrun2 Hrun3 Hrun4 Hact1 Hact2 Hact3 Hact4 Hloop Hsweep.
unfold bind at 1. unfold get_proxy at 1.
destruct (activeTargets (px w4) !! activeGoroutineID (px w4)) as [target |] eqn:Hlook.
- exists w4. split; [reflexivity |]. split; [intros _; rewrite Hlook; eauto | intros _; exact Hact].
- unfold range_activeTargets, bind, get_proxy, range_entries. simpl.
  pose proof (range_order_perm (ranges w4) _ (map_to_list (activeTargets (px w4)))) as Hperm.
  destruct (range_order (ranges w4) (Z * Target) (map_to_list (activeTargets (px w4))))
    as [| [index target] rest].
  + eexists. split; [reflexivity |]. simpl. split; [| intros _; exact Hact].
    intros Hne. exfalso. apply Hne.
    apply Permutation_nil in Hperm. apply map_to_list_empty_iff in Hperm. exact Hperm.
  + eexists. split; [reflexivity |]. simpl.
    assert (Hin : (index, target) ∈ map_to_list (activeTargets (px w4))).
    { rewrite <- Hperm. left. }
    apply elem_of_map_to_list in Hin. split.
    * intros _. rewrite Hin. eauto.
    * intros Hempty. rewrite Hempty, lookup_empty in Hin. discriminate.
Qed.

Lemma syncGoroutines_list_failure (w : World C) (cause : dbgClient.error) :
  snd (snd (dbgClient.ListGoroutines client_ops (client w))) = Some cause ->
  ~ proxy_lives (syncGoroutines client_ops range_order w).
Proof.
intros Hfail. unfold syncGoroutines. run_monad.
destruct (dbgClient.ListGoroutines client_ops (client w)) as [c1 [routines err]].
simpl in Hfail. subst err. simpl. tauto.
Qed.

(** C10. Active-routine invariant of the routine sync: after every
    completed [syncGoroutines] pass, if ActiveTargets is not empty then
    ActiveRoutineId is one of its keys; if the sync leaves ActiveTargets
    empty then ActiveRoutineId still has the value it had before the sync.
    A pass completes whenever its [ListGoroutines] call succeeds. *)
Theorem active_routine_after_sync (w : World C) :
  (forall w',
      syncGoroutines client_ops range_order w = Done tt w' ->
      (activeTargets (px w') <> ∅ ->
       is_Some (activeTargets (px w') !! activeGoroutineID (px w')))
      /\ (activeTargets (px w') = ∅ ->
          activeGoroutineID (px w') = activeGoroutineID (px w)))
  /\ (snd (snd (dbgClient.ListGoroutines client_ops (client w))) = None ->
      exists w', syncGoroutines client_ops range_order w = Done tt w').
Proof.
split.
- intros w' Hdone.
  destruct (snd (snd (dbgClient.ListGoroutines client_ops (client w)))) as [cause |] eqn:Hlist.
  + exfalso. apply (syncGoroutines_list_failure w cause Hlist). rewrite Hdone. exact I.
  + destruct (syncGoroutines_completes w Hlist) as (w'' & Hrun & Hinv).
    rewrite Hrun in Hdone. injection Hdone as <-. exact Hinv.
- intros Hlist. destruct (syncGoroutines_completes w Hlist) as (w' & Hrun & _). eauto.
Qed.

End SyncFacts.

(** * Concrete runs *)

(** ** Known answers *)

Example sha1_abc :
  GoFmt.hex (SHA1.Sum (GoStrings.bytes_of "abc")) = "a9993e364706816aba3e25717850c26c9cd0d89d".
Proof. vm_compute. reflexivity. Qed.

Example sha1_two_blocks :
  GoFmt.hex (SHA1.Sum (GoStrings.bytes_of
    "abcdbcdecdefdefgefghfghighijhijkijkljklmklmnlmnomnopnopq"))
  = "84983e441c3bd26ebaae4aa1f95129e5e54670f1".
Proof. vm_compute. reflexivity. Qed.

Example breakpointKey_b_10 :
  breakpointKey "/a/b.src" 10 = "aaa8c0399efde1bfcfa1db7df59daecf0eb5c763c".
Proof. vm_compute. reflexivity. Qed.

Example Atoi_samples :
  GoInt.Atoi "42" = Some 42 /\ GoInt.Atoi "-7" = Some (-7) /\ GoInt.Atoi EmptyString = None
  /\ GoInt.Atoi "4x" = None /\ GoInt.Atoi "9223372036854775808" = None.
Proof. vm_compute. repeat split. Qed.

Example add_wraps_at_max : GoInt.add GoInt.max_int64 1 = GoInt.min_int64.
Proof. vm_compute. reflexivity. Qed.

(** When the last routine is gone, the sync detaches its target and leaves
    the active routine id pointing at it. *)
Example sync_leaves_dangling_active :
  let w := Scripted.watching_5 Scripted.idle in
  let o := syncGoroutines Scripted.ops Scripted.in_order w in
  emitted w o =
    [Lock activeTargetsMux;
     ClientCall CallListGoroutines;
     FireDetachedFromTarget {| targetAgent.DetachedTargetId := "5" |};
     Unlock activeTargetsMux]
  /\ activeTargets (px (final_world o)) !! 5 = None
  /\ activeGoroutineID (px (final_world o)) = 5.
Proof. vm_compute. repeat split. Qed.

Lemma in_order_perm (n : nat) (A : Type) (entries : list A) :
  Permutation (Scripted.in_order n A entries) entries.
Proof. reflexivity. Qed.

Lemma set_b_10_accepted : accepted Scripted.set_b_10 "/a/b.src".
Proof. unfold accepted. simpl. auto. Qed.

(** ** The theorems at concrete inputs *)

Lemma line_number_round_trip_witness :
  In (ClientCall (CallCreateBreakpointAtLine "/a/b.src" 11 (breakpointKey "/a/b.src" 10)))
     (emitted (Scripted.fresh Scripted.healthy)
        (setBreakpointAndRespond Scripted.ops Scripted.set_b_10
           (Scripted.fresh Scripted.healthy)))
  /\ (forall e,
        In e (emitted (Scripted.fresh Scripted.healthy)
                (sendPauseState Scripted.ops Scripted.in_order
                   (Scripted.fresh Scripted.healthy))) ->
        match e with
        | FirePaused ev | FirePausedOnTarget _ ev =>
            exists stack,
              backend_stack Scripted.ops stack
              /\ map (fun cf => debuggerAgent.LineNumber (debuggerAgent.Location_ cf))
                     (debuggerAgent.CallFrames ev)
                 = map (fun frame => GoInt.sub (dbgClient.Line (dbgClient.Location_ frame)) 1)
                       stack
        | _ => True
        end)
  /\ GoInt.add 10 1 = 11
  /\ GoInt.sub 11 1 = 10.
Proof.
destruct (line_number_round_trip Scripted.ops Scripted.in_order in_order_perm)
  as (_ & Hcall & Hout & Hadd & Hsub).
split; [| split; [| split]].
- apply (Hcall Scripted.set_b_10 "/a/b.src" (Scripted.fresh Scripted.healthy)).
  + exact set_b_10_accepted.
  + apply not_elem_of_empty.
- apply Hout.
- apply (Hadd 10); unfold GoInt.in_int64, GoInt.min_int64, GoInt.max_int64; lia.
- apply (Hsub 11); unfold GoInt.in_int64, GoInt.min_int64, GoInt.max_int64; lia.
Defined.

Lemma breakpoint_idempotence_witness :
  exists w1 w2,
    setBreakpointAndRespond Scripted.ops Scripted.set_b_10 (Scripted.fresh Scripted.healthy)
      = Done tt w1
    /\ setBreakpointAndRespond Scripted.ops Scripted.set_b_10 w1 = Done tt w2
    /\ emitted (Scripted.fresh Scripted.healthy) (Done tt w1) =
         [Lock breakpointsMux;
          ClientCall (CallCreateBreakpointAtLine "/a/b.src" (GoInt.add 10 1)
                        (breakpointKey "/a/b.src" 10));
          Respond (ReplySetBreakpointByUrl
                     {| debuggerAgent.BreakpointId := breakpointKey "/a/b.src" 10;
                        debuggerAgent.Locations := [buildLocation "/a/b.src" 10] |});
          Unlock breakpointsMux]
    /\ emitted w1 (Done tt w2) =
         [Lock breakpointsMux;
          Respond (ReplySetBreakpointByUrl
                     {| debuggerAgent.BreakpointId := breakpointKey "/a/b.src" 10;
                        debuggerAgent.Locations := [buildLocation "/a/b.src" 10] |});
          Unlock breakpointsMux]
    /\ create_calls (emitted (Scripted.fresh Scripted.healthy) (Done tt w2)) = 1%nat.
Proof.
apply (breakpoint_idempotence Scripted.ops Scripted.set_b_10 "/a/b.src"
         (Scripted.fresh Scripted.healthy)).
- exact set_b_10_accepted.
- apply not_elem_of_empty.
- reflexivity.
Defined.

Lemma fingerprint_form_witness :
  matches_a_hex40 "aaa8c0399efde1bfcfa1db7df59daecf0eb5c763c" = true.
Proof.
destruct (fingerprint_form Scripted.ops Scripted.set_b_10 (Scripted.fresh Scripted.healthy)
            {| debuggerAgent.BreakpointId := "aaa8c0399efde1bfcfa1db7df59daecf0eb5c763c";
               debuggerAgent.Locations := [buildLocation "/a/b.src" 10] |})
  as (url & digits & _ & _ & _ & _ & Hform).
- vm_compute. right. right. left. reflexivity.
- exact Hform.
Defined.

Lemma breakpoint_set_atomicity_witness :
  let w := Scripted.fresh (Scripted.failing "boom") in
  let o := setBreakpointAndRespond Scripted.ops Scripted.set_b_10 w in
  proxy_lives o
  /\ emitted w o =
       [Lock breakpointsMux;
        ClientCall (CallCreateBreakpointAtLine "/a/b.src" (GoInt.add 10 1)
                      (breakpointKey "/a/b.src" 10));
        RespondWithError shared.ErrorCodeInternalError "boom";
        Unlock breakpointsMux]
  /\ breakpoints (px (final_world o)) = breakpoints (px w)
  /\ breakpointKey "/a/b.src" 10 ∉ breakpoints (px (final_world o)).
Proof.
intros w o.
destruct (breakpoint_set_atomicity Scripted.ops Scripted.set_b_10 "/a/b.src" w
            set_b_10_accepted (not_elem_of_empty _)) as (Hlive & Hfail & _).
split; [exact Hlive | exact Hfail].
Defined.

Lemma evaluator_failure_is_data_witness :
  let command := {| debuggerAgent.EvalDestinationTargetID := EmptyString;
                    debuggerAgent.EvalCallFrameId := "0";
                    debuggerAgent.Expression := "oops" |} in
  let w := Scripted.fresh (Scripted.failing "undefined symbol") in
  let scope := {| dbgClient.GoroutineID := 0; dbgClient.Frame := 0 |} in
  let o := evaluateOnGoroutineAndRespond Scripted.ops Scripted.MakeRemoteObject command w in
  proxy_lives o
  /\ emitted w o =
       [ClientCall (CallEvalVariable scope "oops" eval_LoadConfig);
        Println "Error: undefined symbol";
        Respond (ReplyEvaluateOnCallFrame
                   {| debuggerAgent.Result := runtimeAgent.RemoteObject_zero;
                      debuggerAgent.ExceptionDetails :=
                        Some {| runtimeAgent.ExceptionId := 1;
                                runtimeAgent.Text := "undefined symbol";
                                runtimeAgent.LineNumber := -1;
                                runtimeAgent.ColumnNumber := -1 |} |})].
Proof.
intros command w scope o.
exact (evaluator_failure_is_data Scripted.ops Scripted.MakeRemoteObject command w scope
         eq_refl).
Defined.

Lemma client_failure_disposition_witness :
  let command := {| debuggerAgent.DestinationTargetID := EmptyString |} in
  let w := Scripted.fresh (Scripted.failing "boom") in
  (emitted w (stepOverAndRespond Scripted.ops Scripted.in_order command w) =
     [ClientCall (CallSwitchGoroutine 0);
      RespondWithError shared.ErrorCodeInternalError "boom"]
   /\ ~ proxy_lives (stepOverAndRespond Scripted.ops Scripted.in_order command w))
  /\ (emitted w (removeBreakpointAndRespond Scripted.ops
                   {| debuggerAgent.RemoveBreakpointId := "a00" |} w) =
        [Lock breakpointsMux;
         Unlock breakpointsMux;
         ClientCall (CallClearBreakpointByName "a00");
         RespondWithError shared.ErrorCodeInternalError "boom"]
      /\ proxy_lives (removeBreakpointAndRespond Scripted.ops
                        {| debuggerAgent.RemoveBreakpointId := "a00" |} w)).
Proof.
intros command w.
destruct (client_failure_disposition Scripted.ops Scripted.in_order "boom")
  as (Hswitch & _ & _ & Hclear).
split.
- apply (Hswitch (stepOverAndRespond Scripted.ops Scripted.in_order) command w w).
  + left. reflexivity.
  + reflexivity.
  + reflexivity.
- apply (Hclear {| debuggerAgent.RemoveBreakpointId := "a00" |} w). reflexivity.
Defined.

Lemma pause_snapshot_step_order_witness :
  let w := Scripted.fresh Scripted.not_paused in
  let w1 := mkWorld (px w) Scripted.not_paused [ClientCall CallGetState] 0 in
  let o := sendPauseState Scripted.ops Scripted.in_order w in
  o = match syncGoroutines Scripted.ops Scripted.in_order w1 with
      | Done _ w2 => Panicked (PanicString "Called sendPauseState() but not paused.") w2
      | Panicked v w2 => Panicked v w2
      end
  /\ exists sync,
       emitted w o = ClientCall CallGetState
                     :: Lock activeTargetsMux
                     :: ClientCall CallListGoroutines
                     :: sync ++ [Unlock activeTargetsMux].
Proof.
intros w w1 o.
exact (pause_snapshot_step_order Scripted.ops Scripted.in_order in_order_perm w).
Defined.

Lemma active_before_others_witness :
  let es := emitted (Scripted.fresh Scripted.healthy)
              (sendPauseState Scripted.ops Scripted.in_order
                 (Scripted.fresh Scripted.healthy)) in
  (exists active, es !! 10%nat = Some (FirePaused active))
  /\ (exists other, es !! 11%nat = Some (FirePausedOnTarget "1" other))
  /\ (10 < 11)%nat.
Proof.
intros es.
split; [eexists; vm_compute; reflexivity |].
split; [eexists; vm_compute; reflexivity |].
eapply (active_before_others Scripted.ops Scripted.in_order in_order_perm
          (Scripted.fresh Scripted.healthy) 10 11 _ _ "1"); vm_compute; reflexivity.
Defined.

Lemma attached_target_title_witness :
  exists info,
    emitted (Scripted.fresh Scripted.healthy)
      (Attach {| ID := 7 |} Scripted.worker_routine (Scripted.fresh Scripted.healthy)) =
      [FireAttachedToTarget {| targetAgent.TargetInfo_ := info;
                               targetAgent.WaitingForDebugger := false |}]
    /\ targetAgent.Title info = "tt"
    /\ targetAgent.Url info = "7: worker".
Proof.
destruct (attached_target_title {| ID := 7 |} Scripted.worker_routine
            (Scripted.fresh Scripted.healthy)) as (info & Hem & Htitle & _ & Hurl & _).
exists info. split; [exact Hem |]. split; [exact Htitle |].
rewrite Hurl. vm_compute. reflexivity.
Defined.

Lemma active_routine_after_sync_witness :
  exists w',
    syncGoroutines Scripted.ops Scripted.in_order (Scripted.fresh Scripted.healthy) = Done tt w'
    /\ activeTargets (px w') <> ∅
    /\ is_Some (activeTargets (px w') !! activeGoroutineID (px w')).
Proof.
destruct (active_routine_after_sync Scripted.ops Scripted.in_order in_order_perm
            (Scripted.fresh Scripted.healthy)) as [Hinv Hdone].
destruct (Hdone eq_refl) as [w' Hrun].
exists w'. split; [exact Hrun |].
assert (Hne : activeTargets (px w') <> ∅).
{ vm_compute in Hrun. injection Hrun as <-. intros Hempty.
  apply (f_equal (fun m => m !! 1)) in Hempty. vm_compute in Hempty. discriminate. }
split; [exact Hne |]. apply (Hinv w' Hrun). exact Hne.
Defined.

(** ** Where the code departs from the specification *)

(** A failing [SwitchGoroutine] inside StepOver is answered with an
    internal-error, but the handler then panics: the proxy does not keep
    running. *)
Lemma step_failure_is_fatal :
  let command := {| debuggerAgent.DestinationTargetID := EmptyString |} in
  let w := Scripted.fresh (Scripted.failing "boom") in
  let o := stepOverAndRespond Scripted.ops Scripted.in_order command w in
  emitted w o = [ClientCall (CallSwitchGoroutine 0);
                 RespondWithError shared.ErrorCodeInternalError "boom"]
  /\ (exists w', o = Panicked (PanicError "boom") w')
  /\ ~ proxy_lives o.
Proof.
vm_compute. split; [reflexivity |]. split; [eexists; reflexivity | tauto].
Qed.

(** With a debugger that reports no state, the routine sync has already
    listed the routines and attached two targets when the not-paused check
    panics. *)
Lemma sync_runs_before_not_paused_check :
  let w := Scripted.fresh Scripted.not_paused in
  let o := sendPauseState Scripted.ops Scripted.in_order w in
  (exists w', o = Panicked (PanicString "Called sendPauseState() but not paused.") w')
  /\ emitted w o =
       [ClientCall CallGetState;
        Lock activeTargetsMux;
        ClientCall CallListGoroutines;
        FireAttachedToTarget
          {| targetAgent.TargetInfo_ :=
               {| targetAgent.TargetId := "1"; targetAgent.Type_ := "node";
                  targetAgent.Title := "tt"; targetAgent.Url := "1: main" |};
             targetAgent.WaitingForDebugger := false |};
        FireAttachedToTarget
          {| targetAgent.TargetInfo_ :=
               {| targetAgent.TargetId := "7"; targetAgent.Type_ := "node";
                  targetAgent.Title := "tt"; targetAgent.Url := "7: worker" |};
             targetAgent.WaitingForDebugger := false |};
        Unlock activeTargetsMux]
  /\ activeTargets (px (final_world o)) !! 1 = Some {| ID := 1 |}
  /\ activeTargets (px (final_world o)) !! 7 = Some {| ID := 7 |}.
Proof.
vm_compute. split; [eexists; reflexivity |]. repeat split.
Qed.

(** Two routines with different function short names are announced with
    the same Title; only the Url tells them apart. *)
Lemma attached_title_ignores_function_name :
  let w := Scripted.fresh Scripted.healthy in
  short_name "main.worker" = "worker"
  /\ short_name "main.main" = "main"
  /\ emitted w (Attach {| ID := 7 |} Scripted.worker_routine w) =
       [FireAttachedToTarget
          {| targetAgent.TargetInfo_ :=
               {| targetAgent.TargetId := "7"; targetAgent.Type_ := "node";
                  targetAgent.Title := "tt"; targetAgent.Url := "7: worker" |};
             targetAgent.WaitingForDebugger := false |}]
  /\ emitted w (Attach {| ID := 1 |} Scripted.main_routine w) =
       [FireAttachedToTarget
          {| targetAgent.TargetInfo_ :=
               {| targetAgent.TargetId := "1"; targetAgent.Type_ := "node";
                  targetAgent.Title := "tt"; targetAgent.Url := "1: main" |};
             targetAgent.WaitingForDebugger := false |}].
Proof.
vm_compute. repeat split.
Qed.


(** * Further properties of the code *)

(** ** Decimal ids: [fmt.Sprintf("%d")] against [strconv.Atoi] *)

Lemma of_uint_acc_value (u : Decimal.uint) (acc : positive) :
  Z.pos (Pos.of_uint_acc u acc) = uint_value (Z.pos acc) u.
Proof.
revert acc. induction u; intros acc; simpl; try reflexivity;
  rewrite IHu; f_equal; lia.
Qed.

Lemma of_uint_value (u : Decimal.uint) : Z.of_N (Pos.of_uint u) = uint_value 0 u.
Proof.
induction u; simpl; try reflexivity; try exact IHu; apply of_uint_acc_value.
Qed.

Lemma to_uint_value (p : positive) : uint_value 0 (Pos.to_uint p) = Z.pos p.
Proof. rewrite <- of_uint_value, DecimalPos.Unsigned.of_to. reflexivity. Qed.

Lemma parse_digits_uint (u : Decimal.uint) (acc : Z) :
  GoInt.parse_digits acc (NilEmpty.string_of_uint u) = Some (uint_value acc u).
Proof.
revert acc. induction u; intros acc; simpl; try reflexivity; apply IHu.
Qed.

Lemma string_of_uint_nonnil (u : Decimal.uint) :
  u <> Decimal.Nil -> NilZero.string_of_uint u = NilEmpty.string_of_uint u.
Proof. destruct u; [contradiction | reflexivity ..]. Qed.

Lemma string_of_uint_digit (u : Decimal.uint) :
  u <> Decimal.Nil ->
  exists c rest, NilEmpty.string_of_uint u = String c rest /\ GoInt.is_digit c = true.
Proof. destruct u; [contradiction | simpl; eauto ..]. Qed.

Lemma Atoi_unsigned (c : ascii) (rest : string) :
  GoInt.is_digit c = true ->
  GoInt.Atoi (String c rest) =
    match GoInt.parse_digits 0 (String c rest) with
    | None => None
    | Some n =>
        if ((GoInt.min_int64 <=? n)%Z && (n <=? GoInt.max_int64)%Z)%bool then Some n else None
    end.
Proof.
destruct c as [[] [] [] [] [] [] [] []]; intros Hd; try discriminate Hd; reflexivity.
Qed.

Lemma Atoi_fmt_d_pos (p : positive) :
  Z.pos p <= GoInt.max_int64 -> GoInt.Atoi (GoInt.fmt_d (Z.pos p)) = Some (Z.pos p).
Proof.
intros Hmax. unfold GoInt.fmt_d. simpl Z.to_int. simpl NilZero.string_of_int.
pose proof (Unsigned.to_uint_nonnil p) as Hnn.
rewrite (string_of_uint_nonnil _ Hnn).
destruct (string_of_uint_digit _ Hnn) as (c & rest & Hs & Hc).
rewrite Hs, (Atoi_unsigned c rest Hc), <- Hs, parse_digits_uint, to_uint_value.
assert (Hlo : (GoInt.min_int64 <=? Z.pos p)%Z = true)
  by (apply Z.leb_le; unfold GoInt.min_int64; lia).
assert (Hhi : (Z.pos p <=? GoInt.max_int64)%Z = true) by (apply Z.leb_le; exact Hmax).
rewrite Hlo, Hhi. reflexivity.
Qed.

Lemma Atoi_negative (body : string) :
  GoInt.Atoi (String "-" body) =
    match body with
    | EmptyString => None
    | _ =>
        match GoInt.parse_digits 0 body with
        | None => None
        | Some n =>
            if ((GoInt.min_int64 <=? - n)%Z && (- n <=? GoInt.max_int64)%Z)%bool
            then Some (- n) else None
        end
    end.
Proof. reflexivity. Qed.

Lemma Atoi_fmt_d_neg (p : positive) :
  GoInt.min_int64 <= Z.neg p -> GoInt.Atoi (GoInt.fmt_d (Z.neg p)) = Some (Z.neg p).
Proof.
intros Hmin. unfold GoInt.fmt_d. simpl Z.to_int. simpl NilZero.string_of_int.
pose proof (Unsigned.to_uint_nonnil p) as Hnn.
rewrite (string_of_uint_nonnil _ Hnn), Atoi_negative.
destruct (string_of_uint_digit _ Hnn) as (c & rest & Hs & Hc).
rewrite Hs at 1. rewrite parse_digits_uint, to_uint_value.
assert (Hlo : (GoInt.min_int64 <=? - Z.pos p)%Z = true)
  by (apply Z.leb_le; exact Hmin).
assert (Hhi : (- Z.pos p <=? GoInt.max_int64)%Z = true)
  by (apply Z.leb_le; unfold GoInt.max_int64; lia).
rewrite Hlo, Hhi. reflexivity.
Qed.

(** Decimal round trip: parsing the decimal rendering of an [int] gives
    the number back. *)
Lemma Atoi_fmt_d (z : Z) :
  GoInt.in_int64 z -> GoInt.Atoi (GoInt.fmt_d z) = Some z.
Proof.
intros [Hlo Hhi]. destruct z as [| p | p].
- reflexivity.
- apply Atoi_fmt_d_pos, Hhi.
- apply Atoi_fmt_d_neg, Hlo.
Qed.

Lemma fmt_d_parse (z : Z) :
  NilZero.int_of_string (GoInt.fmt_d z) = Some (Z.to_int z).
Proof.
unfold GoInt.fmt_d. apply NilZero.isi; destruct z; simpl; try discriminate;
  intros [= H]; exact (Unsigned.to_uint_nonnil _ H).
Qed.

Lemma fmt_d_inj (z1 z2 : Z) : GoInt.fmt_d z1 = GoInt.fmt_d z2 -> z1 = z2.
Proof.
intros H. apply DecimalZ.to_int_inj.
pose proof (fmt_d_parse z1) as H1. rewrite H, fmt_d_parse in H1. congruence.
Qed.

Lemma string_of_uint_no_colon (u : Decimal.uint) :
  has_colon (NilEmpty.string_of_uint u) = false.
Proof. induction u; simpl; auto. Qed.

Lemma fmt_d_no_colon (z : Z) : has_colon (GoInt.fmt_d z) = false.
Proof.
unfold GoInt.fmt_d. destruct z as [| p | p]; [reflexivity | |]; simpl Z.to_int;
  simpl NilZero.string_of_int;
  rewrite (string_of_uint_nonnil _ (Unsigned.to_uint_nonnil p)); simpl;
  apply string_of_uint_no_colon.
Qed.

Lemma has_colon_app (s1 s2 : string) :
  has_colon (s1 ++ s2)%string = has_colon s1 || has_colon s2.
Proof.
induction s1 as [| c s1 IH]; simpl; [reflexivity |].
rewrite IH, orb_assoc. reflexivity.
Qed.

Lemma last_colon_split (s1 s2 d1 d2 : string) :
  has_colon d1 = false -> has_colon d2 = false ->
  (s1 ++ String ":" d1 = s2 ++ String ":" d2)%string ->
  s1 = s2 /\ d1 = d2.
Proof.
revert s2. induction s1 as [| c s1 IH]; intros s2 H1 H2 Heq.
- destruct s2 as [| c2 s2]; simpl in Heq.
  + injection Heq as ->. auto.
  + injection Heq as <- ->. rewrite has_colon_app in H1. simpl in H1.
    rewrite orb_true_r in H1. discriminate.
- destruct s2 as [| c2 s2]; simpl in Heq.
  + injection Heq as -> <-. rewrite has_colon_app in H2. simpl in H2.
    rewrite orb_true_r in H2. discriminate.
  + injection Heq as <- Heq. destruct (IH s2 H1 H2 Heq) as [-> ->]. auto.
Qed.

(** The string that is hashed into a fingerprint determines the
    breakpoint. *)
Lemma fingerprint_input_inj (url1 url2 : string) (line1 line2 : Z) :
  fingerprint_input url1 line1 = fingerprint_input url2 line2 ->
  url1 = url2 /\ line1 = line2.
Proof.
unfold fingerprint_input. intros Heq.
destruct (last_colon_split url1 url2 (GoInt.fmt_d line1) (GoInt.fmt_d line2)
            (fmt_d_no_colon line1) (fmt_d_no_colon line2) Heq) as [-> Hd].
split; [reflexivity | apply fmt_d_inj, Hd].
Qed.

Lemma breakpointKey_fingerprint_input (url : string) (line : Z) :
  breakpointKey url line
  = String "a" (GoFmt.hex (SHA1.Sum (GoStrings.bytes_of (fingerprint_input url line)))).
Proof. reflexivity. Qed.

(** X2. Distinct breakpoints get distinct ids unless SHA-1 collides: if
    two (url, line) pairs have the same fingerprint, either they are the
    same pair or their distinct input strings have the same digest. *)
Theorem breakpointKey_collision (url1 url2 : string) (line1 line2 : Z) :
  breakpointKey url1 line1 = breakpointKey url2 line2 ->
  (url1 = url2 /\ line1 = line2)
  \/ (fingerprint_input url1 line1 <> fingerprint_input url2 line2
      /\ SHA1.Sum (GoStrings.bytes_of (fingerprint_input url1 line1))
         = SHA1.Sum (GoStrings.bytes_of (fingerprint_input url2 line2))).
Proof.
rewrite !breakpointKey_fingerprint_input. intros [= Hhex].
assert (Hsum : SHA1.Sum (GoStrings.bytes_of (fingerprint_input url1 line1))
               = SHA1.Sum (GoStrings.bytes_of (fingerprint_input url2 line2))).
{ pose proof (unhex_hex _ (Sum_range (GoStrings.bytes_of (fingerprint_input url1 line1))))
    as H1.
  rewrite Hhex, unhex_hex in H1 by apply Sum_range. congruence. }
destruct (decide (fingerprint_input url1 line1 = fingerprint_input url2 line2)) as [Heq | Hne].
- left. apply fingerprint_input_inj, Heq.
- right. auto.
Qed.

(** ** More on the breakpoint handlers *)

Section BreakpointMore.

Context {C : Type}.
Variable client_ops : dbgClient.Ops C.

Lemma removeBreakpoint_eq (command : debuggerAgent.RemoveBreakpointCommand) (w : World C) :
  let id := debuggerAgent.RemoveBreakpointId command in
  let answer := dbgClient.ClearBreakpointByName client_ops (client w) id in
  removeBreakpointAndRespond client_ops command w =
    Done tt (mkWorld (set_breakpoints (fun s => s ∖ {[ id ]}) (px w)) (fst answer)
               (trace w ++ [Lock breakpointsMux;
                            Unlock breakpointsMux;
                            ClientCall (CallClearBreakpointByName id);
                            match snd answer with
                            | Some cause => RespondWithError shared.ErrorCodeInternalError cause
                            | None => Respond ReplyEmpty
                            end])
               (ranges w)).
Proof.
simpl. unfold removeBreakpointAndRespond. run_monad.
destruct (dbgClient.ClearBreakpointByName client_ops (client w)
            (debuggerAgent.RemoveBreakpointId command)) as [c' [cause |]]; simpl;
  rewrite <- !app_assoc; reflexivity.
Qed.

(** X3. [RemoveBreakpoint] forgets the id before it asks the debugger and
    never puts it back: whatever [ClearBreakpointByName] answers, and
    whether or not the id was recorded, the handler returns, the set
    afterwards is the old set without the id, the debugger is asked exactly
    once, after the lock is released, and the answer of the debugger decides
    between an empty success response and an internal-error. *)
Theorem removeBreakpoint_forgets (command : debuggerAgent.RemoveBreakpointCommand)
    (w : World C) :
  let id := debuggerAgent.RemoveBreakpointId command in
  let o := removeBreakpointAndRespond client_ops command w in
  proxy_lives o
  /\ (id ∉ breakpoints (px (final_world o)))
  /\ (forall other, other <> id ->
        (other ∈ breakpoints (px (final_world o)) <-> other ∈ breakpoints (px w)))
  /\ activeTargets (px (final_world o)) = activeTargets (px w)
  /\ activeGoroutineID (px (final_world o)) = activeGoroutineID (px w)
  /\ exists answer,
       emitted w o = [Lock breakpointsMux; Unlock breakpointsMux;
                      ClientCall (CallClearBreakpointByName id); answer]
       /\ (snd (dbgClient.ClearBreakpointByName client_ops (client w) id) = None ->
           answer = Respond ReplyEmpty)
       /\ (forall cause,
             snd (dbgClient.ClearBreakpointByName client_ops (client w) id) = Some cause ->
             answer = RespondWithError shared.ErrorCodeInternalError cause).
Proof.
intros id o. subst o. rewrite removeBreakpoint_eq. fold id. simpl.
split; [exact I |]. split; [set_solver |]. split; [intros other Hne; set_solver |].
split; [reflexivity |]. split; [reflexivity |].
eexists. split; [apply emitted_mk |].
split; [intros -> | intros cause ->]; reflexivity.
Qed.

(** X4. A [SetBreakpointByUrl] command that fails a parameter check is
    answered with invalid-params and nothing else happens: no lock is
    taken, the debugger is not called, and the proxy state is what it was.
    A command with a urlRegex is turned down for the regex whatever its
    other fields are. *)
Theorem setBreakpoint_rejection (command : debuggerAgent.SetBreakpointByUrlCommand)
    (w : World C) :
  let o := setBreakpointAndRespond client_ops command w in
  ((forall url, ~ accepted command url) ->
   exists msg,
     emitted w o = [RespondWithError shared.ErrorCodeInvalidParams msg]
     /\ proxy_lives o
     /\ px (final_world o) = px w
     /\ client (final_world o) = client w)
  /\ (debuggerAgent.UrlRegex command <> None ->
      emitted w o = [RespondWithError shared.ErrorCodeInvalidParams "urlRegex not available"])
  /\ (debuggerAgent.UrlRegex command = None ->
      debuggerAgent.ColumnNumber command = None ->
      debuggerAgent.Condition command = None ->
      debuggerAgent.CmdUrl command = None ->
      emitted w o = [RespondWithError shared.ErrorCodeInvalidParams "url must be set"]).
Proof.
intros o. subst o. split; [| split].
- intros Hrej. destruct (setBreakpoint_rejected client_ops command w Hrej) as [msg ->].
  exists msg. unfold add_trace. rewrite emitted_mk. simpl. auto.
- intros Hre. unfold setBreakpointAndRespond.
  destruct (debuggerAgent.UrlRegex command); [| contradiction].
  apply emitted_mk.
- intros Hre Hcol Hcond Hurl. unfold setBreakpointAndRespond.
  rewrite Hre, Hcol, Hcond, Hurl. apply emitted_mk.
Qed.

(** X5. [SetBreakpointByUrl] never panics and never drops a recorded
    breakpoint: for every command, every client and every state, the
    handler returns, each fingerprint recorded before is recorded after,
    the only fingerprint that can be new is the one of the command, and the
    targets and the active routine are untouched. *)
Theorem setBreakpoint_only_adds (command : debuggerAgent.SetBreakpointByUrlCommand)
    (w : World C) :
  let o := setBreakpointAndRespond client_ops command w in
  proxy_lives o
  /\ breakpoints (px w) ⊆ breakpoints (px (final_world o))
  /\ (forall id,
        id ∈ breakpoints (px (final_world o)) ->
        id ∈ breakpoints (px w)
        \/ exists url, debuggerAgent.CmdUrl command = Some url
                       /\ id = breakpointKey url (debuggerAgent.CmdLineNumber command))
  /\ activeTargets (px (final_world o)) = activeTargets (px w)
  /\ activeGoroutineID (px (final_world o)) = activeGoroutineID (px w)
  /\ fileList (px (final_world o)) = fileList (px w).
Proof.
intros o. subst o.
destruct (accepted_or_rejected command) as [[url Hacc] | Hrej].
- rewrite (setBreakpoint_accepted client_ops command url w Hacc). simpl.
  destruct (decide _) as [Hmem | Hfresh].
  + simpl. split; [exact I |]. split; [reflexivity |]. split; [auto |]. auto.
  + destruct (dbgClient.CreateBreakpointAtLine _ _ _ _ _) as [c' [e |]]; simpl.
    * split; [exact I |]. split; [set_solver |]. split; [| auto].
      intros id Hid. left. set_solver.
    * split; [exact I |]. split; [set_solver |]. split; [| auto].
      intros id Hid. apply elem_of_union in Hid. destruct Hid as [Hid | Hid]; [| auto].
      right. exists url. split; [apply Hacc | set_solver].
- destruct (setBreakpoint_rejected client_ops command w Hrej) as [msg ->]. simpl.
  split; [exact I |]. split; [reflexivity |]. split; [auto |]. auto.
Qed.

(** X6. Remove undoes Set: after an accepted breakpoint that was not yet
    recorded is set (the debugger acknowledging it) and then removed by the
    id that was returned, the breakpoint set is the one before the two
    commands, and setting the same breakpoint again reaches the debugger
    again, so that the three commands make exactly two
    [CreateBreakpointAtLine] calls. *)
Theorem set_remove_set (command : debuggerAgent.SetBreakpointByUrlCommand)
    (url : string) (w : World C) :
  let line := debuggerAgent.CmdLineNumber command in
  let key := breakpointKey url line in
  let remove := {| debuggerAgent.RemoveBreakpointId := key |} in
  accepted command url ->
  key ∉ breakpoints (px w) ->
  snd (dbgClient.CreateBreakpointAtLine client_ops (client w) url (GoInt.add line 1) key)
    = None ->
  exists w1 w2 w3,
    setBreakpointAndRespond client_ops command w = Done tt w1
    /\ key ∈ breakpoints (px w1)
    /\ removeBreakpointAndRespond client_ops remove w1 = Done tt w2
    /\ breakpoints (px w2) = breakpoints (px w)
    /\ setBreakpointAndRespond client_ops command w2 = Done tt w3
    /\ create_calls (emitted w (Done tt w3)) = 2%nat.
Proof.
intros line key remove Hacc Hfresh Hok.
pose proof (setBreakpoint_accepted client_ops command url w Hacc) as H1.
simpl in H1. fold line in H1. fold key in H1.
destruct (decide (key ∈ breakpoints (px w))) as [Hmem | _]; [contradiction |].
destruct (dbgClient.CreateBreakpointAtLine client_ops (client w) url (GoInt.add line 1) key)
  as [c1 err]. simpl in Hok. subst err.
match type of H1 with _ = Done tt ?x => set (w1 := x) in * end.
pose proof (removeBreakpoint_eq remove w1) as H2. simpl in H2.
match type of H2 with _ = Done tt ?x => set (w2 := x) in * end.
assert (Hback : breakpoints (px w2) = breakpoints (px w)).
{ subst w2 w1. simpl. apply set_eq. intros x.
  rewrite elem_of_difference, elem_of_union, elem_of_singleton.
  split; [tauto |]. intros Hx. split; [auto |]. intros ->. contradiction. }
pose proof (setBreakpoint_accepted client_ops command url w2 Hacc) as H3.
cbv zeta in H3. fold line in H3. fold key in H3. rewrite Hback in H3.
destruct (decide (key ∈ breakpoints (px w))) as [Hmem | _]; [contradiction |].
destruct (dbgClient.CreateBreakpointAtLine client_ops (client w2) url (GoInt.add line 1) key)
  as [c3 [e |]];
  (match type of H3 with _ = Done tt ?x => exists w1, w2, x end;
   split; [exact H1 |]; split; [subst w1; simpl; set_solver |];
   split; [exact H2 |]; split; [exact Hback |]; split; [exact H3 |];
   subst w2 w1; simpl; rewrite <- !app_assoc; rewrite emitted_mk;
   destruct (snd _); reflexivity).
Qed.

End BreakpointMore.

(** ** More on the routine sync *)

Lemma attached_ids_app (es1 es2 : list effect) :
  attached_ids (es1 ++ es2) = attached_ids es1 ++ attached_ids es2.
Proof. apply omap_app. Qed.

Lemma detached_ids_app (es1 es2 : list effect) :
  detached_ids (es1 ++ es2) = detached_ids es1 ++ detached_ids es2.
Proof. apply omap_app. Qed.

Lemma attached_ids_scripts (target : string) (files : list string) :
  attached_ids (map (script_parsed_on target) files) = [].
Proof. induction files as [| file rest IH]; [reflexivity | exact IH]. Qed.

Lemma detached_ids_announcement (es : list effect) :
  Forall announcement es -> detached_ids es = [].
Proof.
induction 1 as [| e rest He _ IH]; [reflexivity |].
destruct e; try contradiction; exact IH.
Qed.

Lemma detached_ids_events (visited : list (Z * Target)) :
  detached_ids (map (fun e => detached_event e.2) visited)
  = map (fun e => GoInt.fmt_d (ID e.2)) visited.
Proof.
induction visited as [| e rest IH]; [reflexivity |].
simpl. unfold detached_ids in *. simpl. rewrite IH. reflexivity.
Qed.

Lemma attached_ids_detached_events (visited : list (Z * Target)) :
  attached_ids (map (fun e => detached_event e.2) visited) = [].
Proof. induction visited as [| e rest IH]; [reflexivity | exact IH]. Qed.

Lemma sweep_lookup (found : gset Z) (entries : list (Z * Target)) (m : gmap Z Target) (k : Z) :
  foldl (fun m e => if decide (e.1 ∈ found) then m else delete e.1 m) m entries !! k
  = if decide ((k ∉ found) /\ k ∈ map fst entries) then None else m !! k.
Proof.
revert m. induction entries as [| [i t] rest IH]; intros m; simpl.
- destruct (decide _) as [[_ Hin] |]; [| reflexivity]. inversion Hin.
- rewrite IH. simpl.
  destruct (decide ((k ∉ found) /\ k ∈ map fst rest)) as [[Hk Hin] | Hno].
  + rewrite decide_True; [reflexivity |]. split; [exact Hk | right; exact Hin].
  + destruct (decide (i ∈ found)) as [Hi | Hi].
    * destruct (decide ((k ∉ found) /\ k ∈ i :: map fst rest)) as [[Hk Hin] |]; [| reflexivity].
      exfalso. apply elem_of_cons in Hin. destruct Hin as [-> | Hin]; tauto.
    * destruct (decide (k = i)) as [-> | Hne].
      -- rewrite lookup_delete_eq. rewrite decide_True; [reflexivity |].
         split; [exact Hi | left].
      -- rewrite lookup_delete_ne by congruence.
         rewrite decide_False; [reflexivity |].
         intros [Hk Hin]. apply elem_of_cons in Hin. destruct Hin as [-> | Hin]; tauto.
Qed.

Section SyncMore.

Context {C : Type}.
Variable client_ops : dbgClient.Ops C.
Variable range_order : nat -> forall A : Type, list A -> list A.

(** Go's map iteration visits every entry exactly once. *)
Hypothesis range_order_perm :
  forall (n : nat) (A : Type) (entries : list A), Permutation (range_order n A entries) entries.

(** The state and the effects of a sync whose [ListGoroutines] call is
    answered with [routines]. *)
Lemma syncGoroutines_result (w : World C) (c1 : C) (routines : list dbgClient.Goroutine) :
  dbgClient.ListGoroutines client_ops (client w) = (c1, (routines, None)) ->
  exists w' attach visited,
    syncGoroutines client_ops range_order w = Done tt w'
    /\ client w' = c1
    /\ fileList (px w') = fileList (px w)
    /\ breakpoints (px w') = breakpoints (px w)
    /\ (forall k, activeTargets (px w') !! k =
          if decide (k ∈ map dbgClient.ID routines)
          then match activeTargets (px w) !! k with
               | Some t => Some t
               | None => Some {| ID := k |}
               end
          else None)
    /\ (is_Some (activeTargets (px w') !! activeGoroutineID (px w)) ->
        activeGoroutineID (px w') = activeGoroutineID (px w))
    /\ trace w' = trace w ++ [Lock activeTargetsMux; ClientCall CallListGoroutines]
                     ++ attach ++ map (fun e => detached_event e.2) visited
                     ++ [Unlock activeTargetsMux]
    /\ Forall announcement attach
    /\ NoDup (attached_ids attach)
    /\ (forall s, s ∈ attached_ids attach <->
                  exists k, k ∈ map dbgClient.ID routines
                            /\ activeTargets (px w) !! k = None
                            /\ s = GoInt.fmt_d k)
    /\ ((forall k, k ∈ map dbgClient.ID routines -> is_Some (activeTargets (px w) !! k)) ->
        attach = [])
    /\ visited ≡ₚ filter (fun e => e.1 ∉ map dbgClient.ID routines)
                         (map_to_list (activeTargets (px w))).
Proof.
intros Hlist. unfold syncGoroutines.
unfold bind at 1. unfold emit at 1.
set (w0 := mkWorld (px w) (client w) (trace w ++ [Lock activeTargetsMux]) (ranges w)).
match goal with
| |- exists w' attach visited, with_defer _ ?body w0 = _ /\ _ =>
    assert (Hbody : exists w4 attach visited,
               body w0 = Done tt w4
               /\ client w4 = c1
               /\ fileList (px w4) = fileList (px w)
               /\ breakpoints (px w4) = breakpoints (px w)
               /\ (forall k, activeTargets (px w4) !! k =
                     if decide (k ∈ map dbgClient.ID routines)
                     then match activeTargets (px w) !! k with
                          | Some t => Some t
                          | None => Some {| ID := k |}
                          end
                     else None)
               /\ (is_Some (activeTargets (px w4) !! activeGoroutineID (px w)) ->
                   activeGoroutineID (px w4) = activeGoroutineID (px w))
               /\ trace w4 = trace w ++ [Lock activeTargetsMux; ClientCall CallListGoroutines]
                               ++ attach ++ map (fun e => detached_event e.2) visited
               /\ Forall announcement attach
               /\ NoDup (attached_ids attach)
               /\ (forall s, s ∈ attached_ids attach <->
                             exists k, k ∈ map dbgClient.ID routines
                                       /\ activeTargets (px w) !! k = None
                                       /\ s = GoInt.fmt_d k)
               /\ ((forall k, k ∈ map dbgClient.ID routines ->
                               is_Some (activeTargets (px w) !! k)) ->
                   attach = [])
               /\ visited ≡ₚ filter (fun e => e.1 ∉ map dbgClient.ID routines)
                                    (map_to_list (activeTargets (px w))))
end.
2: { destruct Hbody as (w4 & attach & visited & Hrun & Hc & Hf & Hb & Hm & Ha & Ht & Hrest).
     unfold with_defer. rewrite Hrun. unfold emit.
     eexists. exists attach, visited. split; [reflexivity |]. cbn [px client trace].
     do 5 (split; [assumption |]). split; [| exact Hrest].
     rewrite Ht. repeat rewrite <- app_assoc. reflexivity. }
unfold bind at 1. unfold call at 1. cbn [client px trace ranges w0].
rewrite Hlist. clear w0.
set (w1 := mkWorld (px w) c1
             ((trace w ++ [Lock activeTargetsMux]) ++ [ClientCall CallListGoroutines])
             (ranges w)).
match goal with
| |- context [fold_each routines ∅ ?body] =>
    assert (Hloop : forall rs found w0, exists m' es,
               fold_each rs found body w0
               = Done (list_to_set (map dbgClient.ID rs) ∪ found)
                      (mkWorld (set_activeTargets (fun _ => m') (px w0)) (client w0)
                               (trace w0 ++ es) (ranges w0))
               /\ (forall k, m' !! k =
                     match activeTargets (px w0) !! k with
                     | Some t => Some t
                     | None => if decide (k ∈ map dbgClient.ID rs)
                               then Some {| ID := k |} else None
                     end)
               /\ Forall announcement es
               /\ NoDup (attached_ids es)
               /\ (forall s, s ∈ attached_ids es <->
                             exists k, k ∈ map dbgClient.ID rs
                                       /\ activeTargets (px w0) !! k = None
                                       /\ s = GoInt.fmt_d k)
               /\ ((forall k, k ∈ map dbgClient.ID rs ->
                               is_Some (activeTargets (px w0) !! k)) ->
                   es = []))
end.
{ induction rs as [| r rest IH]; intros found w0.
  - exists (activeTargets (px w0)), []. simpl. split.
    + unfold ret. f_equal; [set_solver |].
      destruct w0 as [[m f a b] c t n]. simpl. rewrite app_nil_r. reflexivity.
    + split; [intros k; destruct (activeTargets (px w0) !! k); reflexivity |].
      split; [constructor |]. split; [constructor |].
      split; [| reflexivity].
      intros s. split; [intros Hs; inversion Hs |].
      intros (k & Hk & _). inversion Hk.
  - simpl. unfold bind at 1. unfold bind at 1. unfold get_proxy at 1.
    destruct (activeTargets (px w0) !! dbgClient.ID r) as [t |] eqn:Hlook.
    + unfold ret at 1.
      destruct (IH ({[dbgClient.ID r]} ∪ found) w0)
        as (m' & es & Hrun & Hm & Hann & Hnd & Hiff & Hnil).
      exists m', es. rewrite Hrun. split; [f_equal; set_solver |].
      split.
      { intros k. rewrite Hm. destruct (activeTargets (px w0) !! k) eqn:Hk; [reflexivity |].
        destruct (decide (k ∈ map dbgClient.ID rest)) as [Hin | Hout].
        - rewrite decide_True; [reflexivity | right; exact Hin].
        - rewrite decide_False; [reflexivity |].
          intros Hin. apply elem_of_cons in Hin. destruct Hin as [-> | Hin]; [congruence | tauto]. }
      split; [exact Hann |]. split; [exact Hnd |].
      split; [| intros Hall; apply Hnil; intros k Hk; apply Hall; right; exact Hk].
      intros s. rewrite Hiff. split; intros (k & Hk & Hnone & ->); exists k.
      * split; [right; exact Hk | auto].
      * split; [| auto].
        apply elem_of_cons in Hk. destruct Hk as [-> | Hk]; [congruence | exact Hk].
    + unfold bind at 1. rewrite Attach_run.
      unfold bind at 1. unfold modify_proxy at 1. unfold ret at 1.
      cbn [px client trace ranges add_trace].
      match goal with
      | |- exists m' es, fold_each rest _ _ ?wa = _ /\ _ =>
          destruct (IH ({[dbgClient.ID r]} ∪ found) wa)
            as (m' & es & Hrun & Hm & Hann & Hnd & Hiff & _)
      end.
      cbn [px client trace ranges] in Hrun, Hm, Hiff.
      eexists m', (_ ++ es). rewrite Hrun. split.
      { f_equal; [set_solver |]. rewrite <- app_assoc. reflexivity. }
      split.
      { intros k. rewrite Hm. simpl.
        destruct (decide (k = dbgClient.ID r)) as [-> | Hne].
        - rewrite lookup_insert_eq, Hlook. rewrite decide_True; [reflexivity | left].
        - rewrite lookup_insert_ne by congruence.
          destruct (activeTargets (px w0) !! k); [reflexivity |].
          destruct (decide (k ∈ map dbgClient.ID rest)) as [Hin | Hout].
          + rewrite decide_True; [reflexivity | right; exact Hin].
          + rewrite decide_False; [reflexivity |].
            intros Hin. apply elem_of_cons in Hin. destruct Hin as [-> | Hin]; tauto. }
      split.
      { apply Forall_app. split; [| exact Hann].
        constructor; [exact I |]. apply Forall_forall.
        intros e He. apply list_elem_of_fmap in He. destruct He as (file & -> & _). exact I. }
      rewrite attached_ids_app. simpl.
      change (attached_ids (?e :: map ?g ?l)) with
        (targetAgent.TargetId (targetAgent.TargetInfo_
           {| targetAgent.TargetInfo_ :=
                {| targetAgent.TargetId := GoInt.fmt_d (dbgClient.ID r);
                   targetAgent.Type_ := "node";
                   targetAgent.Title := "tt";
                   targetAgent.Url :=
                     (GoInt.fmt_d (dbgClient.ID r) ++ ":" ++ attach_name r)%string |};
              targetAgent.WaitingForDebugger := false |})
         :: attached_ids (map g l)).
      rewrite attached_ids_scripts. simpl.
      split.
      { apply NoDup_cons. split; [| exact Hnd].
        intros Hin. apply Hiff in Hin. destruct Hin as (k & _ & Hnone & Heq).
        apply fmt_d_inj in Heq. subst k. simpl in Hnone.
        rewrite lookup_insert_eq in Hnone. discriminate. }
      split.
      2: { intros Hall. destruct (Hall (dbgClient.ID r)) as [t Ht]; [left |].
           rewrite Hlook in Ht. discriminate. }
      intros s. rewrite elem_of_cons, Hiff. split.
      * intros [-> | (k & Hk & Hnone & ->)].
        -- exists (dbgClient.ID r). split; [left | auto].
        -- simpl in Hnone. exists k. split; [right; exact Hk |]. split; [| reflexivity].
           destruct (decide (k = dbgClient.ID r)) as [-> | Hne].
           ++ rewrite lookup_insert_eq in Hnone. discriminate.
           ++ rewrite lookup_insert_ne in Hnone by congruence. exact Hnone.
      * intros (k & Hk & Hnone & ->).
        destruct (decide (k = dbgClient.ID r)) as [-> | Hne]; [left; reflexivity |].
        right. exists k. apply elem_of_cons in Hk. destruct Hk as [-> | Hk]; [tauto |].
        split; [exact Hk |]. split; [| reflexivity].
        simpl. rewrite lookup_insert_ne by congruence. exact Hnone. }
destruct (Hloop routines ∅ w1) as (m1 & attach & Hrun1 & Hm1 & Hann & Hnd & Hiff & Hnil).
clear Hloop. rewrite (bind_Done _ _ _ _ _ Hrun1).
cbn [px client trace ranges w1] in Hrun1, Hm1, Hiff, Hnil.
unfold range_activeTargets at 1.
unfold bind at 1. unfold bind at 1. unfold get_proxy at 1. unfold range_entries at 1.
cbn [px client trace ranges activeTargets set_activeTargets w1].
set (found := list_to_set (map dbgClient.ID routines) ∪ ∅ : gset Z).
set (entries := range_order (ranges w) (Z * Target) (map_to_list m1)).
assert (Hfound : forall k, k ∈ found <-> k ∈ map dbgClient.ID routines).
{ intros k. subst found. set_solver. }
assert (Hentries : entries ≡ₚ map_to_list m1) by apply range_order_perm.
clearbody found entries.
match goal with
| |- context [for_each entries ?body] =>
    assert (Hsweep : forall es w0,
               for_each es body w0
               = Done tt (mkWorld
                            (set_activeTargets
                               (fun m => foldl (fun m e => if decide (e.1 ∈ found) then m
                                                           else delete e.1 m) m es)
                               (px w0))
                            (client w0)
                            (trace w0 ++ map (fun e => detached_event e.2)
                                             (filter (fun e => e.1 ∉ found) es))
                            (ranges w0)))
end.
{ induction es as [| [i t] rest IH]; intros w0.
  - simpl. unfold ret. destruct w0 as [[m f a b] c t n]. simpl.
    rewrite app_nil_r. reflexivity.
  - simpl. unfold bind at 1. rewrite filter_cons. simpl.
    destruct (decide (i ∈ found)) as [Hi | Hi].
    + unfold ret at 1. rewrite IH. rewrite decide_False by tauto. reflexivity.
    + unfold bind at 1. unfold Destroy, emit at 1. unfold modify_proxy at 1.
      rewrite IH. rewrite decide_True by assumption.
      cbn [px client trace ranges]. simpl. rewrite <- app_assoc. reflexivity. }
unfold bind at 1. rewrite Hsweep. clear Hsweep.
cbn [px client trace ranges].
match goal with
| |- exists w4 att visited, bind get_proxy _ ?x = _ /\ _ => set (w3 := x)
end.
assert (Hm3 : forall k, activeTargets (px w3) !! k =
                if decide (k ∈ map dbgClient.ID routines)
                then match activeTargets (px w) !! k with
                     | Some t => Some t
                     | None => Some {| ID := k |}
                     end
                else None).
{ intros k. subst w3. cbn [px activeTargets set_activeTargets].
  rewrite sweep_lookup, Hm1.
  destruct (decide (k ∈ map dbgClient.ID routines)) as [Hin | Hout].
  - rewrite decide_False; [reflexivity |]. intros [Hnot _]. apply Hnot, Hfound, Hin.
  - destruct (decide _) as [_ | Hno]; [reflexivity |].
    destruct (activeTargets (px w) !! k) as [t |] eqn:Hk; [| reflexivity].
    exfalso. apply Hno. split; [rewrite Hfound; exact Hout |].
    apply list_elem_of_fmap. exists (k, t). split; [reflexivity |].
    rewrite Hentries. apply elem_of_map_to_list. rewrite Hm1, Hk. reflexivity. }
assert (Hvisited : filter (fun e => e.1 ∉ found) entries
                   ≡ₚ filter (fun e => e.1 ∉ map dbgClient.ID routines)
                        (map_to_list (activeTargets (px w)))).
{ apply NoDup_Permutation.
  - apply NoDup_filter. rewrite Hentries. apply NoDup_map_to_list.
  - apply NoDup_filter, NoDup_map_to_list.
  - intros [i t]. rewrite !list_elem_of_filter. simpl. rewrite Hentries, Hfound.
    rewrite !elem_of_map_to_list, Hm1.
    split; intros [Hout Hlook]; (split; [exact Hout |]).
    + destruct (activeTargets (px w) !! i); [exact Hlook |].
      rewrite decide_False in Hlook by assumption. discriminate.
    + rewrite Hlook. reflexivity. }
assert (Hw3 : client w3 = c1 /\ fileList (px w3) = fileList (px w)
              /\ breakpoints (px w3) = breakpoints (px w)
              /\ activeGoroutineID (px w3) = activeGoroutineID (px w)
              /\ trace w3 = trace w ++ [Lock activeTargetsMux; ClientCall CallListGoroutines]
                              ++ attach ++ map (fun e => detached_event e.2)
                                               (filter (fun e => e.1 ∉ found) entries)).
{ subst w3. cbn [px client trace fileList breakpoints activeGoroutineID set_activeTargets].
  do 4 (split; [reflexivity |]). repeat rewrite <- app_assoc. reflexivity. }
destruct Hw3 as (Hc3 & Hf3 & Hb3 & Ha3 & Ht3).
clearbody w3.
unfold bind at 1. unfold get_proxy at 1.
destruct (activeTargets (px w3) !! activeGoroutineID (px w3)) as [target |] eqn:Hactive.
- exists w3, attach, (filter (fun e => e.1 ∉ found) entries).
  split; [reflexivity |]. do 4 (split; [assumption |]).
  split; [intros _; exact Ha3 |]. split; [exact Ht3 |]. auto.
- unfold range_activeTargets, bind, get_proxy, range_entries.
  cbn [px client trace ranges].
  destruct (range_order (ranges w3) (Z * Target) (map_to_list (activeTargets (px w3))))
    as [| [index target] others].
  + eexists. exists attach, (filter (fun e => e.1 ∉ found) entries).
    split; [reflexivity |]. cbn [px client trace ranges].
    do 4 (split; [assumption |]).
    split; [intros _; exact Ha3 |]. split; [exact Ht3 |]. auto.
  + eexists. exists attach, (filter (fun e => e.1 ∉ found) entries).
    split; [reflexivity |].
    cbn [px client trace ranges fileList breakpoints activeTargets activeGoroutineID
         set_activeGoroutineID].
    do 4 (split; [assumption |]).
    split. { intros [t Ht]. rewrite <- Ha3, Hactive in Ht. discriminate. }
    split; [exact Ht3 |]. auto.
Qed.

(** X7. What a completed routine sync leaves in ActiveTargets: its keys
    are exactly the ids [ListGoroutines] answered; an id that was known
    keeps the Target it had, a new id gets a Target carrying that id; if
    every Target sat under its own id before, so it does after.  FileList
    and the breakpoint set are untouched, and an active routine that is
    still listed stays the active one. *)
Theorem sync_targets_exact (w : World C) (c1 : C) (routines : list dbgClient.Goroutine) :
  dbgClient.ListGoroutines client_ops (client w) = (c1, (routines, None)) ->
  exists w',
    syncGoroutines client_ops range_order w = Done tt w'
    /\ (forall k, is_Some (activeTargets (px w') !! k) <-> k ∈ map dbgClient.ID routines)
    /\ (forall k t, k ∈ map dbgClient.ID routines ->
                    activeTargets (px w) !! k = Some t ->
                    activeTargets (px w') !! k = Some t)
    /\ (forall k, k ∈ map dbgClient.ID routines ->
                  activeTargets (px w) !! k = None ->
                  activeTargets (px w') !! k = Some {| ID := k |})
    /\ (keys_match (activeTargets (px w)) -> keys_match (activeTargets (px w')))
    /\ fileList (px w') = fileList (px w)
    /\ breakpoints (px w') = breakpoints (px w)
    /\ (activeGoroutineID (px w) ∈ map dbgClient.ID routines ->
        activeGoroutineID (px w') = activeGoroutineID (px w)).
Proof.
intros Hlist.
destruct (syncGoroutines_result w c1 routines Hlist)
  as (w' & attach & visited & Hrun & _ & Hf & Hb & Hm & Ha & _).
exists w'. split; [exact Hrun |].
split.
{ intros k. rewrite Hm. destruct (decide (k ∈ map dbgClient.ID routines)) as [Hin | Hout].
  - split; [auto |]. intros _. destruct (activeTargets (px w) !! k); eauto.
  - split; [intros [t Ht]; discriminate | tauto]. }
split.
{ intros k t Hin Hk. rewrite Hm, decide_True, Hk by assumption. reflexivity. }
split.
{ intros k Hin Hk. rewrite Hm, decide_True, Hk by assumption. reflexivity. }
split.
{ intros Hkeys k t. rewrite Hm. destruct (decide _); [| discriminate].
  destruct (activeTargets (px w) !! k) as [t0 |] eqn:Hk.
  - intros [= <-]. apply (Hkeys k t0 Hk).
  - intros [= <-]. reflexivity. }
split; [exact Hf |]. split; [exact Hb |].
intros Hin. apply Ha. rewrite Hm, decide_True by assumption.
destruct (activeTargets (px w) !! activeGoroutineID (px w)); eauto.
Qed.

(** X8. The events of a completed routine sync are exact.  One
    AttachedToTarget is fired for each listed id that was not a key, and
    none else: the TargetIds attached are pairwise distinct and are the
    decimal forms of those ids.  One DetachedFromTarget is fired for each
    Target whose key is no longer listed, and none else.  If every Target
    sat under its own id, no TargetId is both attached and detached by the
    same pass. *)
Theorem sync_events_exact (w : World C) (c1 : C) (routines : list dbgClient.Goroutine) :
  dbgClient.ListGoroutines client_ops (client w) = (c1, (routines, None)) ->
  let es := emitted w (syncGoroutines client_ops range_order w) in
  proxy_lives (syncGoroutines client_ops range_order w)
  /\ NoDup (attached_ids es)
  /\ (forall s, s ∈ attached_ids es <->
                exists k, k ∈ map dbgClient.ID routines
                          /\ activeTargets (px w) !! k = None
                          /\ s = GoInt.fmt_d k)
  /\ detached_ids es
     ≡ₚ map (fun e => GoInt.fmt_d (ID e.2))
            (filter (fun e => e.1 ∉ map dbgClient.ID routines)
                    (map_to_list (activeTargets (px w))))
  /\ (keys_match (activeTargets (px w)) ->
      forall s, s ∈ attached_ids es -> s ∉ detached_ids es).
Proof.
intros Hlist.
destruct (syncGoroutines_result w c1 routines Hlist)
  as (w' & attach & visited & Hrun & _ & _ & _ & _ & _ & Ht & Hann & Hnd & Hiff & _ & Hvis).
simpl. rewrite Hrun. rewrite (emitted_of_trace w (Done tt w') _ Ht).
assert (Hatt : attached_ids ([Lock activeTargetsMux; ClientCall CallListGoroutines]
                             ++ attach ++ map (fun e => detached_event e.2) visited
                             ++ [Unlock activeTargetsMux])
               = attached_ids attach).
{ rewrite !attached_ids_app, attached_ids_detached_events. simpl.
  rewrite app_nil_r. reflexivity. }
assert (Hdet : detached_ids ([Lock activeTargetsMux; ClientCall CallListGoroutines]
                             ++ attach ++ map (fun e => detached_event e.2) visited
                             ++ [Unlock activeTargetsMux])
               = map (fun e => GoInt.fmt_d (ID e.2)) visited).
{ rewrite !detached_ids_app, detached_ids_events, (detached_ids_announcement attach Hann).
  simpl. rewrite app_nil_r. reflexivity. }
rewrite Hatt, Hdet.
split; [exact I |]. split; [exact Hnd |]. split; [exact Hiff |].
split; [rewrite Hvis; reflexivity |].
intros Hkeys s Hs Hdetached. apply Hiff in Hs. destruct Hs as (k & Hk & Hnone & ->).
apply list_elem_of_fmap in Hdetached. destruct Hdetached as ([i t] & Heq & Hin).
rewrite Hvis in Hin. apply list_elem_of_filter in Hin. destruct Hin as [_ Hin].
apply elem_of_map_to_list in Hin. simpl in Heq. apply fmt_d_inj in Heq.
rewrite (Hkeys i t Hin) in Heq. subst k. rewrite Hin in Hnone. discriminate.
Qed.

(** X9. The routine sync is idempotent: when the debugger lists the same
    ids again, a second pass right after a completed one fires no event,
    only takes the lock, calls [ListGoroutines] and releases the lock, and
    leaves the proxy state exactly as the first pass left it. *)
Theorem sync_idempotent (w : World C) (c1 c2 : C)
    (routines routines' : list dbgClient.Goroutine) :
  dbgClient.ListGoroutines client_ops (client w) = (c1, (routines, None)) ->
  dbgClient.ListGoroutines client_ops c1 = (c2, (routines', None)) ->
  (forall k, k ∈ map dbgClient.ID routines' <-> k ∈ map dbgClient.ID routines) ->
  exists w1 w2,
    syncGoroutines client_ops range_order w = Done tt w1
    /\ syncGoroutines client_ops range_order w1 = Done tt w2
    /\ px w2 = px w1
    /\ emitted w1 (Done tt w2)
       = [Lock activeTargetsMux; ClientCall CallListGoroutines; Unlock activeTargetsMux].
Proof.
intros Hlist1 Hlist2 Hsame.
destruct (syncGoroutines_result w c1 routines Hlist1)
  as (w1 & attach1 & visited1 & Hrun1 & Hc1 & _ & _ & Hm1 & _).
assert (Hlist2' : dbgClient.ListGoroutines client_ops (client w1) = (c2, (routines', None))).
{ rewrite Hc1. exact Hlist2. }
destruct (syncGoroutines_result w1 c2 routines' Hlist2')
  as (w2 & attach2 & visited2 & Hrun2 & _ & Hf2 & Hb2 & Hm2 & Ha2 & Ht2 & _ & _ & _ & Hnil & Hvis).
exists w1, w2. split; [exact Hrun1 |]. split; [exact Hrun2 |].
assert (Hkeys1 : forall k, is_Some (activeTargets (px w1) !! k) <-> k ∈ map dbgClient.ID routines).
{ intros k. rewrite Hm1. destruct (decide (k ∈ map dbgClient.ID routines)) as [Hin | Hout].
  - split; [auto |]. intros _. destruct (activeTargets (px w) !! k); eauto.
  - split; [intros [t Ht]; discriminate | tauto]. }
assert (Hmaps : activeTargets (px w2) = activeTargets (px w1)).
{ apply map_eq. intros k. rewrite Hm2.
  destruct (decide (k ∈ map dbgClient.ID routines')) as [Hin | Hout].
  - apply Hsame, Hkeys1 in Hin. destruct Hin as [t ->]. reflexivity.
  - destruct (activeTargets (px w1) !! k) as [t |] eqn:Hk; [| reflexivity].
    exfalso. apply Hout, Hsame, Hkeys1. eauto. }
assert (Hactive : activeGoroutineID (px w2) = activeGoroutineID (px w1)).
{ destruct (syncGoroutines_completes client_ops range_order range_order_perm w)
    as (w1' & Hrun1' & Hone & _); [rewrite Hlist1; reflexivity |].
  rewrite Hrun1 in Hrun1'. injection Hrun1' as <-.
  destruct (syncGoroutines_completes client_ops range_order range_order_perm w1)
    as (w2' & Hrun2' & _ & Hnone); [rewrite Hlist2'; reflexivity |].
  rewrite Hrun2 in Hrun2'. injection Hrun2' as <-.
  destruct (decide (activeTargets (px w1) = ∅)) as [Hempty | Hne].
  - apply Hnone. rewrite Hmaps. exact Hempty.
  - apply Ha2. rewrite Hmaps. apply Hone, Hne. }
split.
{ destruct (px w2) as [m2 f2 a2 b2], (px w1) as [m1 f1 a1 b1]. simpl in *. congruence. }
rewrite (emitted_of_trace w1 (Done tt w2) _ Ht2).
rewrite Hnil.
2: { intros k Hk. apply Hkeys1, Hsame, Hk. }
assert (Hnone : visited2 = []).
{ destruct visited2 as [| [i t] rest]; [reflexivity |]. exfalso.
  assert (Hin : (i, t) ∈ filter (fun e => e.1 ∉ map dbgClient.ID routines')
                          (map_to_list (activeTargets (px w1)))).
  { rewrite <- Hvis. left. }
  apply list_elem_of_filter in Hin. destruct Hin as [Hout Hin]. simpl in Hout.
  apply elem_of_map_to_list in Hin. apply Hout, Hsame, Hkeys1. eauto. }
rewrite Hnone. reflexivity.
Qed.

End SyncMore.

Lemma sync_targets_exact_witness :
  exists w',
    syncGoroutines Scripted.ops Scripted.in_order (Scripted.watching_5 Scripted.healthy)
      = Done tt w'
    /\ (forall k, is_Some (activeTargets (px w') !! k) <-> k ∈ [1; 7])
    /\ breakpoints (px w') = ∅.
Proof.
destruct (sync_targets_exact Scripted.ops Scripted.in_order in_order_perm
            (Scripted.watching_5 Scripted.healthy) Scripted.healthy
            [Scripted.main_routine; Scripted.worker_routine] eq_refl)
  as (w' & Hrun & Hkeys & _ & _ & _ & _ & Hbreak & _).
exists w'. split; [exact Hrun |]. split; [exact Hkeys | exact Hbreak].
Defined.

Lemma sync_events_exact_witness :
  NoDup (attached_ids
           (emitted (Scripted.watching_5 Scripted.healthy)
              (syncGoroutines Scripted.ops Scripted.in_order
                 (Scripted.watching_5 Scripted.healthy))))
  /\ detached_ids
       (emitted (Scripted.watching_5 Scripted.healthy)
          (syncGoroutines Scripted.ops Scripted.in_order
             (Scripted.watching_5 Scripted.healthy)))
     ≡ₚ ["5"].
Proof.
destruct (sync_events_exact Scripted.ops Scripted.in_order in_order_perm
            (Scripted.watching_5 Scripted.healthy) Scripted.healthy
            [Scripted.main_routine; Scripted.worker_routine] eq_refl)
  as (_ & Hnodup & _ & Hdetached & _).
split; [exact Hnodup |]. exact Hdetached.
Defined.

Lemma sync_idempotent_witness :
  exists w1 w2,
    syncGoroutines Scripted.ops Scripted.in_order (Scripted.watching_5 Scripted.healthy)
      = Done tt w1
    /\ syncGoroutines Scripted.ops Scripted.in_order w1 = Done tt w2
    /\ px w2 = px w1.
Proof.
destruct (sync_idempotent Scripted.ops Scripted.in_order in_order_perm
            (Scripted.watching_5 Scripted.healthy) Scripted.healthy Scripted.healthy
            [Scripted.main_routine; Scripted.worker_routine]
            [Scripted.main_routine; Scripted.worker_routine]
            eq_refl eq_refl (fun k => iff_refl _))
  as (w1 & w2 & Hrun1 & Hrun2 & Hsame & _).
exists w1, w2. auto.
Defined.

(** ** What the handlers leave alone *)

Section Footprints.

Context {C : Type} {X : Type}.
Variable f : proxy -> X.

Lemma preserves_ret {A} (a : A) : preserves (C := C) f (ret a).
Proof. intros w. reflexivity. Qed.

Lemma preserves_panic {A} (v : panic_value) : preserves (C := C) (A := A) f (panic v).
Proof. intros w. reflexivity. Qed.

Lemma preserves_emit (e : effect) : preserves (C := C) f (emit e).
Proof. intros w. reflexivity. Qed.

Lemma preserves_call {A} (c : client_call) (method : C -> C * A) :
  preserves f (call c method).
Proof. intros w. unfold call. destruct (method (client w)). reflexivity. Qed.

Lemma preserves_get_proxy : preserves (C := C) f get_proxy.
Proof. intros w. reflexivity. Qed.

Lemma preserves_range_entries {A} (range_order : nat -> forall A : Type, list A -> list A)
    (entries : list A) :
  preserves (C := C) f (range_entries range_order entries).
Proof. intros w. reflexivity. Qed.

Lemma preserves_modify_proxy (g : proxy -> proxy) :
  (forall p, f (g p) = f p) -> preserves (C := C) f (modify_proxy g).
Proof. intros Hg w. simpl. apply Hg. Qed.

Lemma preserves_bind {A B} (m : M C A) (k : A -> M C B) :
  preserves f m -> (forall a, preserves f (k a)) -> preserves f (bind m k).
Proof.
intros Hm Hk w. unfold bind. specialize (Hm w).
destruct (m w) as [a w1 | v w1]; simpl in *; [| exact Hm].
rewrite Hk. exact Hm.
Qed.

Lemma preserves_for_each {A} (xs : list A) (body : A -> M C unit) :
  (forall x, preserves f (body x)) -> preserves f (for_each xs body).
Proof.
intros Hbody. induction xs as [| x rest IH]; simpl.
- apply preserves_ret.
- apply preserves_bind; auto.
Qed.

Lemma preserves_fold_each {A S} (xs : list A) (acc : S) (body : S -> A -> M C S) :
  (forall s x, preserves f (body s x)) -> preserves f (fold_each xs acc body).
Proof.
intros Hbody. revert acc. induction xs as [| x rest IH]; intros acc; simpl.
- apply preserves_ret.
- apply preserves_bind; auto.
Qed.

Lemma preserves_with_defer {A} (deferred : M C unit) (body : M C A) :
  preserves f deferred -> preserves f body -> preserves f (with_defer deferred body).
Proof.
intros Hd Hb w. unfold with_defer. specialize (Hb w).
destruct (body w) as [a w1 | v w1]; simpl in *;
  specialize (Hd w1); destruct (deferred w1); simpl in *; congruence.
Qed.

End Footprints.

(** Walks a handler built from the monad's operations. *)
Ltac preserves_step :=
  match goal with
  | |- preserves _ (bind _ _) => apply preserves_bind; [| intros ?]
  | |- preserves _ (ret _) => apply preserves_ret
  | |- preserves _ (panic _) => apply preserves_panic
  | |- preserves _ (emit _) => apply preserves_emit
  | |- preserves _ (call _ _) => apply preserves_call
  | |- preserves _ get_proxy => apply preserves_get_proxy
  | |- preserves _ (range_entries _ _) => apply preserves_range_entries
  | |- preserves _ (modify_proxy _) => apply preserves_modify_proxy; intros ?; reflexivity
  | |- preserves _ (for_each _ _) => apply preserves_for_each; intros ?
  | |- preserves _ (fold_each _ _ _) => apply preserves_fold_each; intros ? ?
  | |- preserves _ (with_defer _ _) => apply preserves_with_defer
  | |- preserves _ (match ?x with _ => _ end) => destruct x
  end.

Ltac effects_step :=
  match goal with
  | |- produces _ _ (bind _ _) =>
      apply (produces_seq _ (fun _ => True)); [apply monoidal_Forall | | intros ? _]
  | |- produces _ _ (ret _) => apply produces_ret; [constructor | exact I]
  | |- produces _ _ (panic _) => apply produces_panic; constructor
  | |- produces _ _ (emit _) => apply produces_emit; [repeat constructor | exact I]
  | |- produces _ _ (call _ _) => apply produces_call; [repeat constructor | intros; exact I]
  | |- produces _ _ get_proxy => apply produces_get_proxy; [constructor | intros; exact I]
  | |- produces _ _ (modify_proxy _) => apply produces_modify_proxy; [constructor | exact I]
  | |- produces _ _ (range_entries _ _) =>
      apply produces_range_entries; [constructor | intros; exact I]
  | |- produces _ _ (for_each _ _) =>
      apply (produces_for_each _ (fun _ => True));
        [apply monoidal_Forall | apply Forall_forall; intros; exact I | intros ? _]
  | |- produces _ _ (fold_each _ _ _) =>
      apply (produces_fold_each _ (fun _ => True) (fun _ => True));
        [apply monoidal_Forall | apply Forall_forall; intros; exact I | exact I
        | intros ? ? _ _]
  | |- produces _ _ (with_defer (emit _) _) =>
      apply produces_with_defer_monoidal; [apply monoidal_Forall | repeat constructor |]
  | |- produces _ _ (match ?x with _ => _ end) => destruct x
  end.

Section HandlerFootprints.

Context {C : Type}.
Variable client_ops : dbgClient.Ops C.
Variable MakeRemoteObject : dbgClient.Var -> runtimeAgent.RemoteObject.
Variable range_order : nat -> forall A : Type, list A -> list A.

Lemma static_part_sync :
  preserves (fun p => (fileList p, breakpoints p)) (syncGoroutines client_ops range_order).
Proof.
unfold syncGoroutines, range_activeTargets, Attach, Destroy. repeat preserves_step.
Qed.

Lemma static_part_snapshot :
  preserves (fun p => (fileList p, breakpoints p)) (sendPauseState client_ops range_order).
Proof.
unfold sendPauseState. preserves_step; [preserves_step |].
destruct a as [state [err |]]; [preserves_step |].
preserves_step; [apply static_part_sync |].
destruct state; [| preserves_step].
unfold collectStacks, firePausedEvents, range_activeTargets, Target_FirePaused.
repeat preserves_step.
Qed.

Lemma sendResumeState_unchanged :
  preserves (fun p => p) (sendResumeState (C := C) range_order).
Proof.
unfold sendResumeState, range_activeTargets, Target_FireResumed. repeat preserves_step.
Qed.

Lemma static_part_step prim method (command : debuggerAgent.StepCommand) :
  preserves (fun p => (fileList p, breakpoints p))
    (stepAndRespond client_ops range_order prim method command).
Proof.
unfold stepAndRespond, selectDestination, switchToActive.
preserves_step.
{ destruct (decide _); [preserves_step |]. repeat preserves_step. }
preserves_step; [repeat preserves_step |].
preserves_step.
{ intros w. rewrite (sendResumeState_unchanged w). reflexivity. }
preserves_step; [preserves_step |].
destruct (snd a2); repeat preserves_step. apply static_part_snapshot.
Qed.

Lemma static_part_continue (command : debuggerAgent.StepCommand) :
  preserves (fun p => (fileList p, breakpoints p))
    (continueAndRespond client_ops range_order command).
Proof.
unfold continueAndRespond, selectDestination, switchToActive.
preserves_step.
{ destruct (decide _); [preserves_step |]. repeat preserves_step. }
preserves_step; [repeat preserves_step |].
preserves_step; [preserves_step |].
preserves_step.
{ intros w. rewrite (sendResumeState_unchanged w). reflexivity. }
preserves_step; [preserves_step |].
destruct a3 as [state |]; [| preserves_step].
preserves_step; [| apply static_part_snapshot].
destruct state as [st |]; [| preserves_step].
destruct (dbgClient.SelectedGoroutine st); preserves_step.
Qed.

(** X10. Only the breakpoint handlers write the breakpoint set, and no
    handler writes FileList: whether they return or panic, the routine
    sync, the pause snapshot, the three step handlers and the resume
    handler leave both as they found them, and the resume fan-out leaves
    the whole proxy state as it found it. *)
Theorem pause_resume_footprint (command : debuggerAgent.StepCommand) :
  let static := fun p => (fileList p, breakpoints p) in
  preserves static (syncGoroutines client_ops range_order)
  /\ preserves static (sendPauseState client_ops range_order)
  /\ preserves static (stepOverAndRespond client_ops range_order command)
  /\ preserves static (stepIntoAndRespond client_ops range_order command)
  /\ preserves static (stepOutAndRespond client_ops range_order command)
  /\ preserves static (continueAndRespond client_ops range_order command)
  /\ preserves (fun p => p) (sendResumeState (C := C) range_order).
Proof.
simpl. split; [apply static_part_sync |]. split; [apply static_part_snapshot |].
do 3 (split; [apply static_part_step |]).
split; [apply static_part_continue | apply sendResumeState_unchanged].
Qed.

Lemma evaluate_unchanged (command : debuggerAgent.EvaluateOnCallFrameCommand) :
  preserves (fun p => p) (evaluateOnGoroutineAndRespond client_ops MakeRemoteObject command).
Proof.
unfold evaluateOnGoroutineAndRespond.
preserves_step; [preserves_step |].
preserves_step.
{ destruct (decide _); [preserves_step |]. repeat preserves_step. }
destruct (GoInt.Atoi (debuggerAgent.EvalCallFrameId command)); [| preserves_step].
preserves_step; [preserves_step |].
destruct a1 as [[variable |] [err |]]; repeat preserves_step.
Qed.

(** X11. Evaluation is read-only and its ids are checked in order.  The
    handler never changes the proxy state, also when the command names
    another routine as its destination (the step handlers make that
    routine the active one; evaluation does not).  A destination that is
    not a decimal number is answered with an internal-error before the
    panic; a CallFrameId that is not a decimal number panics without any
    answer to the command; in both cases the debugger is not called.
    When both ids parse, the first effect is the [EvalVariable] call, for
    the routine named by the destination, or the active routine when the
    destination is empty, and the frame named by the CallFrameId. *)
Theorem evaluate_read_only (command : debuggerAgent.EvaluateOnCallFrameCommand)
    (w : World C) :
  let o := evaluateOnGoroutineAndRespond client_ops MakeRemoteObject command w in
  let destination := debuggerAgent.EvalDestinationTargetID command in
  px (final_world o) = px w
  /\ (destination <> EmptyString ->
      GoInt.Atoi destination = None ->
      o = Panicked (PanicAtoi destination)
            (add_trace [RespondWithError shared.ErrorCodeInternalError
                          "Could not convert targetID to int"] w))
  /\ (destination = EmptyString \/ is_Some (GoInt.Atoi destination) ->
      GoInt.Atoi (debuggerAgent.EvalCallFrameId command) = None ->
      o = Panicked (PanicAtoi (debuggerAgent.EvalCallFrameId command)) w)
  /\ (forall scope,
        eval_scope (px w) command = Some scope ->
        exists answer,
          emitted w o
          = ClientCall (CallEvalVariable scope (debuggerAgent.Expression command)
                          eval_LoadConfig) :: answer).
Proof.
intros o destination. split; [| split; [| split]].
- subst o. apply (evaluate_unchanged command w).
- intros Hne Hbad. subst o destination. unfold evaluateOnGoroutineAndRespond.
  run_monad. rewrite decide_False by assumption. rewrite Hbad. reflexivity.
- intros Hdest Hbad. subst o destination. unfold evaluateOnGoroutineAndRespond.
  run_monad.
  destruct (decide (debuggerAgent.EvalDestinationTargetID command = EmptyString)) as [He | Hne].
  + simpl. rewrite Hbad. destruct w; reflexivity.
  + destruct Hdest as [He | [routine Hroutine]]; [contradiction |].
    rewrite Hroutine. simpl. rewrite Hbad. destruct w; reflexivity.
- intros scope Hscope. subst o destination. unfold eval_scope in Hscope.
  unfold evaluateOnGoroutineAndRespond. run_monad.
  destruct (decide (debuggerAgent.EvalDestinationTargetID command = EmptyString)) as [He | Hne].
  + simpl. destruct (GoInt.Atoi (debuggerAgent.EvalCallFrameId command)) as [frame |];
      [| discriminate].
    injection Hscope as <-.
    destruct (dbgClient.EvalVariable client_ops _ _ _ _) as [c' [[variable |] [err |]]];
      simpl; repeat rewrite <- app_assoc; eexists; apply emitted_mk || apply emitted_mk_panic.
  + destruct (GoInt.Atoi (debuggerAgent.EvalDestinationTargetID command)) as [routine |];
      [| discriminate].
    simpl. destruct (GoInt.Atoi (debuggerAgent.EvalCallFrameId command)) as [frame |];
      [| discriminate].
    injection Hscope as <-.
    destruct (dbgClient.EvalVariable client_ops _ _ _ _) as [c' [[variable |] [err |]]];
      simpl; repeat rewrite <- app_assoc; eexists; apply emitted_mk || apply emitted_mk_panic.
Qed.

End HandlerFootprints.

(** ** The shape of the step and resume handlers *)

Lemma answers_app (es1 es2 : list effect) : answers (es1 ++ es2) = answers es1 ++ answers es2.
Proof. apply omap_app. Qed.

Lemma answers_snapshot (es : list effect) : Forall snapshot_effect es -> answers es = [].
Proof.
induction 1 as [| e rest He _ IH]; [reflexivity |].
destruct e; try contradiction; exact IH.
Qed.

Lemma answers_resume (es : list effect) : Forall resume_effect es -> answers es = [].
Proof.
induction 1 as [| e rest He _ IH]; [reflexivity |].
destruct e; try contradiction; exact IH.
Qed.

Section HandlerShapes.

Context {C : Type}.
Variable client_ops : dbgClient.Ops C.
Variable range_order : nat -> forall A : Type, list A -> list A.

Lemma syncGoroutines_effects :
  produces (Forall snapshot_effect) (fun _ => True) (syncGoroutines client_ops range_order).
Proof.
unfold syncGoroutines, range_activeTargets, Attach, Destroy. repeat effects_step.
Qed.

Lemma sendPauseState_effects :
  produces (Forall snapshot_effect) (fun _ => True) (sendPauseState client_ops range_order).
Proof.
unfold sendPauseState. effects_step; [effects_step |].
destruct a as [state [err |]]; [effects_step |].
effects_step; [apply syncGoroutines_effects |].
destruct state; [| effects_step].
unfold collectStacks, firePausedEvents, range_activeTargets, Target_FirePaused.
repeat effects_step.
Qed.

Lemma sendResumeState_run (w : World C) :
  sendResumeState range_order w =
    Done tt (mkWorld (px w) (client w)
               (trace w ++ RLock activeTargetsMux
                  :: map (fun e => FireResumedOnTarget (GoInt.fmt_d (ID e.2)))
                         (range_order (ranges w) (Z * Target)
                            (map_to_list (activeTargets (px w))))
                  ++ [FireResumed; RUnlock activeTargetsMux])
               (S (ranges w))).
Proof.
unfold sendResumeState, range_activeTargets, Target_FireResumed.
unfold bind at 1. unfold emit at 1. unfold with_defer.
unfold bind at 1. unfold bind at 1. unfold get_proxy, range_entries.
cbn [px client trace ranges].
unfold bind at 1.
rewrite (for_each_emit (fun e : Z * Target => FireResumedOnTarget (GoInt.fmt_d (ID e.2)))).
unfold emit, add_trace. cbn [px client trace ranges].
repeat rewrite <- app_assoc. reflexivity.
Qed.

Lemma resume_fan_out_effects (visited : list (Z * Target)) :
  Forall resume_effect
    (RLock activeTargetsMux
     :: map (fun e => FireResumedOnTarget (GoInt.fmt_d (ID e.2))) visited
     ++ [FireResumed; RUnlock activeTargetsMux]).
Proof.
constructor; [exact I |]. apply Forall_app. split; [| repeat constructor].
apply Forall_forall. intros e He. apply list_elem_of_fmap in He.
destruct He as (entry & -> & _). exact I.
Qed.

(** The block that opens the four step and resume handlers. *)
Lemma select_and_switch {B} (command : debuggerAgent.StepCommand) (k : M C B) (w : World C) :
  let destination := debuggerAgent.DestinationTargetID command in
  let o := bind (selectDestination command) (fun _ => bind (switchToActive client_ops)
                                                        (fun _ => k)) w in
  match destination_routine (px w) destination with
  | None =>
      o = Panicked (PanicAtoi destination)
            (add_trace [RespondWithError shared.ErrorCodeInternalError
                          "Could not convert targetID to int"] w)
  | Some g =>
      (exists cause c,
          o = Panicked (PanicError cause)
                (mkWorld (set_activeGoroutineID g (px w)) c
                   (trace w ++ [ClientCall (CallSwitchGoroutine g);
                                RespondWithError shared.ErrorCodeInternalError cause])
                   (ranges w)))
      \/ (exists c,
            o = k (mkWorld (set_activeGoroutineID g (px w)) c
                     (trace w ++ [ClientCall (CallSwitchGoroutine g)]) (ranges w)))
  end.
Proof.
simpl. unfold destination_routine, selectDestination.
assert (Hsame : set_activeGoroutineID (activeGoroutineID (px w)) (px w) = px w).
{ destruct (px w); reflexivity. }
assert (Hswitch : forall g,
           let o := bind (switchToActive client_ops) (fun _ => k)
                      (mkWorld (set_activeGoroutineID g (px w)) (client w) (trace w) (ranges w)) in
           (exists cause c,
               o = Panicked (PanicError cause)
                     (mkWorld (set_activeGoroutineID g (px w)) c
                        (trace w ++ [ClientCall (CallSwitchGoroutine g);
                                     RespondWithError shared.ErrorCodeInternalError cause])
                        (ranges w)))
           \/ (exists c,
                 o = k (mkWorld (set_activeGoroutineID g (px w)) c
                          (trace w ++ [ClientCall (CallSwitchGoroutine g)]) (ranges w)))).
{ intros g. simpl. unfold switchToActive. run_monad.
  destruct (dbgClient.SwitchGoroutine client_ops (client w) g) as [c [st [cause |]]]; simpl.
  - left. exists cause, c. rewrite <- app_assoc. reflexivity.
  - right. exists c. reflexivity. }
destruct (decide (debuggerAgent.DestinationTargetID command = EmptyString)) as [He | Hne].
- specialize (Hswitch (activeGoroutineID (px w))). simpl in Hswitch.
  rewrite Hsame in Hswitch. rewrite Hsame. unfold bind at 1. unfold ret at 1.
  clear Hsame. destruct w as [p c t n]. exact Hswitch.
- destruct (GoInt.Atoi (debuggerAgent.DestinationTargetID command)) as [g |].
  + unfold bind at 1. unfold modify_proxy at 1. apply Hswitch.
  + run_monad. reflexivity.
Qed.

Lemma stepAndRespond_shape prim method (command : debuggerAgent.StepCommand) (w : World C) :
  let o := stepAndRespond client_ops range_order prim method command w in
  step_shape prim (destination_routine (px w) (debuggerAgent.DestinationTargetID command))
    (emitted w o)
  /\ (proxy_lives o -> Respond ReplyEmpty ∈ emitted w o).
Proof.
cbv zeta. remember (stepAndRespond client_ops range_order prim method command w) as o eqn:Ho.
unfold stepAndRespond in Ho.
match type of Ho with
| context [bind (selectDestination command) (fun _ => bind (switchToActive client_ops)
                                                        (fun _ => ?k))] =>
    pose proof (select_and_switch command k w) as Hopen
end.
cbv zeta in Hopen.
destruct (destination_routine (px w) (debuggerAgent.DestinationTargetID command)) as [g |].
2: { rewrite Hopen in Ho. subst o. unfold add_trace. rewrite emitted_mk_panic.
     split; [reflexivity | simpl; tauto]. }
destruct Hopen as [(cause & c & Hopen) | (c & Hopen)]; rewrite Hopen in Ho; clear Hopen.
{ subst o. rewrite emitted_mk_panic. split; [left; eauto | simpl; tauto]. }
unfold bind at 1 in Ho. rewrite sendResumeState_run in Ho. cbn [px client trace ranges] in Ho.
unfold bind at 1 in Ho. unfold call at 1 in Ho. cbn [px client trace ranges] in Ho.
set (visited := range_order (ranges w) (Z * Target)
                  (map_to_list (activeTargets (set_activeGoroutineID g (px w))))) in *.
pose proof (resume_fan_out_effects visited) as Hresume.
destruct (method c) as [c' [st [cause |]]]; cbn [snd] in Ho.
- unfold bind, emit, panic in Ho. cbn [px client trace ranges] in Ho. subst o.
  repeat rewrite <- app_assoc. rewrite emitted_mk_panic.
  split; [| simpl; tauto]. right. eexists. eexists. split; [| split; [exact Hresume |]].
  2: { left. exists cause. reflexivity. }
  simpl. repeat rewrite <- app_assoc. reflexivity.
- unfold bind at 1 in Ho. unfold emit at 1 in Ho. cbn [px client trace ranges] in Ho.
  match type of Ho with
  | _ = sendPauseState client_ops range_order ?w5 =>
      destruct (sendPauseState_effects w5) as (es & Htrace & Heffects & _)
  end.
  rewrite <- Ho in Htrace. cbn [trace] in Htrace. clear Ho.
  assert (Hemitted : emitted w o
                     = ClientCall (CallSwitchGoroutine g)
                       :: (RLock activeTargetsMux
                           :: map (fun e => FireResumedOnTarget (GoInt.fmt_d (ID e.2))) visited
                           ++ [FireResumed; RUnlock activeTargetsMux])
                       ++ ClientCall prim :: Respond ReplyEmpty :: es).
  { apply emitted_of_trace. rewrite Htrace. simpl. repeat rewrite <- app_assoc.
    simpl. repeat rewrite <- app_assoc. reflexivity. }
  rewrite Hemitted. split.
  + right. eexists. eexists. split; [reflexivity |]. split; [exact Hresume |].
    right. exists es. auto.
  + intros _. right. apply elem_of_app. right. right. left.
Qed.

Lemma step_shape_order (prim : client_call) (routine : option Z) (es : list effect) :
  (forall g, prim <> CallSwitchGoroutine g) ->
  ~ snapshot_effect (ClientCall prim) ->
  step_shape prim routine es ->
  answered_after prim es /\ paused_after_answer es.
Proof.
intros Hprim Hnot. destruct routine as [g |]; simpl.
2: { intros ->. split.
     - intros i j _ Hj. destruct j as [| j]; discriminate.
     - intros j k e Hj. destruct j as [| j]; discriminate. }
intros [(cause & ->) | (resume & rest & -> & Hresume & Hrest)].
{ split.
  - intros i j _ Hj. destruct j as [| [| j]]; discriminate.
  - intros j k e Hj. destruct j as [| [| j]]; discriminate. }
rewrite Forall_forall in Hresume.
destruct Hrest as [(cause & ->) | (snapshot & -> & Hsnapshot)].
{ assert (Hnone : forall j,
             (ClientCall (CallSwitchGoroutine g)
              :: resume ++ [ClientCall prim;
                            RespondWithError shared.ErrorCodeInternalError cause]) !! j
             <> Some (Respond ReplyEmpty)).
  { intros [| j] Hj; [discriminate |]. simpl in Hj.
    apply lookup_app_Some in Hj. destruct Hj as [Hj | [_ Hj]].
    - apply list_elem_of_lookup_2, Hresume in Hj. contradiction.
    - destruct (j - length resume)%nat as [| [| n]]; discriminate. }
  split.
  - intros i j _ Hj. contradiction (Hnone j Hj).
  - intros j k e Hj. contradiction (Hnone j Hj). }
rewrite Forall_forall in Hsnapshot.
assert (Hanswer : forall j,
           (ClientCall (CallSwitchGoroutine g)
            :: resume ++ ClientCall prim :: Respond ReplyEmpty :: snapshot) !! j
           = Some (Respond ReplyEmpty) ->
           j = (2 + length resume)%nat).
{ intros [| j] Hj; [discriminate |]. simpl in Hj.
  apply lookup_app_Some in Hj. destruct Hj as [Hj | [Hlen Hj]].
  - apply list_elem_of_lookup_2, Hresume in Hj. contradiction.
  - destruct (j - length resume)%nat as [| [| n]] eqn:Hn; [discriminate | lia |].
    simpl in Hj. apply list_elem_of_lookup_2, Hsnapshot in Hj. contradiction. }
split.
- intros i j Hi Hj. apply Hanswer in Hj. subst j.
  destruct i as [| i]; [lia |]. simpl in Hi.
  apply lookup_app_Some in Hi. destruct Hi as [Hi | [Hlen Hi]].
  + apply lookup_lt_Some in Hi. lia.
  + destruct (i - length resume)%nat as [| [| n]] eqn:Hn; [lia | discriminate |].
    simpl in Hi. apply list_elem_of_lookup_2, Hsnapshot in Hi. contradiction.
- intros j k e Hj Hk Hstage. apply Hanswer in Hj. subst j.
  destruct k as [| k]; simpl in Hk.
  + injection Hk as <-. contradiction Hstage. reflexivity.
  + apply lookup_app_Some in Hk. destruct Hk as [Hk | [Hlen Hk]].
    * apply list_elem_of_lookup_2, Hresume in Hk.
      destruct e; try contradiction; contradiction Hstage; reflexivity.
    * destruct (k - length resume)%nat as [| [| n]] eqn:Hn.
      -- injection Hk as <-. contradiction Hstage. reflexivity.
      -- injection Hk as <-. contradiction Hstage. reflexivity.
      -- lia.
Qed.

(** X12. The order of a step.  Every run of StepOver, StepInto and
    StepOut has one of three shapes: a destination that is not a decimal
    number is answered with an internal-error; a failing switch to the
    routine addressed (the destination, or the active routine when the
    destination is empty) is answered with its cause; otherwise the switch
    is followed by the Resumed fan-out, then by the call of the primitive
    ([Next], [Step], [StepOut]), and the command is answered right after
    that call, before any effect of the pause snapshot.  So in every run
    the success response comes after the call of the primitive and before
    every Paused event.  A handler that returns has answered with
    success. *)
Theorem step_handler_shape (command : debuggerAgent.StepCommand) (w : World C) :
  let routine := destination_routine (px w) (debuggerAgent.DestinationTargetID command) in
  let over := stepOverAndRespond client_ops range_order command w in
  let into := stepIntoAndRespond client_ops range_order command w in
  let out := stepOutAndRespond client_ops range_order command w in
  (step_shape CallNext routine (emitted w over)
   /\ step_shape CallStep routine (emitted w into)
   /\ step_shape CallStepOut routine (emitted w out))
  /\ (answered_after CallNext (emitted w over)
      /\ answered_after CallStep (emitted w into)
      /\ answered_after CallStepOut (emitted w out))
  /\ (paused_after_answer (emitted w over)
      /\ paused_after_answer (emitted w into)
      /\ paused_after_answer (emitted w out))
  /\ (proxy_lives over -> Respond ReplyEmpty ∈ emitted w over)
  /\ (proxy_lives into -> Respond ReplyEmpty ∈ emitted w into)
  /\ (proxy_lives out -> Respond ReplyEmpty ∈ emitted w out).
Proof.
cbv zeta. unfold stepOverAndRespond, stepIntoAndRespond, stepOutAndRespond.
pose proof (stepAndRespond_shape CallNext (dbgClient.Next client_ops) command w) as [H1 H1'].
pose proof (stepAndRespond_shape CallStep (dbgClient.Step client_ops) command w) as [H2 H2'].
pose proof (stepAndRespond_shape CallStepOut (dbgClient.StepOut client_ops) command w)
  as [H3 H3'].
destruct (step_shape_order CallNext _ _ ltac:(discriminate) ltac:(simpl; tauto) H1)
  as [Ha1 Hp1].
destruct (step_shape_order CallStep _ _ ltac:(discriminate) ltac:(simpl; tauto) H2)
  as [Ha2 Hp2].
destruct (step_shape_order CallStepOut _ _ ltac:(discriminate) ltac:(simpl; tauto) H3)
  as [Ha3 Hp3].
auto 12.
Qed.

Lemma continueAndRespond_shape (command : debuggerAgent.StepCommand) (w : World C) :
  let o := continueAndRespond client_ops range_order command w in
  continue_shape (destination_routine (px w) (debuggerAgent.DestinationTargetID command))
    (emitted w o)
  /\ (proxy_lives o -> Respond ReplyEmpty ∈ emitted w o).
Proof.
cbv zeta. remember (continueAndRespond client_ops range_order command w) as o eqn:Ho.
unfold continueAndRespond in Ho.
match type of Ho with
| context [bind (selectDestination command) (fun _ => bind (switchToActive client_ops)
                                                        (fun _ => ?k))] =>
    pose proof (select_and_switch command k w) as Hopen
end.
cbv zeta in Hopen.
destruct (destination_routine (px w) (debuggerAgent.DestinationTargetID command)) as [g |].
2: { rewrite Hopen in Ho. subst o. unfold add_trace. rewrite emitted_mk_panic.
     split; [reflexivity | simpl; tauto]. }
destruct Hopen as [(cause & c & Hopen) | (c & Hopen)]; rewrite Hopen in Ho; clear Hopen.
{ subst o. rewrite emitted_mk_panic. split; [left; eauto | simpl; tauto]. }
unfold bind at 1 in Ho. unfold emit at 1 in Ho. cbn [px client trace ranges] in Ho.
unfold bind at 1 in Ho. rewrite sendResumeState_run in Ho. cbn [px client trace ranges] in Ho.
unfold bind at 1 in Ho. unfold call at 1 in Ho. cbn [px client trace ranges] in Ho.
set (visited := range_order (ranges w) (Z * Target)
                  (map_to_list (activeTargets (set_activeGoroutineID g (px w))))) in *.
pose proof (resume_fan_out_effects visited) as Hresume.
destruct (dbgClient.Continue client_ops c) as [c' [state |]].
2: { unfold panic in Ho. subst o. repeat rewrite <- app_assoc.
     rewrite emitted_mk_panic. split; [| simpl; tauto].
     right. eexists. exists []. split; [| split; [exact Hresume | constructor]].
     simpl. repeat rewrite <- app_assoc. simpl. repeat rewrite <- app_assoc. reflexivity. }
assert (Hsnapshot : forall p,
           o = sendPauseState client_ops range_order
                 (mkWorld p c'
                    ((((trace w ++ [ClientCall (CallSwitchGoroutine g)])
                       ++ [Respond ReplyEmpty])
                      ++ RLock activeTargetsMux
                         :: map (fun e => FireResumedOnTarget (GoInt.fmt_d (ID e.2)))
                                visited
                         ++ [FireResumed; RUnlock activeTargetsMux])
                     ++ [ClientCall CallContinue])
                    (S (ranges w))) ->
           continue_shape (Some g) (emitted w o) /\ Respond ReplyEmpty ∈ emitted w o).
{ intros p Hrun.
  match type of Hrun with
  | _ = sendPauseState client_ops range_order ?w5 =>
      destruct (sendPauseState_effects w5) as (es & Htrace & Heffects & _)
  end.
  rewrite <- Hrun in Htrace. cbn [trace] in Htrace.
  assert (Hemitted : emitted w o
                     = ClientCall (CallSwitchGoroutine g) :: Respond ReplyEmpty
                       :: (RLock activeTargetsMux
                           :: map (fun e => FireResumedOnTarget (GoInt.fmt_d (ID e.2))) visited
                           ++ [FireResumed; RUnlock activeTargetsMux])
                       ++ ClientCall CallContinue :: es).
  { apply emitted_of_trace. rewrite Htrace. simpl. repeat rewrite <- app_assoc.
    simpl. repeat rewrite <- app_assoc. reflexivity. }
  rewrite Hemitted. split.
  - right. eexists. exists es. split; [reflexivity |]. split; [exact Hresume | exact Heffects].
  - right. left. }
unfold bind at 1 in Ho.
destruct state as [st |]; [destruct (dbgClient.SelectedGoroutine st) as [selected |] |];
  unfold modify_proxy, ret in Ho; cbn [px client trace ranges] in Ho;
  destruct (Hsnapshot _ Ho) as [Hshape Hanswer]; auto.
Qed.

Lemma continue_shape_order (routine : option Z) (es : list effect) :
  continue_shape routine es ->
  (forall i j,
      es !! i = Some (Respond ReplyEmpty) ->
      es !! j = Some (ClientCall CallContinue) ->
      (i < j)%nat)
  /\ (forall j k e,
        es !! j = Some (ClientCall CallContinue) ->
        es !! k = Some e ->
        stage e <> 0%nat ->
        (j < k)%nat).
Proof.
destruct routine as [g |]; simpl.
2: { intros ->. split.
     - intros i j _ Hj. destruct j as [| j]; discriminate.
     - intros j k e Hj. destruct j as [| j]; discriminate. }
intros [(cause & ->) | (resume & snapshot & -> & Hresume & Hsnapshot)].
{ split.
  - intros i j _ Hj. destruct j as [| [| j]]; discriminate.
  - intros j k e Hj. destruct j as [| [| j]]; discriminate. }
rewrite Forall_forall in Hresume, Hsnapshot.
assert (Hcontinue : forall j,
           (ClientCall (CallSwitchGoroutine g) :: Respond ReplyEmpty
            :: resume ++ ClientCall CallContinue :: snapshot) !! j
           = Some (ClientCall CallContinue) ->
           j = (2 + length resume)%nat).
{ intros [| [| j]] Hj; try discriminate. simpl in Hj.
  apply lookup_app_Some in Hj. destruct Hj as [Hj | [Hlen Hj]].
  - apply list_elem_of_lookup_2, Hresume in Hj. contradiction.
  - apply lookup_cons_Some in Hj. destruct Hj as [[Hzero _] | [_ Hj]]; [lia |].
    apply list_elem_of_lookup_2, Hsnapshot in Hj. contradiction. }
split.
- intros i j Hi Hj. apply Hcontinue in Hj. subst j.
  destruct i as [| [| i]]; [discriminate | lia |]. simpl in Hi.
  apply lookup_app_Some in Hi. destruct Hi as [Hi | [_ Hi]].
  + apply list_elem_of_lookup_2, Hresume in Hi. contradiction.
  + apply lookup_cons_Some in Hi. destruct Hi as [[_ Hi] | [_ Hi]]; [discriminate |].
    apply list_elem_of_lookup_2, Hsnapshot in Hi. contradiction.
- intros j k e Hj Hk Hstage. apply Hcontinue in Hj. subst j.
  destruct k as [| [| k]]; simpl in Hk.
  + injection Hk as <-. contradiction Hstage. reflexivity.
  + injection Hk as <-. contradiction Hstage. reflexivity.
  + apply lookup_app_Some in Hk. destruct Hk as [Hk | [Hlen Hk]].
    * apply list_elem_of_lookup_2, Hresume in Hk.
      destruct e; try contradiction; contradiction Hstage; reflexivity.
    * apply lookup_cons_Some in Hk. destruct Hk as [[_ <-] | [Hpos _]].
      -- contradiction Hstage. reflexivity.
      -- lia.
Qed.

(** X13. The order of a resume.  Unlike a step, the resume handler
    answers its command before it asks the debugger to continue: after a
    successful switch the success response comes first, then the Resumed
    fan-out, then the [Continue] call, then the effects of the pause
    snapshot.  The failures of the destination and of the switch are
    answered as in a step handler.  So in every run the success response,
    if any, comes before the [Continue] call, and the [Continue] call
    before every Paused event. *)
Theorem continue_handler_shape (command : debuggerAgent.StepCommand) (w : World C) :
  let o := continueAndRespond client_ops range_order command w in
  continue_shape (destination_routine (px w) (debuggerAgent.DestinationTargetID command))
    (emitted w o)
  /\ (proxy_lives o -> Respond ReplyEmpty ∈ emitted w o)
  /\ (forall i j,
        emitted w o !! i = Some (Respond ReplyEmpty) ->
        emitted w o !! j = Some (ClientCall CallContinue) ->
        (i < j)%nat)
  /\ (forall j k ev,
        emitted w o !! j = Some (ClientCall CallContinue) ->
        (emitted w o !! k = Some (FirePaused ev)
         \/ exists target, emitted w o !! k = Some (FirePausedOnTarget target ev)) ->
        (j < k)%nat).
Proof.
cbv zeta. destruct (continueAndRespond_shape command w) as [Hshape Hanswer].
destruct (continue_shape_order _ _ Hshape) as [Hfirst Hthen].
split; [exact Hshape |]. split; [exact Hanswer |]. split; [exact Hfirst |].
intros j k ev Hj [Hk | [target Hk]]; apply (Hthen j k _ Hj Hk); discriminate.
Qed.

Lemma step_shape_answers (prim : client_call) (routine : option Z) (es : list effect) :
  step_shape prim routine es -> length (answers es) = 1%nat.
Proof.
destruct routine as [g |]; simpl; [| intros ->; reflexivity].
intros [(cause & ->) | (resume & rest & -> & Hresume & Hrest)]; [reflexivity |].
change (length (answers (resume ++ rest)) = 1%nat).
rewrite answers_app, (answers_resume resume Hresume). simpl.
destruct Hrest as [(cause & ->) | (snapshot & -> & Hsnapshot)]; [reflexivity |].
change (length (Respond ReplyEmpty :: answers snapshot) = 1%nat).
rewrite (answers_snapshot snapshot Hsnapshot). reflexivity.
Qed.

Lemma continue_shape_answers (routine : option Z) (es : list effect) :
  continue_shape routine es -> length (answers es) = 1%nat.
Proof.
destruct routine as [g |]; simpl; [| intros ->; reflexivity].
intros [(cause & ->) | (resume & snapshot & -> & Hresume & Hsnapshot)]; [reflexivity |].
change (length (Respond ReplyEmpty
                :: answers (resume ++ ClientCall CallContinue :: snapshot)) = 1%nat).
rewrite answers_app, (answers_resume resume Hresume).
change (length (Respond ReplyEmpty :: answers snapshot) = 1%nat).
rewrite (answers_snapshot snapshot Hsnapshot). reflexivity.
Qed.

(** X14. Every command is answered exactly once.  Whatever the debugger
    answers, and whether the handler returns or panics, each run of the
    three step handlers, of the resume handler and of the two breakpoint
    handlers sends exactly one response (success or error) to its
    command. *)
Theorem answered_exactly_once (step : debuggerAgent.StepCommand)
    (set : debuggerAgent.SetBreakpointByUrlCommand)
    (remove : debuggerAgent.RemoveBreakpointCommand) (w : World C) :
  length (answers (emitted w (stepOverAndRespond client_ops range_order step w))) = 1%nat
  /\ length (answers (emitted w (stepIntoAndRespond client_ops range_order step w))) = 1%nat
  /\ length (answers (emitted w (stepOutAndRespond client_ops range_order step w))) = 1%nat
  /\ length (answers (emitted w (continueAndRespond client_ops range_order step w))) = 1%nat
  /\ length (answers (emitted w (setBreakpointAndRespond client_ops set w))) = 1%nat
  /\ length (answers (emitted w (removeBreakpointAndRespond client_ops remove w))) = 1%nat.
Proof.
split; [eapply step_shape_answers, stepAndRespond_shape |].
split; [eapply step_shape_answers, stepAndRespond_shape |].
split; [eapply step_shape_answers, stepAndRespond_shape |].
split; [eapply continue_shape_answers, continueAndRespond_shape |].
split.
- destruct (accepted_or_rejected set) as [[url Hacc] | Hrej].
  + rewrite (setBreakpoint_accepted client_ops set url w Hacc). simpl.
    destruct (decide _) as [Hmem | Hfresh].
    * unfold add_trace. rewrite emitted_mk. reflexivity.
    * destruct (dbgClient.CreateBreakpointAtLine _ _ _ _ _) as [c' [e |]];
        rewrite emitted_mk; reflexivity.
  + destruct (setBreakpoint_rejected client_ops set w Hrej) as [msg ->].
    unfold add_trace. rewrite emitted_mk. reflexivity.
- rewrite removeBreakpoint_eq. rewrite emitted_mk.
  destruct (snd _); reflexivity.
Qed.

(** Go's map iteration visits every entry exactly once. *)
Hypothesis range_order_perm :
  forall (n : nat) (A : Type) (entries : list A), Permutation (range_order n A entries) entries.

(** X15. The Resumed fan-out.  [sendResumeState] always returns and
    changes nothing in the proxy.  Under the read lock it fires Resumed on
    every active target exactly once, in the order of the map iteration,
    and only then on the default agent, the reverse of the order of a
    pause snapshot; the lock is released last. *)
Theorem resume_fan_out (w : World C) :
  exists w' visited,
    sendResumeState range_order w = Done tt w'
    /\ px w' = px w
    /\ client w' = client w
    /\ visited ≡ₚ map_to_list (activeTargets (px w))
    /\ emitted w (Done tt w')
       = RLock activeTargetsMux
         :: map (fun e => FireResumedOnTarget (GoInt.fmt_d (ID e.2))) visited
         ++ [FireResumed; RUnlock activeTargetsMux]
    /\ resumed_ids (emitted w (Done tt w'))
       ≡ₚ map (fun e => GoInt.fmt_d (ID e.2)) (map_to_list (activeTargets (px w))).
Proof.
eexists. exists (range_order (ranges w) (Z * Target) (map_to_list (activeTargets (px w)))).
split; [apply sendResumeState_run |]. split; [reflexivity |]. split; [reflexivity |].
split; [apply range_order_perm |]. rewrite emitted_mk. split; [reflexivity |].
unfold resumed_ids. simpl. rewrite omap_app. simpl. rewrite app_nil_r.
rewrite <- (range_order_perm (ranges w) _ (map_to_list (activeTargets (px w)))) at 2.
apply Permutation_refl'.
induction (range_order (ranges w) (Z * Target) (map_to_list (activeTargets (px w))))
  as [| e rest IH]; [reflexivity |]. simpl. rewrite IH. reflexivity.
Qed.

End HandlerShapes.

(** ** Completeness of the pause snapshot *)

Lemma bind_Done_inv {C A B} (m : M C A) (k : A -> M C B) (w w' : World C) (b : B) :
  bind m k w = Done b w' -> exists a w1, m w = Done a w1 /\ k a w1 = Done b w'.
Proof.
unfold bind. destruct (m w) as [a w1 | v w1]; [eauto | discriminate].
Qed.

Lemma stack_calls_app (es1 es2 : list effect) :
  stack_calls (es1 ++ es2) = stack_calls es1 ++ stack_calls es2.
Proof. apply omap_app. Qed.

Lemma paused_ids_app (es1 es2 : list effect) :
  paused_ids (es1 ++ es2) = paused_ids es1 ++ paused_ids es2.
Proof. apply omap_app. Qed.

Lemma default_paused_app (es1 es2 : list effect) :
  default_paused (es1 ++ es2) = default_paused es1 ++ default_paused es2.
Proof. apply omap_app. Qed.

Lemma sync_effect_no_snapshot (es : list effect) :
  Forall sync_effect es ->
  stack_calls es = [] /\ paused_ids es = [] /\ default_paused es = [].
Proof.
induction 1 as [| e rest He _ IH]; [auto |].
destruct e as [| | | | | | | | | [] | | [] | [] | |]; try contradiction; exact IH.
Qed.

Section SnapshotMore.

Context {C : Type}.
Variable client_ops : dbgClient.Ops C.
Variable range_order : nat -> forall A : Type, list A -> list A.

Lemma syncGoroutines_sync_effects :
  produces (Forall sync_effect) (fun _ => True) (syncGoroutines client_ops range_order).
Proof.
unfold syncGoroutines, range_activeTargets, Attach, Destroy. repeat effects_step.
Qed.

Lemma firePausedEvents_run
    (activeStack : option (list dbgClient.Stackframe))
    (targetsStacks : list (Target * list dbgClient.Stackframe)) (w : World C) :
  firePausedEvents range_order (activeStack, targetsStacks) w =
    Done tt (mkWorld (px w) (client w)
               (trace w
                ++ match activeStack with
                   | Some stack => [FirePaused (paused_event stack)]
                   | None => []
                   end
                ++ map (fun e => FirePausedOnTarget (GoInt.fmt_d (ID e.1)) (paused_event e.2))
                       (range_order (ranges w) _ targetsStacks))
               (S (ranges w))).
Proof.
unfold firePausedEvents, Target_FirePaused.
unfold bind at 1.
destruct activeStack as [stack |].
- unfold emit at 1. unfold bind at 1. unfold range_entries at 1. cbn [px client trace ranges].
  rewrite (for_each_emit
             (fun e : Target * list dbgClient.Stackframe =>
                FirePausedOnTarget (GoInt.fmt_d (ID e.1)) (paused_event e.2))).
  unfold add_trace. cbn [px client trace ranges]. repeat rewrite <- app_assoc. reflexivity.
- unfold ret at 1. unfold bind at 1. unfold range_entries at 1.
  rewrite (for_each_emit
             (fun e : Target * list dbgClient.Stackframe =>
                FirePausedOnTarget (GoInt.fmt_d (ID e.1)) (paused_event e.2))).
  unfold add_trace. cbn [px client trace ranges]. reflexivity.
Qed.

Lemma collectStacks_Done (w w' : World C)
    (locals : option (list dbgClient.Stackframe) * list (Target * list dbgClient.Stackframe)) :
  collectStacks client_ops range_order w = Done locals w' ->
  let entries := range_order (ranges w) (Z * Target) (map_to_list (activeTargets (px w))) in
  px w' = px w
  /\ ranges w' = S (ranges w)
  /\ trace w' = trace w ++ RLock activeTargetsMux
                  :: map (fun e => ClientCall (CallStacktrace e.1 50 stack_LoadConfig)) entries
                  ++ [RUnlock activeTargetsMux]
  /\ map fst locals.2 = map snd (filter (fun e => e.1 <> activeGoroutineID (px w)) entries)
  /\ (is_Some locals.1 <-> activeGoroutineID (px w) ∈ map fst entries).
Proof.
unfold collectStacks.
unfold bind at 1. unfold emit at 1.
unfold range_activeTargets.
unfold bind at 1. unfold bind at 1. unfold get_proxy at 1. unfold range_entries at 1.
cbn [px client trace ranges].
set (entries := range_order (ranges w) (Z * Target) (map_to_list (activeTargets (px w)))).
clearbody entries. intros Hrun.
apply bind_Done_inv in Hrun. destruct Hrun as (found & w1 & Hloop & Hrest).
unfold bind, emit, ret in Hrest. injection Hrest as -> <-. cbn [px client trace ranges].
match type of Hloop with
| fold_each entries _ ?body _ = _ =>
    assert (Hgen : forall es acc w0 res w2,
               fold_each es acc body w0 = Done res w2 ->
               px w2 = px w0
               /\ ranges w2 = ranges w0
               /\ trace w2 = trace w0
                    ++ map (fun e => ClientCall (CallStacktrace e.1 50 stack_LoadConfig)) es
               /\ map fst res.2
                  = map fst acc.2
                    ++ map snd (filter (fun e => e.1 <> activeGoroutineID (px w0)) es)
               /\ (is_Some res.1 <->
                   is_Some acc.1 \/ activeGoroutineID (px w0) ∈ map fst es))
end.
{ clear. induction es as [| [routineID target] rest IH]; intros [activeStack stacks] w0 res w2.
  - simpl. intros [= <- <-]. simpl. rewrite !app_nil_r.
    do 4 (split; [reflexivity |]). split; [auto |]. intros [H | H]; [exact H | inversion H].
  - simpl. intros Hrun. apply bind_Done_inv in Hrun.
    destruct Hrun as (acc' & w1 & Hbody & Hrest).
    unfold bind at 1 in Hbody. unfold call at 1 in Hbody.
    destruct (dbgClient.Stacktrace client_ops (client w0) routineID 50 stack_LoadConfig)
      as [c' [frames [err |]]]; [discriminate |].
    unfold bind, get_proxy in Hbody. cbn [px client trace ranges] in Hbody.
    rewrite filter_cons. cbn [fst].
    destruct (decide (routineID = activeGoroutineID (px w0))) as [Heq | Hne].
    + injection Hbody as <- <-. apply IH in Hrest. cbn [px client trace ranges fst snd] in Hrest.
      destruct Hrest as (Hpx & Hranges & Htrace & Hothers & Hactive).
      rewrite decide_False by (intros Hno; apply Hno; exact Heq).
      split; [exact Hpx |]. split; [exact Hranges |].
      split; [rewrite Htrace, <- app_assoc; reflexivity |].
      split; [exact Hothers |].
      rewrite Hactive. split; [| eauto].
      intros _. right. apply elem_of_cons. left. symmetry. exact Heq.
    + injection Hbody as <- <-. apply IH in Hrest. cbn [px client trace ranges fst snd] in Hrest.
      destruct Hrest as (Hpx & Hranges & Htrace & Hothers & Hactive).
      rewrite decide_True by assumption.
      split; [exact Hpx |]. split; [exact Hranges |].
      split; [rewrite Htrace, <- app_assoc; reflexivity |].
      split.
      { rewrite Hothers, map_app, <- app_assoc. reflexivity. }
      rewrite Hactive. split; (intros [H | H]; [left; exact H | right]).
      * right. exact H.
      * apply elem_of_cons in H. destruct H as [H | H]; [congruence | exact H]. }
apply Hgen in Hloop. cbn [px client trace ranges fst snd] in Hloop.
destruct Hloop as (Hpx & Hranges & Htrace & Hothers & Hactive).
split; [exact Hpx |]. split; [rewrite Hranges; reflexivity |].
split; [rewrite Htrace; repeat rewrite <- app_assoc; reflexivity |].
split; [exact Hothers |].
rewrite Hactive. split; [intros [[x Hx] | H]; [discriminate | exact H] | auto].
Qed.

Lemma stack_calls_of_entries (entries : list (Z * Target)) :
  stack_calls (map (fun e => ClientCall (CallStacktrace e.1 50 stack_LoadConfig)) entries)
  = map (fun e => (e.1, 50, stack_LoadConfig)) entries.
Proof.
induction entries as [| e rest IH]; [reflexivity |].
simpl. unfold stack_calls in *. simpl. rewrite IH. reflexivity.
Qed.

Lemma paused_ids_of_entries (others : list (Target * list dbgClient.Stackframe)) :
  paused_ids (map (fun e => FirePausedOnTarget (GoInt.fmt_d (ID e.1)) (paused_event e.2)) others)
  = map (fun e => GoInt.fmt_d (ID e.1)) others.
Proof.
induction others as [| e rest IH]; [reflexivity |].
simpl. unfold paused_ids in *. simpl. rewrite IH. reflexivity.
Qed.

Lemma per_target_only (others : list (Target * list dbgClient.Stackframe)) :
  let es := map (fun e => FirePausedOnTarget (GoInt.fmt_d (ID e.1)) (paused_event e.2)) others in
  stack_calls es = [] /\ default_paused es = [].
Proof.
induction others as [| e rest IH]; [split; reflexivity | exact IH].
Qed.

Lemma calls_only (entries : list (Z * Target)) :
  let es := map (fun e => ClientCall (CallStacktrace e.1 50 stack_LoadConfig)) entries in
  paused_ids es = [] /\ default_paused es = [].
Proof.
induction entries as [| e rest IH]; [split; reflexivity | exact IH].
Qed.

(** Go's map iteration visits every entry exactly once. *)
Hypothesis range_order_perm :
  forall (n : nat) (A : Type) (entries : list A), Permutation (range_order n A entries) entries.

(** X16. A pause snapshot that returns is complete.  With the targets as
    the routine sync left them: [Stacktrace] was called exactly once for
    each target, with depth 50; a Paused event was fired exactly once on
    each target other than the active routine, under that target's id;
    and exactly one Paused event was fired on the default agent, unless
    there is no target at all. *)
Theorem snapshot_complete (w w' : World C) :
  sendPauseState client_ops range_order w = Done tt w' ->
  let es := emitted w (Done tt w') in
  let targets := map_to_list (activeTargets (px w')) in
  stack_calls es ≡ₚ map (fun e => (e.1, 50, stack_LoadConfig)) targets
  /\ paused_ids es
     ≡ₚ map (fun e => GoInt.fmt_d (ID e.2))
            (filter (fun e => e.1 <> activeGoroutineID (px w')) targets)
  /\ length (default_paused es)
     = if decide (activeTargets (px w') = ∅) then 0%nat else 1%nat.
Proof.
intros Hrun. unfold sendPauseState in Hrun.
apply bind_Done_inv in Hrun. destruct Hrun as (r & w1 & Hstate & Hrest).
unfold call in Hstate.
destruct (dbgClient.GetState client_ops (client w)) as [c1 [state err]].
injection Hstate as <- <-. destruct err as [err |]; [discriminate |].
apply bind_Done_inv in Hrest. destruct Hrest as ([] & w2 & Hsync & Hrest).
destruct state as [st |]; [| discriminate].
apply bind_Done_inv in Hrest. destruct Hrest as ([activeStack stacks] & w3 & Hcollect & Hfire).
rewrite firePausedEvents_run in Hfire. injection Hfire as <-.
apply collectStacks_Done in Hcollect. cbv zeta in Hcollect. cbn [fst snd] in Hcollect.
destruct Hcollect as (Hpx & Hranges & Htrace3 & Hothers & Hactive).
match type of Hsync with
| syncGoroutines _ _ ?x = _ => set (w1 := x) in *
end.
destruct (syncGoroutines_sync_effects w1) as (sync & Htrace2 & Hsynceff & _).
rewrite Hsync in Htrace2. cbn [final_world] in Htrace2.
assert (Hinvariant : activeTargets (px w2) <> ∅ ->
                     is_Some (activeTargets (px w2) !! activeGoroutineID (px w2))).
{ destruct (snd (snd (dbgClient.ListGoroutines client_ops (client w1)))) as [cause |] eqn:Hlist.
  - exfalso. apply (syncGoroutines_list_failure client_ops range_order w1 cause Hlist).
    rewrite Hsync. exact I.
  - destruct (syncGoroutines_completes client_ops range_order range_order_perm w1 Hlist)
      as (w2' & Hrun & Hinv & _).
    rewrite Hsync in Hrun. injection Hrun as <-. exact Hinv. }
set (entries := range_order (ranges w2) (Z * Target) (map_to_list (activeTargets (px w2)))) in *.
assert (Hentries : entries ≡ₚ map_to_list (activeTargets (px w2))) by apply range_order_perm.
set (others := range_order (ranges w3) _ stacks).
assert (Hpermuted : others ≡ₚ stacks) by apply range_order_perm.
clearbody entries others.
cbv zeta. cbn [px].
assert (Hes : emitted w (Done tt
                 (mkWorld (px w3) (client w3)
                    (trace w3
                     ++ match activeStack with
                        | Some stack => [FirePaused (paused_event stack)]
                        | None => []
                        end
                     ++ map (fun e => FirePausedOnTarget (GoInt.fmt_d (ID e.1))
                                        (paused_event e.2)) others)
                    (S (ranges w3))))
              = [ClientCall CallGetState] ++ sync
                ++ [RLock activeTargetsMux]
                ++ map (fun e => ClientCall (CallStacktrace e.1 50 stack_LoadConfig)) entries
                ++ [RUnlock activeTargetsMux]
                ++ match activeStack with
                   | Some stack => [FirePaused (paused_event stack)]
                   | None => []
                   end
                ++ map (fun e => FirePausedOnTarget (GoInt.fmt_d (ID e.1))
                                   (paused_event e.2)) others).
{ apply emitted_of_trace. cbn [final_world trace]. rewrite Htrace3, Htrace2.
  subst w1. cbn [trace]. repeat rewrite <- app_assoc. simpl.
  repeat rewrite <- app_assoc. reflexivity. }
rewrite Hes, Hpx. clear Hes.
destruct (sync_effect_no_snapshot sync Hsynceff) as (Hs1 & Hs2 & Hs3).
destruct (per_target_only others) as [Hp1 Hp3].
destruct (calls_only entries) as [Hc2 Hc3].
cbv zeta in Hp1, Hp3, Hc2, Hc3.
split; [| split].
- rewrite !stack_calls_app, Hs1, Hp1, stack_calls_of_entries.
  assert (Hmid : stack_calls match activeStack with
                             | Some stack => [FirePaused (paused_event stack)]
                             | None => []
                             end = []) by (destruct activeStack; reflexivity).
  rewrite Hmid. simpl. rewrite app_nil_r. rewrite Hentries. reflexivity.
- rewrite !paused_ids_app, Hs2, Hc2, paused_ids_of_entries.
  assert (Hmid : paused_ids match activeStack with
                            | Some stack => [FirePaused (paused_event stack)]
                            | None => []
                            end = []) by (destruct activeStack; reflexivity).
  rewrite Hmid. simpl. rewrite Hpermuted.
  rewrite <- (map_map fst (fun t => GoInt.fmt_d (ID t))), Hothers, map_map.
  rewrite Hentries. reflexivity.
- rewrite !default_paused_app, Hs3, Hc3, Hp3. simpl. rewrite app_nil_r.
  destruct (decide (activeTargets (px w2) = ∅)) as [Hempty | Hne].
  + destruct activeStack as [stack |]; [| reflexivity]. exfalso.
    assert (Hin : activeGoroutineID (px w2) ∈ map fst entries) by (apply Hactive; eauto).
    apply list_elem_of_fmap in Hin. destruct Hin as ([k t] & _ & Hin).
    rewrite Hentries in Hin. apply elem_of_map_to_list in Hin.
    rewrite Hempty, lookup_empty in Hin. discriminate.
  + destruct activeStack as [stack |]; [reflexivity |]. exfalso.
    destruct (Hinvariant Hne) as [t Ht].
    assert (Hsome : is_Some (None : option (list dbgClient.Stackframe))).
    { apply Hactive. apply list_elem_of_fmap. exists (activeGoroutineID (px w2), t).
      split; [reflexivity |]. rewrite Hentries. apply elem_of_map_to_list. exact Ht. }
    destruct Hsome as [x Hx]. discriminate.
Qed.

End SnapshotMore.

(** ** Ids sent to the front end and received back *)

Lemma fmt_d_nonempty (z : Z) : GoInt.in_int64 z -> GoInt.fmt_d z <> EmptyString.
Proof.
intros Hz He. pose proof (Atoi_fmt_d z Hz) as Hparse. rewrite He in Hparse. discriminate.
Qed.

Lemma sendFrames_from_lookup (index : Z) (stack : list dbgClient.Stackframe)
    (i : nat) (cf : debuggerAgent.CallFrame) :
  sendFrames_from index stack !! i = Some cf ->
  debuggerAgent.CallFrameId cf = GoInt.fmt_d (index + Z.of_nat i)
  /\ debuggerAgent.ScopeChain cf = buildScopeChain (index + Z.of_nat i)
  /\ exists frame,
       stack !! i = Some frame
       /\ debuggerAgent.ScriptId (debuggerAgent.Location_ cf)
          = dbgClient.File (dbgClient.Location_ frame)
       /\ debuggerAgent.LineNumber (debuggerAgent.Location_ cf)
          = GoInt.sub (dbgClient.Line (dbgClient.Location_ frame)) 1.
Proof.
revert index i cf. induction stack as [| frame rest IH]; intros index i cf; [discriminate |].
destruct i as [| i]; simpl.
- intros [= <-]. simpl. rewrite Z.add_0_r.
  split; [reflexivity |]. split; [reflexivity |]. exists frame. auto.
- intros Hcf. apply IH in Hcf.
  replace (index + Z.of_nat (S i)) with (index + 1 + Z.of_nat i) by lia.
  exact Hcf.
Qed.

Lemma sendFrames_from_length (index : Z) (stack : list dbgClient.Stackframe) :
  length (sendFrames_from index stack) = length stack.
Proof.
revert index. induction stack as [| frame rest IH]; intros index; simpl; [| rewrite IH];
  reflexivity.
Qed.

Section IdRoundTrips.

Context {C : Type}.

(** X1. Target ids make the round trip.  A target is announced,
    resumed, paused and detached under one and the same TargetId, the
    decimal form of its routine id.  That id is never empty, so it is not
    mistaken for a command without destination; sent back as the
    DestinationTargetID of a step or resume command it addresses the
    routine of the target, and sent back in an evaluation it selects that
    routine for [EvalVariable]. *)
Theorem target_id_round_trip (t : Target) (routine : dbgClient.Goroutine)
    (frames : list dbgClient.Stackframe) (w : World C) :
  GoInt.in_int64 (ID t) ->
  exists tid,
    attached_ids (emitted w (Attach t routine w)) = [tid]
    /\ resumed_ids (emitted w (Target_FireResumed t w)) = [tid]
    /\ paused_ids (emitted w (Target_FirePaused t frames w)) = [tid]
    /\ detached_ids (emitted w (Destroy t w)) = [tid]
    /\ tid <> EmptyString
    /\ (forall p, destination_routine p tid = Some (ID t))
    /\ (forall p frameId expr,
          eval_scope p {| debuggerAgent.EvalDestinationTargetID := tid;
                          debuggerAgent.EvalCallFrameId := frameId;
                          debuggerAgent.Expression := expr |}
          = match GoInt.Atoi frameId with
            | Some frame => Some {| dbgClient.GoroutineID := ID t; dbgClient.Frame := frame |}
            | None => None
            end).
Proof.
intros Hid. exists (GoInt.fmt_d (ID t)).
pose proof (fmt_d_nonempty (ID t) Hid) as Hne.
split.
{ rewrite Attach_run. unfold add_trace. rewrite emitted_mk.
  change (attached_ids (?e :: ?l)) with (GoInt.fmt_d (ID t) :: attached_ids l).
  rewrite attached_ids_scripts. reflexivity. }
split; [unfold Target_FireResumed, emit; rewrite emitted_mk; reflexivity |].
split; [unfold Target_FirePaused, emit; rewrite emitted_mk; reflexivity |].
split; [unfold Destroy, emit; rewrite emitted_mk; reflexivity |].
split; [exact Hne |].
split.
- intros p. unfold destination_routine. rewrite decide_False by exact Hne.
  apply Atoi_fmt_d, Hid.
- intros p frameId expr. unfold eval_scope. simpl.
  rewrite decide_False by exact Hne. rewrite (Atoi_fmt_d (ID t) Hid). reflexivity.
Qed.

End IdRoundTrips.

(** X17. Call frame ids make the round trip.  The frames of a Paused
    event are the frames of the debugger's stack, in order and as many;
    the i-th carries the decimal form of i as its CallFrameId and its
    local scope, the file of the i-th stack frame and its line minus one.
    Sent back in an evaluation, the CallFrameId selects frame i for
    [EvalVariable]. *)
Theorem frame_id_round_trip (stack : list dbgClient.Stackframe) (i : nat)
    (cf : debuggerAgent.CallFrame) :
  sendFrames stack !! i = Some cf ->
  GoInt.in_int64 (Z.of_nat i) ->
  length (sendFrames stack) = length stack
  /\ GoInt.Atoi (debuggerAgent.CallFrameId cf) = Some (Z.of_nat i)
  /\ debuggerAgent.ScopeChain cf = buildScopeChain (Z.of_nat i)
  /\ (exists frame,
        stack !! i = Some frame
        /\ debuggerAgent.ScriptId (debuggerAgent.Location_ cf)
           = dbgClient.File (dbgClient.Location_ frame)
        /\ debuggerAgent.LineNumber (debuggerAgent.Location_ cf)
           = GoInt.sub (dbgClient.Line (dbgClient.Location_ frame)) 1)
  /\ (forall p expr,
        eval_scope p {| debuggerAgent.EvalDestinationTargetID := EmptyString;
                        debuggerAgent.EvalCallFrameId := debuggerAgent.CallFrameId cf;
                        debuggerAgent.Expression := expr |}
        = Some {| dbgClient.GoroutineID := activeGoroutineID p;
                  dbgClient.Frame := Z.of_nat i |}).
Proof.
intros Hcf Hi. unfold sendFrames in *.
destruct (sendFrames_from_lookup 0 stack i cf Hcf) as (Hid & Hscope & Hframe).
rewrite Z.add_0_l in Hid, Hscope.
split; [apply sendFrames_from_length |].
split; [rewrite Hid; apply Atoi_fmt_d, Hi |].
split; [exact Hscope |]. split; [exact Hframe |].
intros p expr. unfold eval_scope. simpl. rewrite Hid, (Atoi_fmt_d _ Hi). reflexivity.
Qed.

(** ** Startup *)

Lemma scripts_parsed_on_scripts (target : string) (files : list string) :
  scripts_parsed_on (map (script_parsed_on target) files)
  = map (fun file => (target, source_event file)) files.
Proof.
induction files as [| file rest IH]; [reflexivity |].
simpl. unfold scripts_parsed_on in *. simpl. rewrite IH. reflexivity.
Qed.

Section StartupFacts.

Context {C : Type}.
Variable client_ops : dbgClient.Ops C.
Variable BlockUntilReady : C -> C.
Variable ListSources : C -> C * (list string * option dbgClient.error).

Lemma announceSources_run (sources : list string) (p : proxy) :
  announceSources sources p
  = (set_fileList (fun files => files ++ kept_sources sources) p,
     map (fun source => FireScriptParsed (source_event source)) (kept_sources sources)).
Proof.
revert p. induction sources as [| source rest IH]; intros p; simpl.
- unfold kept_sources. simpl. unfold set_fileList. rewrite app_nil_r.
  destruct p; reflexivity.
- unfold kept_sources in *. rewrite filter_cons.
  destruct (decide (source = "<autogenerated>")) as [Hauto | Hkeep].
  + rewrite decide_False by tauto. apply IH.
  + rewrite decide_True by assumption. rewrite IH. unfold set_fileList. simpl.
    rewrite <- app_assoc. reflexivity.
Qed.

Lemma Start_completed (p p' : proxy) (c c' : C) (es : list start_effect) :
  Start client_ops BlockUntilReady ListSources p c = Started p' c' es ->
  exists c1 state sources,
    dbgClient.GetState client_ops (BlockUntilReady c) = (c1, (Some state, None))
    /\ ListSources c1 = (c', (sources, None))
    /\ p' = set_fileList (fun files => files ++ kept_sources sources)
              match dbgClient.SelectedGoroutine state with
              | Some g => set_activeGoroutineID (dbgClient.ID g) p
              | None => p
              end
    /\ es = start_prefix ++ [Go GoSendPauseState; CallListSources]
            ++ map (fun source => FireScriptParsed (source_event source))
                   (kept_sources sources).
Proof.
unfold Start.
destruct (dbgClient.GetState client_ops (BlockUntilReady c)) as [c1 [state [err |]]];
  [discriminate |].
destruct state as [st |]; [| discriminate].
destruct (ListSources c1) as [c2 [sources [err |]]] eqn:Hlist; [discriminate |].
rewrite announceSources_run. intros [= <- <- <-].
exists c1, st, sources. split; [reflexivity |]. split; [exact Hlist |].
split; reflexivity.
Qed.

Lemma scripts_parsed_sources (sources : list string) :
  scripts_parsed (start_prefix ++ [Go GoSendPauseState; CallListSources]
                  ++ map (fun source => FireScriptParsed (source_event source)) sources)
  = map source_event sources.
Proof.
unfold scripts_parsed. rewrite omap_app. simpl.
induction sources as [| source rest IH]; [reflexivity |].
simpl. rewrite IH. reflexivity.
Qed.

(** X18. What a completed [Start] has done.  FileList is extended, in
    order, by the sources the debugger lists, except the synthetic
    <autogenerated> entry; one ScriptParsed event is fired on the default
    agent for each source kept, in the same order, with the path as
    ScriptId and as Url and with ExecutionContextId 1.  Before that the
    Enable command is answered, the router and the runtime context are
    started, and the first pause snapshot is started before the sources
    are listed.  The active routine is the one the debugger had selected,
    if any; targets and breakpoints are untouched. *)
Theorem start_announces_sources (p p' : proxy) (c c' : C) (es : list start_effect) :
  Start client_ops BlockUntilReady ListSources p c = Started p' c' es ->
  exists c1 state sources,
    dbgClient.GetState client_ops (BlockUntilReady c) = (c1, (Some state, None))
    /\ ListSources c1 = (c', (sources, None))
    /\ fileList p' = fileList p ++ kept_sources sources
    /\ es = start_prefix ++ [Go GoSendPauseState; CallListSources]
            ++ map (fun source => FireScriptParsed (source_event source))
                   (kept_sources sources)
    /\ scripts_parsed es = map source_event (kept_sources sources)
    /\ ("<autogenerated>" ∉ kept_sources sources)
    /\ activeGoroutineID p'
       = match dbgClient.SelectedGoroutine state with
         | Some g => dbgClient.ID g
         | None => activeGoroutineID p
         end
    /\ activeTargets p' = activeTargets p
    /\ breakpoints p' = breakpoints p.
Proof.
intros Hstart.
destruct (Start_completed p p' c c' es Hstart) as (c1 & st & sources & Hstate & Hlist & -> & ->).
exists c1, st, sources. split; [exact Hstate |]. split; [exact Hlist |].
split; [destruct (dbgClient.SelectedGoroutine st); reflexivity |].
split; [reflexivity |].
split; [apply scripts_parsed_sources |].
split.
{ unfold kept_sources. intros Hin. apply list_elem_of_filter in Hin. tauto. }
destruct (dbgClient.SelectedGoroutine st); auto.
Qed.

(** X19. How [Start] fails.  By the time anything can fail, the Enable
    command has been answered with success and the router and the runtime
    context have been started.  If [GetState] fails, or answers without a
    state, [Start] panics before the first pause snapshot is started and
    before the sources are asked for, with the proxy state unchanged.  If
    [ListSources] fails, [Start] panics after the first pause snapshot has
    been started, with FileList unchanged and no ScriptParsed fired. *)
Theorem start_failures (p p' : proxy) (c c' : C) (v : panic_value) (es : list start_effect) :
  Start client_ops BlockUntilReady ListSources p c = StartPanicked v p' c' es ->
  (es = start_prefix /\ p' = p
   /\ c' = fst (dbgClient.GetState client_ops (BlockUntilReady c))
   /\ match snd (dbgClient.GetState client_ops (BlockUntilReady c)) with
      | (_, Some cause) => v = PanicError cause
      | (None, None) => True
      | (Some _, None) => False
      end)
  \/ (es = start_prefix ++ [Go GoSendPauseState; CallListSources]
      /\ fileList p' = fileList p
      /\ scripts_parsed es = []
      /\ exists cause,
           v = PanicError cause
           /\ snd (snd (ListSources (fst (dbgClient.GetState client_ops (BlockUntilReady c)))))
              = Some cause).
Proof.
unfold Start.
destruct (dbgClient.GetState client_ops (BlockUntilReady c)) as [c1 [state [err |]]].
{ intros [= <- <- <- <-]. left. destruct state; simpl; auto. }
destruct state as [st |].
2: { intros [= <- <- <- <-]. left. simpl. auto. }
destruct (ListSources c1) as [c2 [sources [err |]]] eqn:Hlist.
2: { rewrite announceSources_run. discriminate. }
intros [= <- <- <- <-]. right. simpl.
split; [reflexivity |].
split; [destruct (dbgClient.SelectedGoroutine st); reflexivity |].
split; [reflexivity |]. exists err. rewrite Hlist. auto.
Qed.

(** X20. A target is told about the scripts the default agent was told
    about.  After [Start] has run on a new proxy, the ScriptParsed events
    [Attach] fires on a target are, in number, order and content, the
    ScriptParsed events [Start] fired on the default agent, each addressed
    to the TargetId of the target. *)
Theorem attach_replays_start (c c' : C) (p' : proxy) (es : list start_effect)
    (t : Target) (routine : dbgClient.Goroutine) (w : World C) :
  Start client_ops BlockUntilReady ListSources NewProxy c = Started p' c' es ->
  px w = p' ->
  scripts_parsed_on (emitted w (Attach t routine w))
  = map (fun ev => (GoInt.fmt_d (ID t), ev)) (scripts_parsed es).
Proof.
intros Hstart Hw.
destruct (Start_completed _ _ _ _ _ Hstart) as (c1 & st & sources & _ & _ & Hp & ->).
rewrite Attach_run. unfold add_trace. rewrite emitted_mk.
change (scripts_parsed_on (?e :: ?l)) with (scripts_parsed_on l).
rewrite scripts_parsed_on_scripts, scripts_parsed_sources, Hw, Hp, map_map.
destruct (dbgClient.SelectedGoroutine st); reflexivity.
Qed.

End StartupFacts.

(** ** The SystemInfo agent *)

Section AgentFacts.

Context {Handler Command Raw : Type}.
Variable SetupCommand : Z -> string -> Raw -> Command.
Variable panics :
  list (@systeminfo.agent_effect Handler Command Raw) ->
  @systeminfo.agent_effect Handler Command Raw -> option systeminfo.panic_data.

Lemma recovered_run (data : option systeminfo.panic_data)
    (log : list (@systeminfo.agent_effect Handler Command Raw)) :
  exists rest,
    fst (systeminfo.recovered panics data log) = log ++ rest
    /\ Forall recovery_effect rest
    /\ (systeminfo.ConnClose ∈ rest <->
        exists msg, data = Some (systeminfo.Error msg) \/ data = Some (systeminfo.GoError msg))
    /\ match snd (systeminfo.recovered panics data log) with
       | inl _ =>
           match data with
           | Some (systeminfo.Other _) => False
           | _ => True
           end
       | inr value =>
           data = Some value /\ ~ contained value
           \/ exists log', panics log' systeminfo.ConnClose = Some value
       end.
Proof.
destruct data as [[msg | msg | msg | msg] |]; simpl.
- exists [systeminfo.PrintlnData (systeminfo.Warning msg)].
  split; [reflexivity |]. split; [repeat constructor |].
  split; [| exact I]. split.
  + intros Hin. apply list_elem_of_singleton in Hin. discriminate.
  + intros (m & [H | H]); discriminate.
- exists [systeminfo.Println "Closing websocket because of following Error:";
          systeminfo.PrintlnData (systeminfo.Error msg); systeminfo.ConnClose].
  unfold systeminfo.a_bind, systeminfo.note, systeminfo.external. simpl.
  split; [repeat rewrite <- app_assoc; reflexivity |]. split; [repeat constructor |].
  split; [split; [eauto | intros _; set_solver] |].
  destruct (panics _ systeminfo.ConnClose) eqn:Hclose; [right; eauto | exact I].
- exists [systeminfo.Println "Closing websocket because of following Error:";
          systeminfo.PrintlnData (systeminfo.GoError msg); systeminfo.ConnClose].
  unfold systeminfo.a_bind, systeminfo.note, systeminfo.external. simpl.
  split; [repeat rewrite <- app_assoc; reflexivity |]. split; [repeat constructor |].
  split; [split; [eauto | intros _; set_solver] |].
  destruct (panics _ systeminfo.ConnClose) eqn:Hclose; [right; eauto | exact I].
- exists [systeminfo.Println
            "Should probably use shared.Warning or shared.Error instead to panic()"].
  split; [reflexivity |]. split; [repeat constructor |].
  split; [| left; split; [reflexivity | simpl; tauto]]. split.
  + intros Hin. apply list_elem_of_singleton in Hin. discriminate.
  + intros (m & [H | H]); discriminate.
- exists []. rewrite app_nil_r. split; [reflexivity |]. split; [constructor |].
  split; [| exact I]. split.
  + intros Hin. inversion Hin.
  + intros (m & [H | H]); discriminate.
Qed.

Lemma dispatch_run (agent : systeminfo.SystemInfoAgent) (id : Z)
    (targetId funcName : string) (data : Raw)
    (log : list (@systeminfo.agent_effect Handler Command Raw)) :
  let out := SetupCommand id targetId data in
  let setup := systeminfo.ConnSetupCommand id targetId data in
  let answer :=
    match systeminfo.GetInfo agent with
    | Some fn => systeminfo.CallHandler fn out
    | None => systeminfo.OutRespondWithError out shared.ErrorCodeMethodNotFound EmptyString
    end in
  let unknown :=
    systeminfo.ConnSendErrorResult id targetId shared.ErrorCodeMethodNotFound EmptyString in
  let told := systeminfo.Printf ("Command " ++ funcName ++ " unknown" ++ String "010" EmptyString) in
  systeminfo.dispatch SetupCommand panics agent id targetId funcName data log
  = if decide (funcName = "getInfo") then
      match panics log setup with
      | Some value => (log ++ [setup], inr value)
      | None =>
          (log ++ [setup; systeminfo.MuxRLock; systeminfo.MuxRUnlock; answer],
           match panics (log ++ [setup; systeminfo.MuxRLock; systeminfo.MuxRUnlock]) answer with
           | Some value => inr value
           | None => inl tt
           end)
      end
    else
      (log ++ [told; unknown],
       match panics (log ++ [told]) unknown with
       | Some value => inr value
       | None => inl tt
       end).
Proof.
simpl. unfold systeminfo.dispatch.
destruct (decide (funcName = "getInfo")) as [-> | Hne].
- simpl. unfold systeminfo.a_bind at 1. unfold systeminfo.external at 1.
  destruct (panics log _) as [value |]; [reflexivity |].
  unfold systeminfo.Load, systeminfo.a_bind, systeminfo.note, systeminfo.a_ret.
  destruct (systeminfo.GetInfo agent) as [fn |]; unfold systeminfo.external;
    repeat rewrite <- app_assoc; reflexivity.
- apply String.eqb_neq in Hne. rewrite Hne.
  unfold systeminfo.a_bind, systeminfo.note, systeminfo.external.
  repeat rewrite <- app_assoc. reflexivity.
Qed.

Lemma dispatch_panic_source (agent : systeminfo.SystemInfoAgent) (id : Z)
    (targetId funcName : string) (data : Raw)
    (log : list (@systeminfo.agent_effect Handler Command Raw)) (value : systeminfo.panic_data) :
  snd (systeminfo.dispatch SetupCommand panics agent id targetId funcName data log) = inr value ->
  exists log' e, panics log' e = Some value.
Proof.
rewrite dispatch_run. cbv zeta.
destruct (decide (funcName = "getInfo")) as [_ | _].
- destruct (panics log _) as [v |] eqn:Hsetup; simpl.
  + intros [= <-]. eauto.
  + destruct (panics (log ++ _) _) as [v |] eqn:Hanswer; intros [= <-]. eauto.
- simpl. destruct (panics (log ++ _) _) as [v |] eqn:Hunknown; intros [= <-]. eauto.
Qed.

(** X21. The agent contains the panics of its collaborators.  When the
    connection and the registered handler panic only with Warning, Error
    or error values, and closing the connection does not panic, every
    call of [ProcessCommand] returns: whatever the command is and whatever
    fails while it is dispatched, no panic leaves the agent. *)
Theorem agent_contains_panics (agent : systeminfo.SystemInfoAgent) (id : Z)
    (targetId funcName : string) (data : Raw)
    (log : list (@systeminfo.agent_effect Handler Command Raw)) :
  (forall log' e value, panics log' e = Some value -> contained value) ->
  (forall log', panics log' systeminfo.ConnClose = None) ->
  snd (systeminfo.ProcessCommand SetupCommand panics agent id targetId funcName data log)
  = inl tt.
Proof.
intros Hcontained Hclose. unfold systeminfo.ProcessCommand.
destruct (systeminfo.dispatch SetupCommand panics agent id targetId funcName data log)
  as [log1 [[] | value]] eqn:Hbody; [reflexivity |].
assert (Hvalue : contained value).
{ destruct (dispatch_panic_source agent id targetId funcName data log value) as (l & e & He).
  - rewrite Hbody. reflexivity.
  - apply (Hcontained l e value He). }
destruct value as [msg | msg | msg | msg]; simpl in *; try contradiction; try reflexivity;
  unfold systeminfo.a_bind, systeminfo.note, systeminfo.external; simpl;
  rewrite Hclose; reflexivity.
Qed.

(** X22. What the deferred function of [ProcessCommand] does with a
    panic.  Its effects are printed lines and at most a close of the
    connection, after the effects of the dispatch.  The connection is
    closed exactly when the dispatch panicked with an Error or an error
    value; a Warning is printed and swallowed.  A panic leaves
    [ProcessCommand] only with the value of the dispatch, when that is
    neither a Warning, an Error nor an error, or with the value closing
    the connection panicked with; a value of that other kind always
    leaves it. *)
Theorem agent_recovery (agent : systeminfo.SystemInfoAgent) (id : Z)
    (targetId funcName : string) (data : Raw)
    (log : list (@systeminfo.agent_effect Handler Command Raw)) :
  let body := systeminfo.dispatch SetupCommand panics agent id targetId funcName data log in
  let run := systeminfo.ProcessCommand SetupCommand panics agent id targetId funcName data log in
  (exists rest,
      fst run = fst body ++ rest
      /\ Forall recovery_effect rest
      /\ (systeminfo.ConnClose ∈ rest <->
          exists msg, snd body = inr (systeminfo.Error msg)
                      \/ snd body = inr (systeminfo.GoError msg)))
  /\ (forall value,
        snd run = inr value ->
        (snd body = inr value /\ ~ contained value)
        \/ exists log', panics log' systeminfo.ConnClose = Some value)
  /\ (forall msg, snd body = inr (systeminfo.Other msg) -> snd run = inr (systeminfo.Other msg))
  /\ (forall msg,
        snd body = inr (systeminfo.Warning msg) ->
        run = (fst body ++ [systeminfo.PrintlnData (systeminfo.Warning msg)], inl tt)).
Proof.
cbv zeta. unfold systeminfo.ProcessCommand.
destruct (systeminfo.dispatch SetupCommand panics agent id targetId funcName data log)
  as [log1 [[] | value]] eqn:Hbody; cbn [fst snd].
- split; [| split; [| split]]; try discriminate.
  exists []. simpl. rewrite app_nil_r. split; [reflexivity |]. split; [constructor |].
  split; [intros Hin; inversion Hin | intros (msg & [H | H]); discriminate].
- destruct (recovered_run (Some value) log1) as (rest & Hlog & Heffects & Hclose & Hresult).
  split; [| split; [| split]].
  + exists rest. split; [exact Hlog |]. split; [exact Heffects |].
    rewrite Hclose. split; intros (msg & [H | H]); exists msg;
      try (left; congruence); right; congruence.
  + intros escaped Hescaped. rewrite Hescaped in Hresult.
    destruct Hresult as [[Hv Hnot] | Hc]; [left | right; exact Hc].
    injection Hv as ->. auto.
  + intros msg [= ->]. reflexivity.
  + intros msg [= ->]. reflexivity.
Qed.

(** X23. The handler called is the handler registered last.  After two
    registrations, a getInfo command whose setup does not panic is set up
    from its id, target and data, and then handed to the handler of the
    second registration; if that registration was [nil], the command is
    answered with method-not-found instead.  A command with any other
    name is reported on the console and answered with method-not-found
    through the connection, without setup and without any handler being
    called. *)
Theorem agent_calls_last_handler (agent : systeminfo.SystemInfoAgent)
    (first second : option Handler) (id : Z) (targetId funcName : string) (data : Raw)
    (log0 log1 log : list (@systeminfo.agent_effect Handler Command Raw)) :
  let out := SetupCommand id targetId data in
  exists agent1 agent2,
    systeminfo.SetGetInfoHandler agent first log0
    = (log0 ++ [systeminfo.MuxLock; systeminfo.MuxUnlock], inl agent1)
    /\ systeminfo.SetGetInfoHandler agent1 second log1
       = (log1 ++ [systeminfo.MuxLock; systeminfo.MuxUnlock], inl agent2)
    /\ (funcName = "getInfo" ->
        panics log (systeminfo.ConnSetupCommand id targetId data) = None ->
        exists rest,
          fst (systeminfo.ProcessCommand SetupCommand panics agent2 id targetId funcName
                 data log)
          = log ++ [systeminfo.ConnSetupCommand id targetId data;
                    systeminfo.MuxRLock; systeminfo.MuxRUnlock;
                    match second with
                    | Some fn => systeminfo.CallHandler fn out
                    | None =>
                        systeminfo.OutRespondWithError out shared.ErrorCodeMethodNotFound
                          EmptyString
                    end] ++ rest
          /\ Forall recovery_effect rest)
    /\ (funcName <> "getInfo" ->
        exists rest,
          fst (systeminfo.ProcessCommand SetupCommand panics agent2 id targetId funcName
                 data log)
          = log ++ [systeminfo.Printf ("Command " ++ funcName ++ " unknown"
                                       ++ String "010" EmptyString);
                    systeminfo.ConnSendErrorResult id targetId
                      shared.ErrorCodeMethodNotFound EmptyString] ++ rest
          /\ Forall recovery_effect rest).
Proof.
cbv zeta. eexists. eexists.
split; [unfold systeminfo.SetGetInfoHandler, systeminfo.Store, systeminfo.a_bind,
          systeminfo.note, systeminfo.a_ret; rewrite <- app_assoc; reflexivity |].
split; [unfold systeminfo.SetGetInfoHandler, systeminfo.Store, systeminfo.a_bind,
          systeminfo.note, systeminfo.a_ret; rewrite <- app_assoc; reflexivity |].
split.
- intros Hname Hsetup. unfold systeminfo.ProcessCommand.
  rewrite dispatch_run. cbv zeta. rewrite decide_True by exact Hname. rewrite Hsetup.
  cbn [systeminfo.GetInfo].
  match goal with
  | |- context [panics ?l ?e] => destruct (panics l e) as [value |]
  end.
  + destruct (recovered_run (Some value) (log ++ [systeminfo.ConnSetupCommand id targetId data;
                systeminfo.MuxRLock; systeminfo.MuxRUnlock;
                match second with
                | Some fn => systeminfo.CallHandler fn (SetupCommand id targetId data)
                | None =>
                    systeminfo.OutRespondWithError (SetupCommand id targetId data)
                      shared.ErrorCodeMethodNotFound EmptyString
                end])) as (rest & Hlog & Heffects & _).
    exists rest. rewrite Hlog, <- app_assoc. auto.
  + exists []. split; [simpl; rewrite ?app_nil_r; reflexivity | constructor].
- intros Hname. unfold systeminfo.ProcessCommand.
  rewrite dispatch_run. cbv zeta. rewrite decide_False by exact Hname.
  match goal with
  | |- context [panics ?l ?e] => destruct (panics l e) as [value |]
  end.
  + match goal with
    | |- context [systeminfo.recovered panics (Some value) ?l] =>
        destruct (recovered_run (Some value) l) as (rest & Hlog & Heffects & _)
    end.
    exists rest. rewrite Hlog, <- app_assoc. auto.
  + exists []. split; [simpl; rewrite ?app_nil_r; reflexivity | constructor].
Qed.

End AgentFacts.

(** ** Failing snapshots and syncs *)

Lemma bind_Panicked_inv {C A B} (m : M C A) (k : A -> M C B) (w w' : World C)
    (v : panic_value) :
  bind m k w = Panicked v w' ->
  m w = Panicked v w' \/ exists a w1, m w = Done a w1 /\ k a w1 = Panicked v w'.
Proof.
unfold bind. destruct (m w) as [a w1 | v1 w1]; [eauto | intros [= <- <-]; auto].
Qed.

Section FailingSnapshots.

Context {C : Type}.
Variable client_ops : dbgClient.Ops C.
Variable range_order : nat -> forall A : Type, list A -> list A.

Lemma collectStacks_Panicked (w w' : World C) (v : panic_value) :
  collectStacks client_ops range_order w = Panicked v w' ->
  exists visited : list (Z * Target),
    visited <> []
    /\ trace w' = trace w ++ RLock activeTargetsMux
                    :: map (fun e => ClientCall (CallStacktrace e.1 50 stack_LoadConfig)) visited
    /\ px w' = px w.
Proof.
unfold collectStacks.
unfold bind at 1. unfold emit at 1.
unfold range_activeTargets.
unfold bind at 1. unfold bind at 1. unfold get_proxy at 1. unfold range_entries at 1.
cbn [px client trace ranges].
set (entries := range_order (ranges w) (Z * Target) (map_to_list (activeTargets (px w)))).
clearbody entries. intros Hrun.
apply bind_Panicked_inv in Hrun.
destruct Hrun as [Hloop | (locals & w1 & _ & Hrest)]; [| discriminate].
match type of Hloop with
| fold_each entries _ ?body _ = _ =>
    assert (Hgen : forall es acc w0 w2,
               fold_each es acc body w0 = Panicked v w2 ->
               exists visited : list (Z * Target),
                 visited <> []
                 /\ trace w2 = trace w0
                   ++ map (fun e => ClientCall (CallStacktrace e.1 50 stack_LoadConfig))
                          visited
                 /\ px w2 = px w0)
end.
{ clear. induction es as [| [routineID target] rest IH]; intros [activeStack stacks] w0 w2.
  - discriminate.
  - simpl. intros Hrun. apply bind_Panicked_inv in Hrun.
    destruct Hrun as [Hbody | (acc' & w1 & Hbody & Hrest)].
    + unfold bind at 1 in Hbody. unfold call at 1 in Hbody.
      destruct (dbgClient.Stacktrace client_ops (client w0) routineID 50 stack_LoadConfig)
        as [c' [frames [err |]]].
      * injection Hbody as <- <-. exists [(routineID, target)].
        split; [discriminate | auto].
      * unfold bind, get_proxy in Hbody. cbn [px] in Hbody.
        destruct (decide (routineID = activeGoroutineID (px w0))); discriminate.
    + unfold bind at 1 in Hbody. unfold call at 1 in Hbody.
      destruct (dbgClient.Stacktrace client_ops (client w0) routineID 50 stack_LoadConfig)
        as [c' [frames [err |]]]; [discriminate |].
      unfold bind, get_proxy in Hbody. cbn [px client trace ranges] in Hbody.
      destruct (decide (routineID = activeGoroutineID (px w0)));
        injection Hbody as <- <-; apply IH in Hrest;
        destruct Hrest as (visited & _ & Htrace & Hpx); cbn [px trace] in Htrace, Hpx;
        exists ((routineID, target) :: visited);
        (split; [discriminate |]);
        (split; [rewrite Htrace, <- app_assoc; reflexivity | exact Hpx]). }
apply Hgen in Hloop. destruct Hloop as (visited & Hne & Htrace & Hpx).
cbn [px trace] in Htrace, Hpx. exists visited. split; [exact Hne |].
split; [rewrite Htrace, <- app_assoc; reflexivity | exact Hpx].
Qed.

Lemma failing_shape (sync tail : list effect) :
  Forall sync_effect sync ->
  (Lock activeTargetsMux ∈ sync -> Unlock activeTargetsMux ∈ sync) ->
  (tail = []
   \/ exists visited : list (Z * Target),
        visited <> []
        /\ tail = RLock activeTargetsMux
                  :: map (fun e => ClientCall (CallStacktrace e.1 50 stack_LoadConfig))
                         visited) ->
  let es := ClientCall CallGetState :: sync ++ tail in
  paused_ids es = []
  /\ default_paused es = []
  /\ (RUnlock activeTargetsMux ∉ es)
  /\ (Lock activeTargetsMux ∈ es -> Unlock activeTargetsMux ∈ es)
  /\ (RLock activeTargetsMux ∈ es ->
      exists routine, last es = Some (ClientCall (CallStacktrace routine 50 stack_LoadConfig))).
Proof.
intros Hsync Hlock Htail. cbv zeta.
destruct (sync_effect_no_snapshot sync Hsync) as (_ & Hs2 & Hs3).
assert (Hkinds : forall e, e ∈ sync ->
                   e <> RLock activeTargetsMux /\ e <> RUnlock activeTargetsMux).
{ intros e He. rewrite Forall_forall in Hsync. specialize (Hsync e He).
  split; intros ->; exact Hsync. }
assert (Hcalls : forall visited : list (Z * Target),
           let calls := map (fun e => ClientCall (CallStacktrace e.1 50 stack_LoadConfig))
                            visited in
           paused_ids calls = [] /\ default_paused calls = []
           /\ forall e, e ∈ calls -> exists routine,
                e = ClientCall (CallStacktrace routine 50 stack_LoadConfig)).
{ intros visited. simpl. split; [apply calls_only |]. split; [apply calls_only |].
  intros e He. apply list_elem_of_fmap in He. destruct He as ([k t] & -> & _). eauto. }
destruct Htail as [-> | (visited & Hne & ->)].
- rewrite app_nil_r.
  change (paused_ids (?e :: sync)) with (paused_ids sync).
  change (default_paused (?e :: sync)) with (default_paused sync).
  split; [exact Hs2 |]. split; [exact Hs3 |].
  split.
  { intros Hin. apply elem_of_cons in Hin. destruct Hin as [Hin | Hin]; [discriminate |].
    apply Hkinds in Hin. tauto. }
  split.
  { intros Hin. apply elem_of_cons in Hin. destruct Hin as [Hin | Hin]; [discriminate |].
    right. auto. }
  intros Hin. apply elem_of_cons in Hin. destruct Hin as [Hin | Hin]; [discriminate |].
  apply Hkinds in Hin. tauto.
- destruct (Hcalls visited) as (Hc2 & Hc3 & Hc).
  change (paused_ids (?e :: ?l)) with (paused_ids l).
  change (default_paused (?e :: ?l)) with (default_paused l).
  rewrite paused_ids_app, default_paused_app, Hs2, Hs3.
  change (paused_ids (RLock activeTargetsMux :: ?l)) with (paused_ids l).
  change (default_paused (RLock activeTargetsMux :: ?l)) with (default_paused l).
  split; [exact Hc2 |]. split; [exact Hc3 |].
  split.
  { intros Hin. apply elem_of_cons in Hin. destruct Hin as [Hin | Hin]; [discriminate |].
    apply elem_of_app in Hin. destruct Hin as [Hin | Hin]; [apply Hkinds in Hin; tauto |].
    apply elem_of_cons in Hin. destruct Hin as [Hin | Hin]; [discriminate |].
    apply Hc in Hin. destruct Hin as [routine Hin]. discriminate. }
  split.
  { intros Hin. apply elem_of_cons in Hin. destruct Hin as [Hin | Hin]; [discriminate |].
    apply elem_of_app in Hin. destruct Hin as [Hin | Hin].
    - right. apply elem_of_app. left. auto.
    - apply elem_of_cons in Hin. destruct Hin as [Hin | Hin]; [discriminate |].
      apply Hc in Hin. destruct Hin as [routine Hin]. discriminate. }
  intros _.
  destruct (exists_last Hne) as (front & [k t] & ->).
  exists k. rewrite map_app. simpl.
  replace (ClientCall CallGetState
           :: sync ++ RLock activeTargetsMux
              :: map (fun e : Z * Target => ClientCall (CallStacktrace e.1 50 stack_LoadConfig))
                     front
              ++ [ClientCall (CallStacktrace k 50 stack_LoadConfig)])
    with ((ClientCall CallGetState
           :: sync ++ RLock activeTargetsMux
              :: map (fun e : Z * Target =>
                        ClientCall (CallStacktrace e.1 50 stack_LoadConfig)) front)
          ++ [ClientCall (CallStacktrace k 50 stack_LoadConfig)])
    by (simpl; rewrite <- app_assoc; reflexivity).
  apply last_snoc.
Qed.

(** X24. A pause snapshot fires its events only when nothing can fail
    any more.  If [sendPauseState] panics, no Paused event has been fired,
    neither on the default agent nor on a target: the front end is told
    about a pause only after the stack of every target was collected.  In
    a panicking run the write lock of the routine sync, if taken, has been
    released again, but the read lock taken for collecting the stacks has
    not: it is released by hand after the loop, which a failing
    [Stacktrace] cuts short. *)
Theorem failing_snapshot (w w' : World C) (v : panic_value) :
  sendPauseState client_ops range_order w = Panicked v w' ->
  let es := emitted w (sendPauseState client_ops range_order w) in
  paused_ids es = []
  /\ default_paused es = []
  /\ (RUnlock activeTargetsMux ∉ es)
  /\ (Lock activeTargetsMux ∈ es -> Unlock activeTargetsMux ∈ es)
  /\ (RLock activeTargetsMux ∈ es ->
      exists routine, last es = Some (ClientCall (CallStacktrace routine 50 stack_LoadConfig))).
Proof.
intros Hrun. cbv zeta. rewrite Hrun.
assert (Hshape : exists sync tail,
           trace w' = trace w ++ ClientCall CallGetState :: sync ++ tail
           /\ Forall sync_effect sync
           /\ (Lock activeTargetsMux ∈ sync -> Unlock activeTargetsMux ∈ sync)
           /\ (tail = []
               \/ exists visited : list (Z * Target),
                    visited <> []
                    /\ tail = RLock activeTargetsMux
                              :: map (fun e => ClientCall
                                                 (CallStacktrace e.1 50 stack_LoadConfig))
                                     visited)).
{ unfold sendPauseState in Hrun.
  apply bind_Panicked_inv in Hrun.
  destruct Hrun as [Hcall | (r & w1 & Hcall & Hrest)].
  { unfold call in Hcall. destruct (dbgClient.GetState client_ops (client w)). discriminate. }
  unfold call in Hcall.
  destruct (dbgClient.GetState client_ops (client w)) as [c1 [state err]].
  injection Hcall as <- <-.
  destruct err as [err |].
  { injection Hrest as <- <-. exists [], []. cbn [trace].
    split; [reflexivity |]. split; [constructor |]. split; [| auto].
    intros Hin. inversion Hin. }
  match type of Hrest with
  | bind (syncGoroutines _ _) _ ?x = _ => set (w1 := x) in *
  end.
  destruct (syncGoroutines_sync_effects client_ops range_order w1)
    as (sync & Htrace & Hsync & _).
  destruct (syncGoroutines_trace client_ops range_order w1)
    as (sync' & Htrace' & Hlocked & _).
  cbv beta in Hlocked. destruct Hlocked as [_ (mid & Hmid)].
  assert (Hsame : sync' = sync).
  { rewrite Htrace in Htrace'. apply app_inv_head in Htrace'. auto. }
  assert (Hunlock : Lock activeTargetsMux ∈ sync -> Unlock activeTargetsMux ∈ sync).
  { intros _. rewrite <- Hsame, Hmid. right. right. apply elem_of_app. right. left. }
  apply bind_Panicked_inv in Hrest.
  destruct Hrest as [Hpanic | ([] & w2 & Hdone & Hrest)].
  { rewrite Hpanic in Htrace. cbn [final_world] in Htrace.
    exists sync, []. rewrite Htrace. subst w1. cbn [trace].
    rewrite app_nil_r, <- app_assoc. auto. }
  rewrite Hdone in Htrace. cbn [final_world] in Htrace.
  destruct state as [st |].
  2: { injection Hrest as <- <-. exists sync, []. rewrite Htrace. subst w1. cbn [trace].
       rewrite app_nil_r, <- app_assoc. auto. }
  apply bind_Panicked_inv in Hrest.
  destruct Hrest as [Hcollect | ([activeStack stacks] & w3 & _ & Hfire)].
  2: { rewrite firePausedEvents_run in Hfire. discriminate. }
  apply collectStacks_Panicked in Hcollect.
  destruct Hcollect as (visited & Hne & Htrace3 & _).
  exists sync. eexists. split; [| split; [exact Hsync | split; [exact Hunlock |]]].
  2: { right. exists visited. split; [exact Hne | reflexivity]. }
  rewrite Htrace3, Htrace. subst w1. cbn [trace].
  repeat rewrite <- app_assoc. reflexivity. }
destruct Hshape as (sync & tail & Htrace & Hsync & Hunlock & Htail).
rewrite (emitted_of_trace w (Panicked v w') _ Htrace).
apply failing_shape; assumption.
Qed.

End FailingSnapshots.

(** ** Locations of breakpoints and of frames *)

Lemma sub_add_one (line : Z) : GoInt.in_int64 line -> GoInt.sub (GoInt.add line 1) 1 = line.
Proof.
intros Hline. destruct (decide (line = GoInt.max_int64)) as [-> | Hne].
- vm_compute. reflexivity.
- assert (Hnext : GoInt.in_int64 (line + 1)).
  { unfold GoInt.in_int64, GoInt.min_int64, GoInt.max_int64 in *. lia. }
  unfold GoInt.add, GoInt.sub. rewrite (wrap64_in_range _ Hnext).
  replace (line + 1 - 1) with line by lia. apply wrap64_in_range, Hline.
Qed.

Section Locations.

Context {C : Type}.
Variable client_ops : dbgClient.Ops C.
Variable range_order : nat -> forall A : Type, list A -> list A.

Lemma setBreakpoint_reply_locations (command : debuggerAgent.SetBreakpointByUrlCommand)
    (w : World C) (r : debuggerAgent.SetBreakpointByUrlReturn) :
  In (Respond (ReplySetBreakpointByUrl r))
     (emitted w (setBreakpointAndRespond client_ops command w)) ->
  exists url,
    debuggerAgent.CmdUrl command = Some url
    /\ debuggerAgent.Locations r = [buildLocation url (debuggerAgent.CmdLineNumber command)].
Proof.
intros Hin.
destruct (accepted_or_rejected command) as [[url Hacc] | Hrej].
- exists url. split; [apply Hacc |].
  rewrite (setBreakpoint_accepted client_ops command url w Hacc) in Hin. simpl in Hin.
  destruct (decide _) as [Hmem | Hmem].
  + unfold add_trace in Hin. rewrite emitted_mk in Hin.
    destruct Hin as [Heq | [Heq | [Heq | []]]]; try discriminate.
    inversion Heq. reflexivity.
  + destruct (dbgClient.CreateBreakpointAtLine _ _ _ _ _) as [c' [e |]];
      rewrite emitted_mk in Hin;
      destruct Hin as [Heq | [Heq | [Heq | [Heq | []]]]]; try discriminate.
    inversion Heq. reflexivity.
- destruct (setBreakpoint_rejected client_ops command w Hrej) as [msg Hrun].
  rewrite Hrun in Hin. unfold add_trace in Hin. rewrite emitted_mk in Hin.
  destruct Hin as [Heq | []]. discriminate.
Qed.

(** X25. A breakpoint stops where its response said.  Whenever
    [setBreakpointAndRespond] creates a breakpoint in the debugger at a
    file and line, a stack frame stopped at that file and line is
    reported in a Paused event at the location named in the
    SetBreakpointByUrl response: the same file and the line of the
    command.  The minus one of the frames undoes the plus one of the
    breakpoint for every int64 line, also where the plus one wraps. *)
Theorem breakpoint_location_round_trip (command : debuggerAgent.SetBreakpointByUrlCommand)
    (w : World C) (file : string) (line : Z) (name : string)
    (fn : option dbgClient.Function) :
  GoInt.in_int64 (debuggerAgent.CmdLineNumber command) ->
  In (ClientCall (CallCreateBreakpointAtLine file line name))
     (emitted w (setBreakpointAndRespond client_ops command w)) ->
  map debuggerAgent.Location_
      (sendFrames [{| dbgClient.Location_ :=
                        {| dbgClient.File := file; dbgClient.Line := line;
                           dbgClient.Function_ := fn |} |}])
  = [buildLocation file (debuggerAgent.CmdLineNumber command)]
  /\ (forall r,
        In (Respond (ReplySetBreakpointByUrl r))
           (emitted w (setBreakpointAndRespond client_ops command w)) ->
        debuggerAgent.Locations r
        = [buildLocation file (debuggerAgent.CmdLineNumber command)]).
Proof.
intros Hline Hcall.
destruct (setBreakpoint_call_line client_ops command w file line name Hcall) as [Hurl ->].
split.
- unfold sendFrames. simpl. rewrite (sub_add_one _ Hline). reflexivity.
- intros r Hr. destruct (setBreakpoint_reply_locations command w r Hr) as (url & Hurl' & ->).
  congruence.
Qed.

(** X26. A failed routine sync changes nothing.  When [ListGoroutines]
    fails, [syncGoroutines] panics with the error of the debugger; the
    routines answered along with the error are ignored, the proxy state is
    what it was, and the deferred unlock has released the write lock: the
    effects are the lock, the call and the unlock. *)
Theorem sync_failure_exact (w : World C) (c1 : C) (routines : list dbgClient.Goroutine)
    (cause : dbgClient.error) :
  dbgClient.ListGoroutines client_ops (client w) = (c1, (routines, Some cause)) ->
  syncGoroutines client_ops range_order w
  = Panicked (PanicError cause)
      (mkWorld (px w) c1
         (trace w ++ [Lock activeTargetsMux; ClientCall CallListGoroutines;
                      Unlock activeTargetsMux])
         (ranges w)).
Proof.
intros Hlist. unfold syncGoroutines. run_monad. rewrite Hlist. simpl.
repeat rewrite <- app_assoc. reflexivity.
Qed.

End Locations.

(** ** The further properties at concrete inputs *)

Lemma in_int64_small (z : Z) : -1000 <= z <= 1000 -> GoInt.in_int64 z.
Proof. unfold GoInt.in_int64, GoInt.min_int64, GoInt.max_int64. lia. Qed.

Lemma target_id_round_trip_witness :
  exists tid,
    attached_ids (emitted (Scripted.fresh Scripted.healthy)
                    (Attach {| ID := 7 |} Scripted.worker_routine
                       (Scripted.fresh Scripted.healthy))) = [tid]
    /\ forall p, destination_routine p tid = Some 7.
Proof.
destruct (target_id_round_trip {| ID := 7 |} Scripted.worker_routine []
            (Scripted.fresh Scripted.healthy))
  as (tid & Hattached & _ & _ & _ & _ & Hdestination & _).
- apply in_int64_small. simpl. lia.
- exists tid. split; [exact Hattached | exact Hdestination].
Defined.

Lemma breakpointKey_collision_witness :
  ("/a/b.src" = "/a/b.src" /\ 10 = 10)
  \/ (fingerprint_input "/a/b.src" 10 <> fingerprint_input "/a/b.src" 10
      /\ SHA1.Sum (GoStrings.bytes_of (fingerprint_input "/a/b.src" 10))
         = SHA1.Sum (GoStrings.bytes_of (fingerprint_input "/a/b.src" 10))).
Proof. exact (breakpointKey_collision "/a/b.src" "/a/b.src" 10 10 eq_refl). Defined.

Lemma removeBreakpoint_forgets_witness :
  breakpointKey "/a/b.src" 10
  ∉ breakpoints (px (final_world
       (removeBreakpointAndRespond Scripted.ops
          {| debuggerAgent.RemoveBreakpointId := breakpointKey "/a/b.src" 10 |}
          (Scripted.fresh (Scripted.failing "gone"))))).
Proof.
exact (proj1 (proj2 (removeBreakpoint_forgets Scripted.ops
         {| debuggerAgent.RemoveBreakpointId := breakpointKey "/a/b.src" 10 |}
         (Scripted.fresh (Scripted.failing "gone"))))).
Defined.

Lemma setBreakpoint_rejection_witness :
  emitted (Scripted.fresh Scripted.healthy)
    (setBreakpointAndRespond Scripted.ops
       {| debuggerAgent.CmdLineNumber := 10;
          debuggerAgent.CmdUrl := Some "/a/b.src";
          debuggerAgent.UrlRegex := Some "b.*";
          debuggerAgent.ColumnNumber := None;
          debuggerAgent.Condition := None |}
       (Scripted.fresh Scripted.healthy))
  = [RespondWithError shared.ErrorCodeInvalidParams "urlRegex not available"].
Proof.
apply (proj1 (proj2 (setBreakpoint_rejection Scripted.ops
         {| debuggerAgent.CmdLineNumber := 10;
            debuggerAgent.CmdUrl := Some "/a/b.src";
            debuggerAgent.UrlRegex := Some "b.*";
            debuggerAgent.ColumnNumber := None;
            debuggerAgent.Condition := None |}
         (Scripted.fresh Scripted.healthy)))).
discriminate.
Defined.

Lemma set_remove_set_witness :
  exists w1 w2 w3,
    setBreakpointAndRespond Scripted.ops Scripted.set_b_10 (Scripted.fresh Scripted.healthy)
      = Done tt w1
    /\ removeBreakpointAndRespond Scripted.ops
         {| debuggerAgent.RemoveBreakpointId := breakpointKey "/a/b.src" 10 |} w1
       = Done tt w2
    /\ breakpoints (px w2) = ∅
    /\ setBreakpointAndRespond Scripted.ops Scripted.set_b_10 w2 = Done tt w3
    /\ create_calls (emitted (Scripted.fresh Scripted.healthy) (Done tt w3)) = 2%nat.
Proof.
destruct (set_remove_set Scripted.ops Scripted.set_b_10 "/a/b.src"
            (Scripted.fresh Scripted.healthy))
  as (w1 & w2 & w3 & Hset & _ & Hremove & Hback & Hagain & Hcalls).
- exact set_b_10_accepted.
- apply not_elem_of_empty.
- reflexivity.
- exists w1, w2, w3. auto.
Defined.

Lemma evaluate_read_only_witness :
  evaluateOnGoroutineAndRespond Scripted.ops Scripted.MakeRemoteObject
    {| debuggerAgent.EvalDestinationTargetID := EmptyString;
       debuggerAgent.EvalCallFrameId := "top";
       debuggerAgent.Expression := "x" |}
    (Scripted.fresh Scripted.healthy)
  = Panicked (PanicAtoi "top") (Scripted.fresh Scripted.healthy).
Proof.
apply (proj1 (proj2 (proj2 (evaluate_read_only Scripted.ops Scripted.MakeRemoteObject
         {| debuggerAgent.EvalDestinationTargetID := EmptyString;
            debuggerAgent.EvalCallFrameId := "top";
            debuggerAgent.Expression := "x" |}
         (Scripted.fresh Scripted.healthy))))).
- left. reflexivity.
- reflexivity.
Defined.

Lemma resume_fan_out_witness :
  exists w',
    sendResumeState Scripted.in_order (Scripted.watching_5 Scripted.healthy) = Done tt w'
    /\ px w' = px (Scripted.watching_5 Scripted.healthy).
Proof.
destruct (resume_fan_out Scripted.in_order in_order_perm (Scripted.watching_5 Scripted.healthy))
  as (w' & visited & Hrun & Hpx & _).
exists w'. auto.
Defined.

Lemma snapshot_complete_witness :
  length (default_paused
            (emitted (Scripted.fresh Scripted.healthy)
               (Done tt (final_world (sendPauseState Scripted.ops Scripted.in_order
                                        (Scripted.fresh Scripted.healthy))))))
  = if decide (activeTargets
                 (px (final_world (sendPauseState Scripted.ops Scripted.in_order
                                     (Scripted.fresh Scripted.healthy)))) = ∅)
    then 0%nat else 1%nat.
Proof.
apply (snapshot_complete Scripted.ops Scripted.in_order in_order_perm
         (Scripted.fresh Scripted.healthy)).
vm_compute. reflexivity.
Defined.

Lemma frame_id_round_trip_witness :
  exists cf,
    sendFrames [Scripted.frame "/a/w.src" 4 "main.worker";
                Scripted.frame "/a/b.src" 20 "main.main"] !! 1%nat = Some cf
    /\ GoInt.Atoi (debuggerAgent.CallFrameId cf) = Some 1.
Proof.
eexists. split; [reflexivity |].
apply (frame_id_round_trip [Scripted.frame "/a/w.src" 4 "main.worker";
                            Scripted.frame "/a/b.src" 20 "main.main"] 1 _ eq_refl).
apply in_int64_small. lia.
Defined.

Lemma start_announces_sources_witness :
  exists p' c' es sources,
    Start Scripted.ops (fun c => c)
      (fun c => (c, (["/a/b.src"; "<autogenerated>"; "/a/w.src"], None)))
      NewProxy Scripted.healthy
    = Started p' c' es
    /\ fileList p' = fileList NewProxy ++ kept_sources sources
    /\ scripts_parsed es = map source_event (kept_sources sources).
Proof.
destruct (start_announces_sources Scripted.ops (fun c => c)
            (fun c => (c, (["/a/b.src"; "<autogenerated>"; "/a/w.src"], None)))
            NewProxy
            (set_fileList (fun _ => ["/a/b.src"; "/a/w.src"])
               (set_activeGoroutineID 1 NewProxy))
            Scripted.healthy Scripted.healthy
            (start_prefix ++ [Go GoSendPauseState; CallListSources]
             ++ map (fun source => FireScriptParsed (source_event source))
                    ["/a/b.src"; "/a/w.src"]))
  as (c1 & state & sources & _ & _ & Hfiles & _ & Hscripts & _).
- reflexivity.
- eexists. eexists. eexists. exists sources.
  split; [reflexivity |]. split; [exact Hfiles | exact Hscripts].
Defined.

Lemma start_failures_witness :
  scripts_parsed
    (start_prefix ++ [Go GoSendPauseState; CallListSources]) = []
  \/ fileList NewProxy = fileList (set_activeGoroutineID 1 NewProxy).
Proof.
destruct (start_failures Scripted.ops (fun c => c)
            (fun c => (c, ([], Some "gone")))
            NewProxy (set_activeGoroutineID 1 NewProxy)
            Scripted.healthy Scripted.healthy (PanicError "gone")
            (start_prefix ++ [Go GoSendPauseState; CallListSources]))
  as [(_ & _ & _ & Hstate) | (_ & Hfiles & _)].
- reflexivity.
- left. reflexivity.
- right. symmetry. exact Hfiles.
Defined.

Lemma attach_replays_start_witness :
  scripts_parsed_on
    (emitted (mkWorld (set_fileList (fun _ => ["/a/b.src"; "/a/w.src"])
                         (set_activeGoroutineID 1 NewProxy))
                      Scripted.healthy [] 0)
       (Attach {| ID := 7 |} Scripted.worker_routine
          (mkWorld (set_fileList (fun _ => ["/a/b.src"; "/a/w.src"])
                      (set_activeGoroutineID 1 NewProxy))
                   Scripted.healthy [] 0)))
  = [("7", source_event "/a/b.src"); ("7", source_event "/a/w.src")].
Proof.
apply (attach_replays_start Scripted.ops (fun c => c)
         (fun c => (c, (["/a/b.src"; "<autogenerated>"; "/a/w.src"], None)))
         Scripted.healthy Scripted.healthy
         (set_fileList (fun _ => ["/a/b.src"; "/a/w.src"]) (set_activeGoroutineID 1 NewProxy))
         (start_prefix ++ [Go GoSendPauseState; CallListSources]
          ++ map (fun source => FireScriptParsed (source_event source))
                 ["/a/b.src"; "/a/w.src"])
         {| ID := 7 |} Scripted.worker_routine
         (mkWorld (set_fileList (fun _ => ["/a/b.src"; "/a/w.src"])
                     (set_activeGoroutineID 1 NewProxy))
                  Scripted.healthy [] 0)).
- reflexivity.
- reflexivity.
Defined.

Lemma agent_contains_panics_witness :
  snd (systeminfo.ProcessCommand (Handler := unit) (Command := Z) (Raw := string)
         (fun id _ _ => id)
         (fun _ e => match e with
                     | systeminfo.CallHandler _ _ => Some (systeminfo.Warning "busy")
                     | _ => None
                     end)
         {| systeminfo.GetInfo := Some tt |} 3 "7" "getInfo" "{}" [])
  = inl tt.
Proof.
apply agent_contains_panics.
- intros log' e value. destruct e; try discriminate. intros [= <-]. exact I.
- reflexivity.
Defined.

Lemma agent_calls_last_handler_witness :
  exists rest,
    fst (systeminfo.ProcessCommand (Handler := nat) (Command := Z) (Raw := string)
           (fun id _ _ => id) (fun _ _ => None)
           {| systeminfo.GetInfo := Some 2%nat |} 3 "7" "getInfo" "{}" [])
    = [systeminfo.ConnSetupCommand 3 "7" "{}"; systeminfo.MuxRLock; systeminfo.MuxRUnlock;
       systeminfo.CallHandler 2%nat 3] ++ rest
    /\ Forall recovery_effect rest.
Proof.
destruct (agent_calls_last_handler (Handler := nat) (Command := Z) (Raw := string)
            (fun id _ _ => id) (fun _ _ => None)
            systeminfo.NewAgent (Some 1%nat) (Some 2%nat) 3 "7" "getInfo" "{}" [] [] [])
  as (agent1 & agent2 & _ & Hsecond & Hcalled & _).
injection Hsecond as <-.
exact (Hcalled eq_refl eq_refl).
Defined.

Lemma failing_snapshot_witness :
  paused_ids (emitted (Scripted.fresh Scripted.not_paused)
                (sendPauseState Scripted.ops Scripted.in_order
                   (Scripted.fresh Scripted.not_paused))) = [].
Proof.
apply (failing_snapshot Scripted.ops Scripted.in_order (Scripted.fresh Scripted.not_paused)
         (final_world (sendPauseState Scripted.ops Scripted.in_order
                         (Scripted.fresh Scripted.not_paused)))
         (PanicString "Called sendPauseState() but not paused.")).
vm_compute. reflexivity.
Defined.

Lemma breakpoint_location_round_trip_witness :
  map debuggerAgent.Location_
      (sendFrames [{| dbgClient.Location_ :=
                        {| dbgClient.File := "/a/b.src"; dbgClient.Line := 11;
                           dbgClient.Function_ := None |} |}])
  = [buildLocation "/a/b.src" 10].
Proof.
apply (breakpoint_location_round_trip Scripted.ops Scripted.set_b_10
         (Scripted.fresh Scripted.healthy) "/a/b.src" 11 (breakpointKey "/a/b.src" 10) None).
- apply in_int64_small. simpl. lia.
- vm_compute. right. left. reflexivity.
Defined.

Lemma sync_failure_exact_witness :
  syncGoroutines
    {| dbgClient.GetState := fun c => (c, (None, None));
       dbgClient.ListGoroutines := fun c => (c, ([Scripted.main_routine], Some c));
       dbgClient.Stacktrace := fun c _ _ _ => (c, ([], None));
       dbgClient.SwitchGoroutine := fun c _ => (c, (None, None));
       dbgClient.Next := fun c => (c, (None, None));
       dbgClient.Step := fun c => (c, (None, None));
       dbgClient.StepOut := fun c => (c, (None, None));
       dbgClient.Continue := fun c => (c, None);
       dbgClient.CreateBreakpointAtLine := fun c _ _ _ => (c, None);
       dbgClient.ClearBreakpointByName := fun c _ => (c, None);
       dbgClient.EvalVariable := fun c _ _ _ => (c, (None, None)) |}
    Scripted.in_order (mkWorld NewProxy "gone" [] 0)
  = Panicked (PanicError "gone")
      (mkWorld NewProxy "gone"
         [Lock activeTargetsMux; ClientCall CallListGoroutines; Unlock activeTargetsMux] 0).
Proof.
apply (sync_failure_exact _ Scripted.in_order (mkWorld NewProxy "gone" [] 0) "gone"
         [Scripted.main_routine] "gone").
reflexivity.
Defined.
